(** * The HTTP service of [src/index.js], embedded and verified

    The program is an Express application: four GET routes, the JSON body
    middleware in front of them, a port taken from the process environment
    and a [listen] call with a start-up callback.  The handlers are pure
    functions of the request and of two readings of the runtime clock
    ([process.uptime()] and [new Date()]); everything else that a client can
    observe is decided by the framework calls the file makes ([express()],
    [express.json()], [app.get], [res.json], [app.listen]).  Those calls are
    embedded with the behaviour that Node and Express 4 give them, with the
    packages Express 4 depends on: [body-parser] 1.20 with [type-is],
    [media-typer], [content-type], [raw-body] and [iconv-lite] for the
    request body, [etag] and [fresh] for conditional requests, and
    [finalhandler] for the default pages.  Each definition names the call
    it stands for.

    Layout: JavaScript values and [process.env]; JSON values, [JSON.stringify]
    and the syntax check of [JSON.parse]; [Date.prototype.toISOString];
    entity tags; the Express request pipeline; [index.js] and its sibling
    variants; theorems. *)

From Stdlib Require Import ZArith QArith Qround Lia String Ascii List.
From Stdlib Require Import DecimalString DecimalN DecimalZ.
From stdpp Require Import gmap strings.
Close Scope Q_scope.
Local Open Scope string_scope.
Local Open Scope Z_scope.

(** ** JavaScript values, truthiness and the process environment *)

Module JS.

(** The values that flow through [index.js] outside of response bodies:
    [process.env.X] is a string or [undefined], the port default is a
    number. *)
Inductive value : Type :=
| Undefined
| Num (n : Z)
| Str (s : string).

(** ECMAScript [ToBoolean]: [undefined], [0] and the empty string are
    falsy; every other number or string is truthy. *)
Definition ToBoolean (v : value) : bool :=
  match v with
  | Undefined => false
  | Num n => negb (n =? 0)
  | Str EmptyString => false
  | Str (String _ _) => true
  end.

(** [a || b]: the left operand when it is truthy, else the right one. *)
Definition or (a b : value) : value :=
  if ToBoolean a then a else b.

(** Decimal text of an integer, as [ToString] prints an integral number
    (below 10^21, where JavaScript switches to exponents). *)
Definition decimal (n : Z) : string :=
  NilZero.string_of_int (Z.to_int n).

(** [ToString], used by the template literals of the start-up log. *)
Definition ToString (v : value) : string :=
  match v with
  | Undefined => "undefined"
  | Num n => decimal n
  | Str s => s
  end.

(** [process.env]: a mapping from names to strings. *)
Abbreviation environment := (gmap string string).

(** [process.env.NAME]: the string bound to the name, or [undefined]. *)
Definition env_get (env : environment) (name : string) : value :=
  match env !! name with
  | Some s => Str s
  | None => Undefined
  end.

(** The number a plain decimal literal denotes ([Number("8080")]); other
    spellings of numbers are not needed here and yield [None]. *)
Definition StringToNumber (s : string) : option Z :=
  match s with
  | EmptyString => None
  | String _ _ =>
      match NilEmpty.uint_of_string s with
      | Some u => Some (Z.of_N (N.of_uint u))
      | None => None
      end
  end.

Definition ToNumber (v : value) : option Z :=
  match v with
  | Undefined => None
  | Num n => Some n
  | Str s => StringToNumber s
  end.

End JS.

(** ** JSON: response bodies and the syntax accepted by [JSON.parse] *)

Module Json.

(** The objects the handlers pass to [res.json]: strings, integral numbers
    and objects with their keys in insertion order. *)
#[warnings="-register-all"]
Inductive value : Type :=
| JNum (n : Z)
| JStr (s : string)
| JObj (fields : list (string * value)).

(** [obj[key]] for an own property of an object. *)
Definition field (key : string) (v : value) : option value :=
  match v with
  | JObj fields => snd <$> List.find (fun kv => String.eqb (fst kv) key) fields
  | _ => None
  end.

Definition quote : ascii := "034".
Definition backslash : ascii := "092".

Definition hex_digit (n : N) : ascii :=
  if (n <? 10)%N then ascii_of_N (48 + n) else ascii_of_N (87 + n).

(** One character of [QuoteJSONString]: the quote, the backslash and the
    control characters are escaped, everything else is copied. *)
Definition escape_char (c : ascii) : string :=
  let n := N_of_ascii c in
  if Ascii.eqb c quote then String backslash (String quote EmptyString)
  else if Ascii.eqb c backslash then String backslash (String backslash EmptyString)
  else if (n =? 8)%N then String backslash "b"
  else if (n =? 9)%N then String backslash "t"
  else if (n =? 10)%N then String backslash "n"
  else if (n =? 12)%N then String backslash "f"
  else if (n =? 13)%N then String backslash "r"
  else if (n <? 32)%N then
    String backslash ("u00" +:+ String (hex_digit (n / 16)) (String (hex_digit (n mod 16)) EmptyString))
  else String c EmptyString.

Fixpoint escape (s : string) : string :=
  match s with
  | EmptyString => EmptyString
  | String c rest => escape_char c +:+ escape rest
  end.

Definition quoted (s : string) : string :=
  String quote (escape s +:+ String quote EmptyString).

(** [JSON.stringify] without indentation, as [res.json] calls it. *)
Fixpoint stringify (v : value) : string :=
  match v with
  | JNum n => JS.decimal n
  | JStr s => quoted s
  | JObj fields =>
      let member kv := quoted (fst kv) +:+ ":" +:+ stringify (snd kv) in
      "{" +:+ String.concat "," (List.map member fields) +:+ "}"
  end.

(** *** The grammar [JSON.parse] accepts

    [express.json()] only needs to know whether [JSON.parse] throws, so the
    text is scanned, not converted.  A scanner returns the input that
    follows what it recognised, or [None] for a syntax error. *)

Definition is_ws (c : ascii) : bool :=
  let n := N_of_ascii c in
  (n =? 32)%N || (n =? 9)%N || (n =? 10)%N || (n =? 13)%N.

Fixpoint skip_ws (l : list ascii) : list ascii :=
  match l with
  | c :: rest => if is_ws c then skip_ws rest else l
  | [] => []
  end.

Definition is_digit (c : ascii) : bool :=
  let n := N_of_ascii c in (48 <=? n)%N && (n <=? 57)%N.

Definition is_hex (c : ascii) : bool :=
  let n := N_of_ascii c in
  is_digit c || ((65 <=? n)%N && (n <=? 70)%N) || ((97 <=? n)%N && (n <=? 102)%N).

Definition is_simple_escape (c : ascii) : bool :=
  existsb (Ascii.eqb c) [quote; backslash; "/"; "b"; "f"; "n"; "r"; "t"]%char.

(** The rest of a string literal, after its opening quote. *)
Fixpoint scan_string (l : list ascii) : option (list ascii) :=
  match l with
  | [] => None
  | c :: rest =>
      if Ascii.eqb c quote then Some rest
      else if Ascii.eqb c backslash then
        match rest with
        | e :: rest1 =>
            if is_simple_escape e then scan_string rest1
            else if Ascii.eqb e "u" then
              match rest1 with
              | h1 :: h2 :: h3 :: h4 :: rest2 =>
                  if is_hex h1 && is_hex h2 && is_hex h3 && is_hex h4
                  then scan_string rest2 else None
              | _ => None
              end
            else None
        | [] => None
        end
      else if (N_of_ascii c <? 32)%N then None
      else scan_string rest
  end.

Fixpoint skip_digits (l : list ascii) : list ascii :=
  match l with
  | c :: rest => if is_digit c then skip_digits rest else l
  | [] => []
  end.

(** One or more digits. *)
Definition scan_digits (l : list ascii) : option (list ascii) :=
  match l with
  | c :: rest => if is_digit c then Some (skip_digits rest) else None
  | [] => None
  end.

Definition scan_fraction (l : list ascii) : option (list ascii) :=
  match l with
  | c :: rest => if Ascii.eqb c "." then scan_digits rest else Some l
  | [] => Some l
  end.

Definition scan_exponent (l : list ascii) : option (list ascii) :=
  match l with
  | c :: rest =>
      if Ascii.eqb c "e" || Ascii.eqb c "E" then
        match rest with
        | s :: rest1 =>
            if Ascii.eqb s "+" || Ascii.eqb s "-" then scan_digits rest1
            else scan_digits rest
        | [] => None
        end
      else Some l
  | [] => Some l
  end.

(** A number: optional minus, an integer part without leading zeros, an
    optional fraction and an optional exponent. *)
Definition scan_number (l : list ascii) : option (list ascii) :=
  let unsigned :=
    match l with
    | c :: rest => if Ascii.eqb c "-" then rest else l
    | [] => l
    end in
  match unsigned with
  | c :: rest =>
      if Ascii.eqb c "0" then scan_fraction rest ≫= scan_exponent
      else if is_digit c then scan_fraction (skip_digits rest) ≫= scan_exponent
      else None
  | [] => None
  end.

Fixpoint scan_literal (word l : list ascii) : option (list ascii) :=
  match word, l with
  | [], _ => Some l
  | w :: word', c :: rest => if Ascii.eqb w c then scan_literal word' rest else None
  | _ :: _, [] => None
  end.

(** White space and then the character [c]. *)
Definition token (c : ascii) (l : list ascii) : option (list ascii) :=
  match skip_ws l with
  | c' :: rest => if Ascii.eqb c c' then Some rest else None
  | [] => None
  end.

Inductive production : Type :=
| Value       (* one JSON value *)
| Elements    (* the elements of a non-empty array and its closing bracket *)
| Members.    (* the members of a non-empty object and its closing brace *)

(** Recursive descent over the three productions.  Of two nested calls at
    least one consumes a character, so [2 * length l + 2] levels of
    recursion are enough for a text [l]. *)
Fixpoint scan (fuel : nat) (p : production) (l : list ascii) : option (list ascii) :=
  match fuel with
  | O => None
  | S fuel' =>
      match p with
      | Value =>
          match skip_ws l with
          | [] => None
          | c :: rest =>
              if Ascii.eqb c "{" then
                match token "}" rest with
                | Some rest1 => Some rest1
                | None => scan fuel' Members rest
                end
              else if Ascii.eqb c "[" then
                match token "]" rest with
                | Some rest1 => Some rest1
                | None => scan fuel' Elements rest
                end
              else if Ascii.eqb c quote then scan_string rest
              else if Ascii.eqb c "t" then scan_literal (list_ascii_of_string "rue") rest
              else if Ascii.eqb c "f" then scan_literal (list_ascii_of_string "alse") rest
              else if Ascii.eqb c "n" then scan_literal (list_ascii_of_string "ull") rest
              else scan_number (c :: rest)
          end
      | Elements =>
          match scan fuel' Value l with
          | Some rest =>
              match token "," rest with
              | Some rest1 => scan fuel' Elements rest1
              | None => token "]" rest
              end
          | None => None
          end
      | Members =>
          match token quote l with
          | Some rest =>
              match scan_string rest with
              | Some rest1 =>
                  match token ":" rest1 with
                  | Some rest2 =>
                      match scan fuel' Value rest2 with
                      | Some rest3 =>
                          match token "," rest3 with
                          | Some rest4 => scan fuel' Members rest4
                          | None => token "}" rest3
                          end
                      | None => None
                      end
                  | None => None
                  end
              | None => None
              end
          | None => None
          end
      end
  end.

(** The levels of recursion a production needs on a text. *)
Definition levels (p : production) (l : list ascii) : nat :=
  match p with
  | Elements => 2 * List.length l + 2
  | Value | Members => 2 * List.length l + 1
  end.

(** [JSON.parse text] returns (does not throw a [SyntaxError]). *)
Definition parses (text : string) : bool :=
  let l := list_ascii_of_string text in
  match scan (2 * List.length l + 2) Value l with
  | Some rest => match skip_ws rest with [] => true | _ :: _ => false end
  | None => false
  end.

End Json.

(** ** [Date]: time values and [toISOString] *)

Module Date.

(** A time value is a count of milliseconds since 1970-01-01T00:00:00Z;
    [new Date()] holds the system clock's reading.  ECMAScript limits time
    values to 100,000,000 days on either side of the epoch. *)
Definition msPerDay : Z := 86400000.
Definition maxTime : Z := 8640000000000000.

Definition Day (t : Z) : Z := t / msPerDay.
Definition TimeWithinDay (t : Z) : Z := t mod msPerDay.

Definition HourFromTime (t : Z) : Z := TimeWithinDay t / 3600000.
Definition MinFromTime (t : Z) : Z := (TimeWithinDay t / 60000) mod 60.
Definition SecFromTime (t : Z) : Z := (TimeWithinDay t / 1000) mod 60.
Definition msFromTime (t : Z) : Z := TimeWithinDay t mod 1000.

(** The proleptic Gregorian calendar repeats every 400 years, which are
    146097 days.  Days are counted from 0000-03-01 so that the leap day
    is the last day of a year of the cycle. *)
Definition daysPerCycle : Z := 146097.
Definition epochShift : Z := 719468.

(** The first and the last day of a year of the cycle; the years start
    in March, and the last year of the cycle ends with the cycle. *)
Definition year_start (yoe : Z) : Z := 365 * yoe + yoe / 4 - yoe / 100.

Definition year_end (yoe : Z) : Z :=
  if yoe =? 399 then daysPerCycle - 1 else year_start (yoe + 1) - 1.

(** The year of the cycle (0..399) that holds the [doe]-th day. *)
Definition year_of_cycle_day (doe : Z) : Z :=
  (doe - doe / 1460 + doe / 36524 - doe / 146096) / 365.

(** Month (1..12) and day of the month of the [doy]-th day of a year that
    starts in March, and back. *)
Definition month_day (doy : Z) : Z * Z :=
  let mp := (5 * doy + 2) / 153 in
  (if mp <? 10 then mp + 3 else mp - 9, doy - (153 * mp + 2) / 5 + 1).

Definition year_day (m d : Z) : Z :=
  let mp := if 2 <? m then m - 3 else m + 9 in
  (153 * mp + 2) / 5 + d - 1.

Definition civil_of_cycle_day (doe : Z) : Z * Z * Z :=
  let yoe := year_of_cycle_day doe in
  let '(m, d) := month_day (doe - year_start yoe) in
  (yoe, m, d).

Definition cycle_day_of_civil (yoe m d : Z) : Z :=
  year_start yoe + year_day m d.

(** [YearFromTime], [MonthFromTime] (here 1-based) and [DateFromTime] of
    a day number. *)
Definition civil_from_days (z : Z) : Z * Z * Z :=
  let z' := z + epochShift in
  let era := z' / daysPerCycle in
  let '(yoe, m, d) := civil_of_cycle_day (z' mod daysPerCycle) in
  (yoe + era * 400 + (if m <=? 2 then 1 else 0), m, d).

(** [MakeDay] for a year, a month (1..12) and a day of the month. *)
Definition days_from_civil (y m d : Z) : Z :=
  let y' := y - (if m <=? 2 then 1 else 0) in
  (y' / 400) * daysPerCycle + cycle_day_of_civil (y' mod 400) m d - epochShift.

Definition is_leap (y : Z) : bool :=
  ((y mod 4 =? 0) && negb (y mod 100 =? 0)) || (y mod 400 =? 0).

Definition days_in_month (y m : Z) : Z :=
  if m =? 2 then (if is_leap y then 29 else 28)
  else if (m =? 4) || (m =? 6) || (m =? 9) || (m =? 11) then 30
  else 31.

Definition in_range (lo hi x : Z) : bool := (lo <=? x) && (x <=? hi).

(** The check of one year of the cycle: the formula for the year is right
    on its first and on its last day, and the year has 365 days, or 366
    when the calendar year that ends in it is a leap year. *)
Definition year_ok (yoe : Z) : bool :=
  let lo := year_start yoe in
  let hi := year_end yoe in
  (year_of_cycle_day lo =? yoe) && (year_of_cycle_day hi =? yoe) &&
  in_range 364 365 (hi - lo) &&
  implb (hi - lo =? 365) (is_leap (yoe + 1)).

(** The check of one day of a year that starts in March: month and day
    are a date of the calendar and give the day of the year back; the
    366th day is the 29th of February. *)
Definition year_day_ok (doy : Z) : bool :=
  let '(m, d) := month_day doy in
  in_range 1 12 m && (1 <=? d) && (year_day m d =? doy) &&
  (if doy =? 365 then (m =? 2) && (d =? 29)
   else d <=? (if m =? 2 then 28 else days_in_month 0 m)).

(** [p] holds of the [n] integers from [i] on. *)
Fixpoint all_from (n : nat) (i : Z) (p : Z -> bool) : bool :=
  match n with
  | O => true
  | S k => if p i then all_from k (i + 1) p else false
  end.

Definition digit_char (d : Z) : ascii := ascii_of_N (48 + Z.to_N d).

(** The [width] low decimal digits of [n], most significant first. *)
Fixpoint pad (width : nat) (n : Z) : list ascii :=
  match width with
  | O => []
  | S w => pad w (n / 10) ++ [digit_char (n mod 10)]
  end.

(** The year of the ISO format: four digits for 0..9999, otherwise a sign
    and six digits. *)
Definition year_digits (y : Z) : list ascii :=
  if (0 <=? y) && (y <=? 9999) then pad 4 y
  else (if y <? 0 then "-"%char else "+"%char) :: pad 6 (Z.abs y).

(** [Date.prototype.toISOString] of a date whose time value is [t]:
    [YYYY-MM-DDTHH:mm:ss.sssZ], always in UTC. *)
Definition toISOString (t : Z) : string :=
  let '(y, m, d) := civil_from_days (Day t) in
  string_of_list_ascii
    (year_digits y ++ "-"%char :: pad 2 m ++ "-"%char :: pad 2 d ++ "T"%char ::
     pad 2 (HourFromTime t) ++ ":"%char :: pad 2 (MinFromTime t) ++ ":"%char ::
     pad 2 (SecFromTime t) ++ "."%char :: pad 3 (msFromTime t) ++ ["Z"%char]).

(** *** Reading the format back

    The ISO-8601 reader for the extended format with the UTC designator;
    a timestamp is a valid UTC date-time when the reader returns its
    instant. *)

Definition digit_value (c : ascii) : option Z :=
  let n := N_of_ascii c in
  if (48 <=? n)%N && (n <=? 57)%N then Some (Z.of_N n - 48) else None.

(** Exactly [width] digits, read as a number on top of [acc]. *)
Fixpoint read_digits (width : nat) (acc : Z) (l : list ascii) : option (Z * list ascii) :=
  match width with
  | O => Some (acc, l)
  | S w =>
      match l with
      | c :: rest =>
          match digit_value c with
          | Some d => read_digits w (10 * acc + d) rest
          | None => None
          end
      | [] => None
      end
  end.

Definition expect (c : ascii) (l : list ascii) : option (list ascii) :=
  match l with
  | c' :: rest => if Ascii.eqb c c' then Some rest else None
  | [] => None
  end.

Definition read_year (l : list ascii) : option (Z * list ascii) :=
  match l with
  | c :: rest =>
      if Ascii.eqb c "+" then read_digits 6 0 rest
      else if Ascii.eqb c "-" then
        '(y, rest') ← read_digits 6 0 rest;
        if y =? 0 then None else Some (- y, rest')
      else read_digits 4 0 l
  | [] => None
  end.

(** The instant a timestamp denotes, when it is well formed and each of
    its fields is in range. *)
Definition parseISO (s : string) : option Z :=
  '(y, l) ← read_year (list_ascii_of_string s);
  l ← expect "-" l;
  '(m, l) ← read_digits 2 0 l;
  l ← expect "-" l;
  '(d, l) ← read_digits 2 0 l;
  l ← expect "T" l;
  '(hh, l) ← read_digits 2 0 l;
  l ← expect ":" l;
  '(mm, l) ← read_digits 2 0 l;
  l ← expect ":" l;
  '(ss, l) ← read_digits 2 0 l;
  l ← expect "." l;
  '(ms, l) ← read_digits 3 0 l;
  l ← expect "Z" l;
  match l with
  | [] =>
      if in_range 1 12 m && in_range 1 (days_in_month y m) d &&
         in_range 0 23 hh && in_range 0 59 mm && in_range 0 59 ss &&
         in_range 0 999 ms
      then Some (days_from_civil y m d * msPerDay
                 + hh * 3600000 + mm * 60000 + ss * 1000 + ms)
      else None
  | _ :: _ => None
  end.

End Date.

(** ** Entity tags: SHA-1, Base64 and the [etag] package *)

Module Etag.

(** A 32-bit word, and its rotation to the left. *)
Definition word (x : Z) : Z := Z.land x 4294967295.

Definition rotl (n x : Z) : Z :=
  word (Z.lor (Z.shiftl x n) (Z.shiftr x (32 - n))).

Definition octets (s : string) : list Z :=
  List.map (fun c => Z.of_N (N_of_ascii c)) (list_ascii_of_string s).

(** The [count] low bytes of a number, most significant first. *)
Definition big_endian (count : nat) (x : Z) : list Z :=
  List.map (fun i => Z.land (Z.shiftr x (8 * Z.of_nat i)) 255) (rev (seq 0 count)).

(** The message, the bit 1, zeros up to 56 modulo 64 and the length of the
    message in bits. *)
Definition pad (msg : list Z) : list Z :=
  let len := Z.of_nat (List.length msg) in
  (msg ++ [128] ++ List.repeat 0 (Z.to_nat ((55 - len) mod 64)) ++ big_endian 8 (8 * len))%list.

Fixpoint words (l : list Z) : list Z :=
  match l with
  | a :: b :: c :: d :: rest => (((a * 256 + b) * 256 + c) * 256 + d) :: words rest
  | _ => []
  end.

(** The message schedule, latest word first. *)
Fixpoint extend (n : nat) (w : list Z) : list Z :=
  match n with
  | O => w
  | S n' =>
      extend n'
        (rotl 1 (Z.lxor (Z.lxor (nth 2 w 0) (nth 7 w 0)) (Z.lxor (nth 13 w 0) (nth 15 w 0)))
         :: w)
  end.

Definition schedule (block : list Z) : list Z := rev (extend 64 (rev block)).

Definition f (t : nat) (b c d : Z) : Z :=
  if (t <? 20)%nat then Z.lor (Z.land b c) (Z.land (Z.lxor b 4294967295) d)
  else if (t <? 40)%nat then Z.lxor (Z.lxor b c) d
  else if (t <? 60)%nat then Z.lor (Z.lor (Z.land b c) (Z.land b d)) (Z.land c d)
  else Z.lxor (Z.lxor b c) d.

Definition k (t : nat) : Z :=
  if (t <? 20)%nat then 1518500249
  else if (t <? 40)%nat then 1859775393
  else if (t <? 60)%nat then 2400959708
  else 3395469782.

Definition State : Type := Z * Z * Z * Z * Z.

Fixpoint rounds (t : nat) (w : list Z) (s : State) : State :=
  match w with
  | [] => s
  | wt :: rest =>
      let '(a, b, c, d, e) := s in
      rounds (S t) rest (word (rotl 5 a + f t b c d + e + k t + wt), a, rotl 30 b, c, d)
  end.

Definition compress (h : State) (block : list Z) : State :=
  let '(a, b, c, d, e) := rounds 0 (schedule block) h in
  let '(h0, h1, h2, h3, h4) := h in
  (word (h0 + a), word (h1 + b), word (h2 + c), word (h3 + d), word (h4 + e)).

Fixpoint blocks (count : nat) (ws : list Z) (h : State) : State :=
  match count with
  | O => h
  | S n => blocks n (skipn 16 ws) (compress h (firstn 16 ws))
  end.

Definition initial : State := (1732584193, 4023233417, 2562383102, 271733878, 3285377520).

(** The SHA-1 digest of a message, twenty bytes. *)
Definition sha1 (msg : list Z) : list Z :=
  let ws := words (pad msg) in
  let '(h0, h1, h2, h3, h4) := blocks (List.length ws / 16) ws initial in
  List.flat_map (big_endian 4) [h0; h1; h2; h3; h4].

Definition alphabet : list ascii :=
  list_ascii_of_string "ABCDEFGHIJKLMNOPQRSTUVWXYZabcdefghijklmnopqrstuvwxyz0123456789+/".

Definition sextet (n : Z) : ascii := nth (Z.to_nat (Z.land n 63)) alphabet "="%char.

(** Base64 with padding, as [digest('base64')] writes it. *)
Fixpoint base64 (l : list Z) : list ascii :=
  match l with
  | a :: b :: c :: rest =>
      let n := (a * 256 + b) * 256 + c in
      sextet (Z.shiftr n 18) :: sextet (Z.shiftr n 12) :: sextet (Z.shiftr n 6) :: sextet n
        :: base64 rest
  | [a; b] =>
      let n := (a * 256 + b) * 256 in
      [sextet (Z.shiftr n 18); sextet (Z.shiftr n 12); sextet (Z.shiftr n 6); "="%char]
  | [a] =>
      let n := a * 65536 in
      [sextet (Z.shiftr n 18); sextet (Z.shiftr n 12); "="%char; "="%char]
  | [] => []
  end.

Definition hex_digit (n : Z) : ascii :=
  if n <? 10 then ascii_of_N (Z.to_N (48 + n)) else ascii_of_N (Z.to_N (87 + n)).

(** [n.toString(16)] for a natural number. *)
Fixpoint hex_digits (fuel : nat) (n : Z) (acc : list ascii) : list ascii :=
  match fuel with
  | O => acc
  | S fuel' =>
      let acc' := hex_digit (n mod 16) :: acc in
      if n / 16 =? 0 then acc' else hex_digits fuel' (n / 16) acc'
  end.

Definition hex (n : Z) : string := string_of_list_ascii (hex_digits (Z.to_nat n + 1) n []).

Definition dq : string := String "034" EmptyString.

(** [entitytag] of the [etag] package: the length in hexadecimal and the
    first 27 characters of the Base64 form of the SHA-1 digest. *)
Definition entitytag (entity : string) : string :=
  match entity with
  | EmptyString => dq +:+ "0-2jmj7l5rSw0yVb/vlWAYkK/YBwk" +:+ dq
  | String _ _ =>
      let hash := string_of_list_ascii (firstn 27 (base64 (sha1 (octets entity)))) in
      dq +:+ hex (Z.of_nat (String.length entity)) +:+ "-" +:+ hash +:+ dq
  end.

(** The generator behind the default [etag] setting, [weak]. *)
Definition wetag (body : string) : string := "W/" +:+ entitytag body.

End Etag.

(** ** Express: requests, responses and the layer stack *)

Module Express.

(** The request methods Node's HTTP parser hands to an application
    (CONNECT never reaches it; the WebDAV verbs behave like POST here). *)
Inductive Method : Type :=
| GET | HEAD | POST | PUT | DELETE | PATCH | OPTIONS | TRACE.

Definition Method_eqb (a b : Method) : bool :=
  match a, b with
  | GET, GET | HEAD, HEAD | POST, POST | PUT, PUT | DELETE, DELETE
  | PATCH, PATCH | OPTIONS, OPTIONS | TRACE, TRACE => true
  | _, _ => false
  end.

(** What [zlib] makes of a body that carries a content coding: the bytes
    of the inflated stream, or a failure after some bytes. *)
Inductive Inflated : Type :=
| inflated (bytes : string)
| inflate_failed (received : Z).

(** An incoming message, as Node hands it to the application: the method,
    the path and the query of the URL, the header fields that Express and
    the body parser read (a field that is absent is [None]), and the bytes
    of the message body ([None] when the message announces no body, that
    is, carries neither [Content-Length] nor [Transfer-Encoding]);
    [chunked] tells that the body comes with [Transfer-Encoding], so that
    its length is not known before it is read.

    Two libraries that the body parser calls are not modelled, and what
    they make of this message is given with it: [unzipped] is what the
    [zlib] stream yields for the body, read only when [Content-Encoding]
    is [gzip] or [deflate]; [transcoded] is the text that the decoder of
    [iconv-lite] yields, read only when the charset is of the UTF-16 or
    UTF-7 family.  Theorems hold for whatever these two are. *)
Record Request : Type := mkRequest {
  method : Method;
  path : string;
  query : option string;
  content_type : option string;
  content_encoding : option string;
  if_none_match : option string;
  if_modified_since : option string;
  cache_control : option string;
  body : option string;
  chunked : bool;
  unzipped : Inflated;
  transcoded : string
}.

(** The two readings a handler can take of the runtime's clocks:
    [process.uptime()], the seconds since the process started (a finite
    double, taken as the rational number it denotes), and the time value
    of [new Date()], the system clock in milliseconds. *)
Record Clock : Type := mkClock {
  uptime : Q;
  now : Z
}.

(** Errors raised by the body parser: the first four are named by their
    [type] property, the last is an error of the [zlib] stream. *)
Inductive BodyError : Type :=
| entity_too_large
| entity_parse_failed
| charset_unsupported
| encoding_unsupported
| stream_failed.

Definition error_status (e : BodyError) : Z :=
  match e with
  | entity_too_large => 413
  | entity_parse_failed | stream_failed => 400
  | charset_unsupported | encoding_unsupported => 415
  end.

Definition status_message (code : Z) : string :=
  if code =? 400 then "Bad Request"
  else if code =? 413 then "Payload Too Large"
  else if code =? 415 then "Unsupported Media Type"
  else if code =? 404 then "Not Found"
  else "OK".

(** The text of the default error page and of the error log: the error's
    stack trace, or in production the status message only. *)
Inductive ErrorText : Type :=
| ErrorStack (e : BodyError)
| StatusMessage (msg : string).

Inductive Content : Type :=
| JsonText (obj : Json.value)               (* [res.json(obj)] *)
| AllowList (methods : list string)         (* automatic OPTIONS reply *)
| CannotPage (m : Method) (url : string)    (* default not-found page *)
| ErrorPage (text : ErrorText)              (* default error page *)
| NoContent.                                (* no body: HEAD, 304 *)

(** A response: the status, the [Content-Type], [Allow] and [ETag] header
    fields (a field that is absent is [None]) and the content. *)
Record Response : Type := mkResponse {
  status : Z;
  media_type : option string;
  allow : option string;
  etag : option string;
  content : Content
}.

Definition json_type : string := "application/json; charset=utf-8".
Definition html_type : string := "text/html; charset=utf-8".

(** The bytes of the response body. *)
Definition wire_body (r : Response) : option string :=
  match content r with
  | JsonText obj => Some (Json.stringify obj)
  | AllowList methods => Some (String.concat "," methods)
  | CannotPage _ _ | ErrorPage _ => None   (* an HTML page, not spelled out *)
  | NoContent => Some EmptyString
  end.

(** *** Header fields: media types and their parameters *)

Definition lower_char (c : ascii) : ascii :=
  let n := N_of_ascii c in
  if (65 <=? n)%N && (n <=? 90)%N then ascii_of_N (n + 32) else c.

Fixpoint to_lower (s : string) : string :=
  match s with
  | EmptyString => EmptyString
  | String c rest => String (lower_char c) (to_lower rest)
  end.

Definition chars (s : string) : list ascii := list_ascii_of_string s.
Definition text (l : list ascii) : string := string_of_list_ascii l.

Definition one_of (set : string) (c : ascii) : bool :=
  existsb (Ascii.eqb c) (chars set).

Definition between (lo hi : N) (c : ascii) : bool :=
  let n := N_of_ascii c in (lo <=? n)%N && (n <=? hi)%N.

Definition is_alnum (c : ascii) : bool :=
  between 48 57 c || between 65 90 c || between 97 122 c.

(** The longest prefix of characters of a class, and what follows it. *)
Fixpoint span (p : ascii -> bool) (l : list ascii) : list ascii * list ascii :=
  match l with
  | c :: rest =>
      if p c then let '(taken, others) := span p rest in (c :: taken, others)
      else ([], l)
  | [] => ([], [])
  end.

Definition is_space (c : ascii) : bool := Ascii.eqb c " ".

Definition drop_spaces (l : list ascii) : list ascii := snd (span is_space l).

(** White space of JavaScript ([String.prototype.trim], [\s]) among the
    characters of a header field, which are Latin-1. *)
Definition is_js_space (c : ascii) : bool :=
  between 9 13 c || Ascii.eqb c " " || (N_of_ascii c =? 160)%N.

Definition trim (l : list ascii) : list ascii :=
  rev (snd (span is_js_space (rev (snd (span is_js_space l))))).

(** The character classes of the names of [media-typer] and of the tokens
    of a parameter. *)
Definition type_name_char (c : ascii) : bool := is_alnum c || one_of "!#$&^_-" c.
Definition subtype_char (c : ascii) : bool := is_alnum c || one_of "!#$&^_.+-" c.
Definition subtype_name_char (c : ascii) : bool := is_alnum c || one_of "!#$&^_.-" c.
Definition token_char (c : ascii) : bool := is_alnum c || one_of "!#$%&'*+-.^_`|~" c.

(** A name: a letter or digit and at most 126 further characters of the
    class. *)
Definition scan_name (p : ascii -> bool) (l : list ascii)
    : option (list ascii * list ascii) :=
  match l with
  | c :: rest =>
      if is_alnum c then
        let '(more, others) := span p rest in
        if (List.length more <=? 126)%nat then Some (c :: more, others) else None
      else None
  | [] => None
  end.

Definition is_name (p : ascii -> bool) (l : list ascii) : bool :=
  match scan_name p l with
  | Some (_, []) => true
  | _ => false
  end.

(** The characters a quoted parameter value may hold, plain and after a
    backslash; the two parsers of the body parser differ in them. *)
Record Quoting : Type := mkQuoting {
  plain_char : ascii -> bool;
  escaped_char : ascii -> bool
}.

(** [paramRegExp] of [media-typer]. *)
Definition typer_quoting : Quoting :=
  {| plain_char c := one_of " !" c || between 35 91 c || between 93 126 c || between 128 255 c;
     escaped_char c := between 32 126 c |}.

(** [PARAM_REGEXP] of [content-type]. *)
Definition content_type_quoting : Quoting :=
  {| plain_char c :=
       (N_of_ascii c =? 11)%N || one_of " !" c || between 35 91 c || between 93 126 c
       || between 128 255 c;
     escaped_char c := (N_of_ascii c =? 11)%N || between 32 255 c |}.

(** The rest of a quoted value, after its opening quote: the characters up
    to the closing quote with their backslashes, and what follows. *)
Fixpoint scan_quoted (q : Quoting) (l : list ascii) : option (list ascii * list ascii) :=
  match l with
  | [] => None
  | c :: rest =>
      if Ascii.eqb c Json.quote then Some ([], rest)
      else if Ascii.eqb c Json.backslash then
        match rest with
        | e :: rest1 =>
            if escaped_char q e then
              match scan_quoted q rest1 with
              | Some (raw, others) => Some (c :: e :: raw, others)
              | None => None
              end
            else None
        | [] => None
        end
      else if plain_char q c then
        match scan_quoted q rest with
        | Some (raw, others) => Some (c :: raw, others)
        | None => None
        end
      else None
  end.

(** A quoted value without its backslashes. *)
Fixpoint unescape (l : list ascii) : list ascii :=
  match l with
  | c :: rest =>
      if Ascii.eqb c Json.backslash then
        match rest with
        | e :: rest1 => e :: unescape rest1
        | [] => [c]
        end
      else c :: unescape rest
  | [] => []
  end.

(** One parameter at the head of the text: a semicolon, a token, the
    equals sign and a token or a quoted value, with spaces between them
    and after it.  The name is put in lower case, the value is as written
    (quoted values without their quotes and backslashes). *)
Definition scan_parameter (q : Quoting) (l : list ascii)
    : option (string * string * list ascii) :=
  match l with
  | c :: rest =>
      if Ascii.eqb c ";" then
        let '(name, rest1) := span token_char (drop_spaces rest) in
        match name, drop_spaces rest1 with
        | _ :: _, e :: rest2 =>
            if Ascii.eqb e "=" then
              match drop_spaces rest2 with
              | v :: rest3 =>
                  if Ascii.eqb v Json.quote then
                    match scan_quoted q rest3 with
                    | Some (raw, others) =>
                        Some (to_lower (text name), text (unescape raw), drop_spaces others)
                    | None => None
                    end
                  else
                    let '(value, others) := span token_char (v :: rest3) in
                    match value with
                    | _ :: _ => Some (to_lower (text name), text value, drop_spaces others)
                    | [] => None
                    end
              | [] => None
              end
            else None
        | _, _ => None
        end
      else None
  | [] => None
  end.

(** The parameters of a header field, from its first semicolon to its
    end; [None] for an invalid parameter format.  Every parameter takes
    at least one character, so the length of the text bounds their
    number. *)
Fixpoint scan_parameters (fuel : nat) (q : Quoting) (l : list ascii)
    : option (list (string * string)) :=
  match l with
  | [] => Some []
  | _ :: _ =>
      match fuel with
      | O => None
      | S fuel' =>
          match scan_parameter q l with
          | Some (name, value, others) =>
              match scan_parameters fuel' q others with
              | Some more => Some ((name, value) :: more)
              | None => None
              end
          | None => None
          end
      end
  end.

Definition parameters (q : Quoting) (l : list ascii) : option (list (string * string)) :=
  scan_parameters (List.length l) q l.

Definition not_semicolon (c : ascii) : bool := negb (Ascii.eqb c ";").

(** *** [media-typer] and [type-is] *)

Record MediaType : Type := mkMediaType {
  type : list ascii;
  subtype : list ascii;
  suffix : option (list ascii)
}.

(** The subtype up to its last [+], and the suffix after it. *)
Definition split_suffix (l : list ascii) : list ascii * option (list ascii) :=
  let '(tail, before) := span (fun c => negb (Ascii.eqb c "+")) (rev l) in
  match before with
  | _ :: sub => (rev sub, Some (rev tail))
  | [] => (l, None)
  end.

(** [splitType]: spaces, a type name, a slash, a subtype and spaces. *)
Definition splitType (l : list ascii) : option MediaType :=
  match scan_name type_name_char (drop_spaces (chars (to_lower (text l)))) with
  | Some (t, c :: rest) =>
      if Ascii.eqb c "/" then
        match scan_name subtype_char rest with
        | Some (sub, others) =>
            match drop_spaces others with
            | [] =>
                let '(s, suf) := split_suffix sub in
                Some {| type := t; subtype := s; suffix := suf |}
            | _ :: _ => None
            end
        | None => None
        end
      else None
  | _ => None
  end.

(** [typer.parse]: the media type of a header field whose parameters are
    well formed. *)
Definition typer_parse (header : string) : option MediaType :=
  let '(t, rest) := span not_semicolon (chars header) in
  match splitType t, parameters typer_quoting rest with
  | Some m, Some _ => Some m
  | _, _ => None
  end.

(** [typer.format] of a media type without parameters. *)
Definition typer_format (m : MediaType) : option string :=
  if is_name type_name_char (type m) && is_name subtype_name_char (subtype m) then
    match suffix m with
    | Some (c :: s) =>
        if is_name type_name_char (c :: s)
        then Some (text (type m ++ "/"%char :: subtype m ++ "+"%char :: c :: s))
        else None
    | _ => Some (text (type m ++ "/"%char :: subtype m))
    end
  else None.

(** [typeis(req, type)] for a literal media type: the header field is
    there, not empty, valid, and normalises to the type. *)
Definition typeis (value : option string) (expected : string) : bool :=
  match value with
  | Some (String c s) =>
      match typer_parse (String c s) ≫= typer_format with
      | Some actual => String.eqb expected actual
      | None => false
      end
  | _ => false
  end.

(** *** [content-type] and the charset *)

(** [TYPE_REGEXP]: a token, a slash, a token. *)
Definition is_type (l : list ascii) : bool :=
  let '(t, rest) := span token_char l in
  match t, rest with
  | _ :: _, c :: sub =>
      Ascii.eqb c "/" &&
      match span token_char sub with
      | (_ :: _, []) => true
      | _ => false
      end
  | _, _ => false
  end.

(** [contentType.parse]: the parameters of a valid header field. *)
Definition contentType_parse (header : string) : option (list (string * string)) :=
  let '(t, rest) := span not_semicolon (chars header) in
  if is_type (trim t) then parameters content_type_quoting rest else None.

(** [obj.parameters[name]] after the assignments of the parser: the last
    parameter of the name. *)
Definition parameter (name : string) (params : list (string * string)) : option string :=
  snd <$> List.find (fun kv => String.eqb (fst kv) name) (rev params).

(** [getCharset(req)]. *)
Definition getCharset (value : option string) : option string :=
  match value with
  | Some (String c s) =>
      match contentType_parse (String c s) with
      | Some params =>
          match parameter "charset" params with
          | Some v => Some (to_lower v)
          | None => Some EmptyString
          end
      | None => None
      end
  | _ => None
  end.

(** *** [iconv-lite]: the names of the encodings *)

Definition is_digit (c : ascii) : bool := between 48 57 c.

(** The name without a year appended to it ([:2000]). *)
Definition strip_year (l : list ascii) : list ascii :=
  match rev l with
  | d4 :: d3 :: d2 :: d1 :: c :: front =>
      if is_digit d4 && is_digit d3 && is_digit d2 && is_digit d1 && Ascii.eqb c ":"
      then rev front else l
  | _ => l
  end.

(** [_canonicalizeEncoding]: lower case, the year and every character
    that is not a letter or a digit removed. *)
Definition canonical (name : string) : string :=
  text (List.filter (fun c => between 48 57 c || between 97 122 c)
          (strip_year (chars (to_lower name)))).

Inductive Decoder : Type :=
| utf8          (* Node's own decoder, with the byte order mark removed *)
| other.        (* a decoder of the UTF-16 or UTF-7 family *)

(** The decoder for a charset that begins with [utf-]. *)
Definition getDecoder (charset : string) : option Decoder :=
  let name := canonical charset in
  if String.eqb name "utf8" then Some utf8
  else if existsb (String.eqb name) ["utf16le"; "utf16be"; "utf16"; "utf7"; "utf7imap"]
  then Some other
  else None.

(** The byte order mark of UTF-8, which the decoder removes from the
    start of the text. *)
Definition strip_bom (bytes : string) : string :=
  match bytes with
  | String "239" (String "187" (String "191" rest)) => rest
  | _ => bytes
  end.

(** *** [express.json()] *)

(** The default [limit] of the parser, 100kb. *)
Definition limit : Z := 102400.

(** The parser's [strict] check: the first character that is not white
    space opens an object or an array. *)
Definition strict_first (text : string) : bool :=
  match Json.skip_ws (list_ascii_of_string text) with
  | c :: _ => Ascii.eqb c "{" || Ascii.eqb c "["
  | [] => false
  end.

Inductive Next : Type :=
| next                      (* [next()] *)
| next_err (e : BodyError).  (* [next(err)] *)

(** [parse(body)]: an empty text stands for the empty object. *)
Definition parse (body : string) : Next :=
  match body with
  | EmptyString => next
  | String _ _ =>
      if negb (strict_first body) then next_err entity_parse_failed
      else if Json.parses body then next
      else next_err entity_parse_failed
  end.

(** The text a decoder makes of the bytes of a body. *)
Definition decode (req : Request) (d : Decoder) (bytes : string) : string :=
  match d with
  | utf8 => strip_bom bytes
  | other => transcoded req
  end.

Definition too_large (length : Z) : bool := limit <? length.

(** The content coding of the body: [Content-Encoding] in lower case, or
    [identity]. *)
Definition content_coding (req : Request) : string :=
  match content_encoding req with
  | Some (String c s) => to_lower (String c s)
  | _ => "identity"
  end.

(** [read]: the content coding, the announced length, the decoder, the
    stream with the length received, and the parser, in the order in which
    they can fail. *)
Definition read (req : Request) (charset : string) : Next :=
  match body req with
  | None => next
  | Some bytes =>
      let encoding := content_coding req in
      if String.eqb encoding "identity" then
        if negb (chunked req) && too_large (Z.of_nat (String.length bytes))
        then next_err entity_too_large
        else
          match getDecoder charset with
          | None => next_err charset_unsupported
          | Some d =>
              if too_large (Z.of_nat (String.length bytes)) then next_err entity_too_large
              else parse (decode req d bytes)
          end
      else if String.eqb encoding "gzip" || String.eqb encoding "deflate" then
        match getDecoder charset with
        | None => next_err charset_unsupported
        | Some d =>
            match unzipped req with
            | inflated out =>
                if too_large (Z.of_nat (String.length out)) then next_err entity_too_large
                else parse (decode req d out)
            | inflate_failed received =>
                if too_large received then next_err entity_too_large
                else next_err stream_failed
            end
        end
      else next_err encoding_unsupported
  end.

(** [getCharset(req) || 'utf-8']. *)
Definition charset (req : Request) : string :=
  match getCharset (content_type req) with
  | Some (String c s) => String c s
  | _ => "utf-8"
  end.

Definition starts_with_utf (name : string) : bool :=
  String.eqb (String.substring 0 4 name) "utf-".

(** The middleware [express.json()] returns.  It skips a request without
    a body or with another media type, refuses a charset that is not of
    the UTF family, and otherwise reads the whole body and parses it; the
    request is passed on only when that succeeds. *)
Definition json (req : Request) : Next :=
  match body req with
  | None => next
  | Some _ =>
      if negb (typeis (content_type req) "application/json") then next
      else if negb (starts_with_utf (charset req)) then next_err charset_unsupported
      else read req (charset req)
  end.

(** *** Conditional requests: the [fresh] package *)

(** A header field that is present and not empty. *)
Definition truthy (value : option string) : bool :=
  match value with
  | Some (String _ _) => true
  | _ => false
  end.

Fixpoint split_on (sep : ascii) (l : list ascii) : list (list ascii) :=
  match l with
  | [] => [[]]
  | c :: rest =>
      if Ascii.eqb c sep then [] :: split_on sep rest
      else
        match split_on sep rest with
        | first :: more => (c :: first) :: more
        | [] => [[c]]
        end
  end.

(** [Cache-Control] has the directive [no-cache]: one of its elements is
    [no-cache] between white space. *)
Definition no_cache (value : string) : bool :=
  existsb (fun element => String.eqb (text (trim element)) "no-cache")
    (split_on "," (chars value)).

(** [parseTokenList]: the elements between commas, without the spaces
    before them and after them.  [token] holds the element read so far,
    up to its last character that is not a space; [held] the spaces read
    since; both latest first. *)
Fixpoint token_list (l token held : list ascii) : list string :=
  match l with
  | [] => [text (rev token)]
  | c :: rest =>
      if Ascii.eqb c " " then
        match token with
        | [] => token_list rest [] []
        | _ :: _ => token_list rest token (c :: held)
        end
      else if Ascii.eqb c "," then text (rev token) :: token_list rest [] []
      else token_list rest (c :: held ++ token) []
  end.

Definition parseTokenList (value : string) : list string :=
  token_list (chars value) [] [].

(** One element of [If-None-Match] names the entity tag, weakly. *)
Definition tag_matches (etag element : string) : bool :=
  String.eqb element etag || String.eqb element ("W/" +:+ etag)
  || String.eqb ("W/" +:+ element) etag.

(** [fresh(reqHeaders, resHeaders)] for a response that has an entity tag
    and no [Last-Modified] field, as every response of [res.send] here. *)
Definition fresh (req : Request) (etag : string) : bool :=
  if negb (truthy (if_modified_since req)) && negb (truthy (if_none_match req)) then false
  else if match cache_control req with
          | Some value => no_cache value
          | None => false
          end then false
  else if match if_none_match req with
          | Some (String c s) =>
              negb (String.eqb (String c s) "*")
              && negb (existsb (tag_matches etag) (parseTokenList (String c s)))
          | _ => false
          end then false
  else negb (truthy (if_modified_since req)).

(** *** The router *)

(** A handler of [index.js] answers with one call of [res.json]; it is
    given by the object it passes. *)
Definition Handler : Type := Request -> Clock -> Json.value.

Inductive Layer : Type :=
| use_json                                  (* [app.use(express.json())] *)
| get_route (route : string) (h : Handler).  (* [app.get(route, h)] *)

(** An application: the [env] setting and the stack of layers in the
    order of registration. *)
Record Application : Type := mkApplication {
  env_setting : JS.value;
  stack : list Layer
}.

(** [express()]: an empty stack; the [env] setting is taken from
    [NODE_ENV] when the application is created. *)
Definition express (env : JS.environment) : Application :=
  {| env_setting := JS.or (JS.env_get env "NODE_ENV") (JS.Str "development");
     stack := [] |}.

Definition app_use (app : Application) : Application :=
  {| env_setting := env_setting app; stack := stack app ++ [use_json] |}.

Definition app_get (route : string) (h : Handler) (app : Application) : Application :=
  {| env_setting := env_setting app; stack := stack app ++ [get_route route h] |}.

Definition ends_with_slash (s : string) : bool :=
  match rev (list_ascii_of_string s) with
  | c :: _ => Ascii.eqb c "/"
  | [] => false
  end.

(** A route registered with a literal path matches the request path
    without regard to case and with or without one trailing slash (the
    defaults: routing is neither case sensitive nor strict). *)
Definition match_path (route p : string) : bool :=
  let r := to_lower route in
  let p := to_lower p in
  if ends_with_slash r
  then String.eqb p r || String.eqb (p +:+ "/") r
  else String.eqb p r || String.eqb p (r +:+ "/").

(** A route that has a GET handler and no HEAD handler also serves HEAD. *)
Definition handles_method (m : Method) : bool :=
  match m with
  | GET | HEAD => true
  | _ => false
  end.

Definition route_options : list string := ["GET"; "HEAD"].

Fixpoint appendMethods (acc addition : list string) : list string :=
  match addition with
  | [] => acc
  | m :: rest =>
      appendMethods (if existsb (String.eqb m) acc then acc else acc ++ [m]) rest
  end.

(** [req.fresh] for a response with status 200: only GET and HEAD
    requests are validated. *)
Definition req_fresh (req : Request) (etag : string) : bool :=
  handles_method (method req) && fresh req etag.

(** [res.send(body)] with status 200 and a media type: the weak entity
    tag of the body is set, and a request that it validates is answered
    304 without a body and without a media type; HEAD gets no body. *)
Definition res_send (req : Request) (media : string) (body : string) (c : Content)
    : Response :=
  let tag := Etag.wetag body in
  if req_fresh req tag then
    {| status := 304; media_type := None; allow := None; etag := Some tag;
       content := NoContent |}
  else
    {| status := 200; media_type := Some media; allow := None; etag := Some tag;
       content := if Method_eqb (method req) HEAD then NoContent else c |}.

(** [res.json(obj)]. *)
Definition res_json (req : Request) (obj : Json.value) : Response :=
  res_send req json_type (Json.stringify obj) (JsonText obj).

(** The reply Express gives to OPTIONS on a path that has routes: the
    methods in [Allow] and, through [res.send], as the body. *)
Definition send_options (methods : list string) : Response :=
  {| status := 200; media_type := Some html_type;
     allow := Some (String.concat "," methods);
     etag := Some (Etag.wetag (String.concat "," methods));
     content := AllowList methods |}.

(** The final handler when no layer answered. *)
Definition not_found (req : Request) : Response :=
  {| status := 404; media_type := Some html_type; allow := None; etag := None;
     content := if Method_eqb (method req) HEAD then NoContent
                else CannotPage (method req) (path req) |}.

(** [env === 'production'] and [env !== 'test']. *)
Definition is_production (env : JS.value) : bool :=
  match env with
  | JS.Str s => String.eqb s "production"
  | _ => false
  end.

Definition is_test (env : JS.value) : bool :=
  match env with
  | JS.Str s => String.eqb s "test"
  | _ => false
  end.

(** The final handler for an error: the error's status, and a page that
    shows the stack trace unless the [env] setting is [production]. *)
Definition final_error (env : JS.value) (req : Request) (e : BodyError) : Response :=
  {| status := error_status e; media_type := Some html_type; allow := None; etag := None;
     content :=
       if Method_eqb (method req) HEAD then NoContent
       else if is_production env
            then ErrorPage (StatusMessage (status_message (error_status e)))
            else ErrorPage (ErrorStack e) |}.

(** [logerror]: the application writes the stack trace of an error that
    reaches the final handler to the standard error stream, unless the
    [env] setting is [test]. *)
Definition logerror (env : JS.value) (e : BodyError) : list ErrorText :=
  if is_test env then [] else [ErrorStack e].

(** How the router leaves the stack: a layer has sent the response, or
    the router calls [done], with the error of a layer if there is one
    and with the methods collected for an OPTIONS request. *)
Inductive Reply : Type :=
| sent (r : Response)
| done (err : option BodyError) (options : list string).

(** The router's walk down the stack.  [options] collects the methods of
    the routes that match the path of an OPTIONS request.  A route is not
    entered once a layer has raised an error, and no layer here handles
    errors. *)
Fixpoint walk (layers : list Layer) (options : list string)
    (req : Request) (clk : Clock) : Reply :=
  match layers with
  | [] => done None options
  | use_json :: rest =>
      match json req with
      | next => walk rest options req clk
      | next_err e => done (Some e) options
      end
  | get_route route h :: rest =>
      if match_path route (path req) then
        if handles_method (method req) then sent (res_json req (h req clk))
        else walk rest
               (if Method_eqb (method req) OPTIONS
                then appendMethods options route_options else options)
               req clk
      else walk rest options req clk
  end.

(** [done]: the automatic reply to OPTIONS when there are methods to list
    and no error, the final handler otherwise. *)
Definition finish (env : JS.value) (req : Request) (reply : Reply) : Response :=
  match reply with
  | sent r => r
  | done (Some e) _ => final_error env req e
  | done None options =>
      match method req, options with
      | OPTIONS, _ :: _ => send_options options
      | _, _ => not_found req
      end
  end.

(** [app(req, res)]: the response to one request. *)
Definition handle (app : Application) (req : Request) (clk : Clock) : Response :=
  finish (env_setting app) req (walk (stack app) [] req clk).

(** What handling one request writes to the standard error stream. *)
Definition stderr (app : Application) (req : Request) (clk : Clock) : list ErrorText :=
  match walk (stack app) [] req clk with
  | done (Some e) _ => logerror (env_setting app) e
  | _ => []
  end.

(** The paths of the routes of a stack, in order. *)
Definition route_paths (layers : list Layer) : list string :=
  List.flat_map (fun l => match l with get_route route _ => [route] | use_json => [] end) layers.

End Express.
(** ** Node: the process around the application *)

Module Math.

(** [Math.floor] of a finite number. *)
Definition floor (x : Q) : Z := Qfloor x.

End Math.

Module Node.

(** What the operating system answers when the server asks for its
    listening socket: success, or an error code such as [EADDRINUSE] or
    [EACCES]. *)
Inductive ListenResult : Type :=
| bound
| refused (code : string).

(** What the process does that an operator can observe. *)
Inductive Effect : Type :=
| Listen (port : JS.value)
| ConsoleLog (line : string)
| Uncaught (code : string)
| Exit (code : Z).

(** An event listener, given by the effects of running it. *)
Definition Listener : Type := string * list Effect.

(** [emitter.emit(event)]: the listeners of the event run in order.  An
    [error] event without a listener is thrown instead ([None]). *)
Definition emit (listeners : list Listener) (event : string) : option (list Effect) :=
  match List.filter (fun l => String.eqb (fst l) event) listeners with
  | [] => if String.eqb event "error" then None else Some []
  | ls => Some (List.concat (List.map snd ls))
  end.

Inductive Process : Type :=
| Serving (app : Express.Application) (port : JS.value)
| Terminated (exit_code : Z).

(** [app.listen(port, callback)]: one attempt to bind.  The callback is
    the only listener the server gets, for [listening].  [os n] is the
    answer the system would give to the [n]-th attempt; only the first is
    ever asked for.  An exception that nothing catches ends the process
    with exit code 1. *)
Definition app_listen (app : Express.Application) (port : JS.value)
    (callback : list Effect) (os : nat -> ListenResult) : list Effect * Process :=
  let listeners := [("listening", callback)] in
  match os 0%nat with
  | bound =>
      match emit listeners "listening" with
      | Some effects => (Listen port :: effects, Serving app port)
      | None => ([Listen port; Exit 1], Terminated 1)
      end
  | refused code =>
      match emit listeners "error" with
      | Some effects => (Listen port :: effects, Serving app port)
      | None => ([Listen port; Uncaught code; Exit 1], Terminated 1)
      end
  end.

(** A connection is accepted, and a request answered, only by a process
    that is serving. *)
Definition serve (p : Process) (req : Express.Request) (clk : Express.Clock)
    : option Express.Response :=
  match p with
  | Serving app _ => Some (Express.handle app req clk)
  | Terminated _ => None
  end.

(** Handling a request leaves the process as it was: nothing assigns to
    the port, the settings or the stack after start-up. *)
Definition step (p : Process) (ev : Express.Request * Express.Clock)
    : Process * option Express.Response :=
  (p, serve p (fst ev) (snd ev)).

Fixpoint run (p : Process) (evs : list (Express.Request * Express.Clock))
    : Process * list (option Express.Response) :=
  match evs with
  | [] => (p, [])
  | ev :: rest =>
      let '(p1, r) := step p ev in
      let '(p2, rs) := run p1 rest in
      (p2, r :: rs)
  end.

(** The port a serving process asked to listen on. *)
Definition listen_port (p : Process) : option JS.value :=
  match p with
  | Serving _ port => Some port
  | Terminated _ => None
  end.

Definition count_listen (trace : list Effect) : nat :=
  List.length (List.filter (fun e => match e with Listen _ => true | _ => false end) trace).

Definition log_lines (trace : list Effect) : list string :=
  List.flat_map (fun e => match e with ConsoleLog l => [l] | _ => [] end) trace.

End Node.

(** ** [src/index.js] *)

Module Index.

Import Express.

(** [const PORT = process.env.PORT || 9001;] with the default as a
    parameter, since one sibling of the file defaults to 3000. *)
Definition resolve_port (default : Z) (env : JS.environment) : JS.value :=
  JS.or (JS.env_get env "PORT") (JS.Num default).

Definition PORT (env : JS.environment) : JS.value := resolve_port 9001 env.

(** [app.get('/', ...)] *)
Definition root : Handler :=
  fun req clk => Json.JObj [("message", Json.JStr "Hello from root API")].

(** [app.get('/health', ...)] *)
Definition health : Handler :=
  fun req clk =>
    let uptime := Math.floor (uptime clk) in
    Json.JObj [("status", Json.JStr "ok"); ("uptime", Json.JNum uptime)].

Definition celebration : string := "Bhai!...mai bhi deploy hogya. badhai ho bhai".

(** [app.get('/test-ci', ...)] *)
Definition test_ci : Handler :=
  fun req clk =>
    Json.JObj [("message", Json.JStr celebration);
               ("timestamp", Json.JStr (Date.toISOString (now clk)))].

(** [app.get('/test-docker-ecr-app-runner', ...)] *)
Definition test_docker_ecr_app_runner : Handler :=
  fun req clk =>
    Json.JObj [("message", Json.JStr "Sab sahi hai");
               ("timestamp", Json.JStr (Date.toISOString (now clk)))].

(** The application after the registrations of the file, in their order. *)
Definition app (env : JS.environment) : Application :=
  app_get "/test-docker-ecr-app-runner" test_docker_ecr_app_runner
    (app_get "/test-ci" test_ci
       (app_get "/health" health
          (app_get "/" root
             (app_use (express env))))).

(** The callback of [app.listen]: the two lines of the start-up log. *)
Definition on_listening (port : JS.value) (env : JS.environment) : list Node.Effect :=
  [Node.ConsoleLog ("Server is running on port " +:+ JS.ToString port);
   Node.ConsoleLog ("Environment: " +:+
      JS.ToString (JS.or (JS.env_get env "NODE_ENV") (JS.Str "development")))].

(** Running the file: resolve the port, build the application, listen. *)
Definition main (env : JS.environment) (os : nat -> Node.ListenResult)
    : list Node.Effect * Node.Process :=
  Node.app_listen (app env) (PORT env) (on_listening (PORT env) env) os.

(** The registered paths. *)
Definition routes : list string :=
  ["/"; "/health"; "/test-ci"; "/test-docker-ecr-app-runner"].

(** A path that one of the registered routes matches. *)
Definition registered (p : string) : bool :=
  existsb (fun route => match_path route p) routes.

(** The methods a registered path answers: GET and HEAD through the
    route, OPTIONS through the router. *)
Definition answered (m : Method) : bool :=
  handles_method m || Method_eqb m OPTIONS.

(** The [uptime] member of a response body, when it has one. *)
Definition reported_uptime (r : Response) : option Z :=
  match content r with
  | JsonText obj =>
      match Json.field "uptime" obj with
      | Some (Json.JNum n) => Some n
      | _ => None
      end
  | _ => None
  end.

(** The [message] and [timestamp] members of a response body. *)
Definition reported_message (r : Response) : option string :=
  match content r with
  | JsonText obj =>
      match Json.field "message" obj with
      | Some (Json.JStr s) => Some s
      | _ => None
      end
  | _ => None
  end.

Definition reported_timestamp (r : Response) : option string :=
  match content r with
  | JsonText obj =>
      match Json.field "timestamp" obj with
      | Some (Json.JStr s) => Some s
      | _ => None
      end
  | _ => None
  end.

(** The instant the [timestamp] member denotes. *)
Definition reported_instant (r : Response) : option Z :=
  reported_timestamp r ≫= Date.parseISO.

(** A GET request for exactly [route] that the body parser passes on. *)
Definition passes_to (route : string) (req : Request) : Prop :=
  method req = GET /\ path req = route /\ json req = next.

(** The double quote, for spelling out JSON texts. *)
Definition dq : string := String Json.quote EmptyString.

(** *** The sibling variants of the file *)

(** Only [/] and [/health]. *)
Definition app_health_only (env : JS.environment) : Application :=
  app_get "/health" health (app_get "/" root (app_use (express env))).

(** Only [/] and [/test-ci]. *)
Definition app_test_ci_only (env : JS.environment) : Application :=
  app_get "/test-ci" test_ci (app_get "/" root (app_use (express env))).

(** The TypeScript variant: [/] and [/health], default port 3000. *)
Definition PORT_ts (env : JS.environment) : JS.value := resolve_port 3000 env.

Definition main_ts (env : JS.environment) (os : nat -> Node.ListenResult)
    : list Node.Effect * Node.Process :=
  Node.app_listen (app_health_only env) (PORT_ts env) (on_listening (PORT_ts env) env) os.

(** *** Sample inputs *)

(** A request without a body and without the header fields of the
    model, which the body parser always passes on. *)
Definition plain (m : Method) (p : string) : Request :=
  {| method := m; path := p; query := None; content_type := None;
     content_encoding := None; if_none_match := None; if_modified_since := None;
     cache_control := None; body := None; chunked := false;
     unzipped := inflated EmptyString; transcoded := EmptyString |}.

(** A request that announces the media type [media] and carries [bytes]
    with their length. *)
Definition with_body (m : Method) (p : string) (media bytes : string) : Request :=
  {| method := m; path := p; query := None; content_type := Some media;
     content_encoding := None; if_none_match := None; if_modified_since := None;
     cache_control := None; body := Some bytes; chunked := false;
     unzipped := inflated EmptyString; transcoded := EmptyString |}.

(** A request that announces JSON and carries [text]. *)
Definition with_json (m : Method) (p : string) (text : string) : Request :=
  with_body m p "application/json" text.

(** A request without a body that carries [If-None-Match]. *)
Definition if_none (m : Method) (p : string) (tags : string) : Request :=
  {| method := m; path := p; query := None; content_type := None;
     content_encoding := None; if_none_match := Some tags; if_modified_since := None;
     cache_control := None; body := None; chunked := false;
     unzipped := inflated EmptyString; transcoded := EmptyString |}.

Definition at_start : Clock := {| uptime := 0; now := 0 |}.

(** The readings of a process whose system clock is set back by about two
    seconds between two calls that are one second of running time
    apart. *)
Definition before_reset : Clock := {| uptime := 10; now := 1793687696789 |}.
Definition after_reset : Clock := {| uptime := 11; now := 1793687695000 |}.

(** A system on which the port is taken at the first attempt and free at
    every later one. *)
Definition busy_then_free (n : nat) : Node.ListenResult :=
  match n with
  | O => Node.refused "EADDRINUSE"
  | S _ => Node.bound
  end.

End Index.

(** ** Further observations on requests and responses *)

Module Observe.

Import Express Index.

(** The same request sent with another method. *)
Definition as_method (m : Method) (req : Request) : Request :=
  {| method := m; path := path req; query := query req;
     content_type := content_type req; content_encoding := content_encoding req;
     if_none_match := if_none_match req; if_modified_since := if_modified_since req;
     cache_control := cache_control req; body := body req; chunked := chunked req;
     unzipped := unzipped req; transcoded := transcoded req |}.

(** The same request sent to another path. *)
Definition to_path (p : string) (req : Request) : Request :=
  {| method := method req; path := p; query := query req;
     content_type := content_type req; content_encoding := content_encoding req;
     if_none_match := if_none_match req; if_modified_since := if_modified_since req;
     cache_control := cache_control req; body := body req; chunked := chunked req;
     unzipped := unzipped req; transcoded := transcoded req |}.

(** The body parser passes the request on. *)
Definition passes (req : Request) : bool :=
  match json req with
  | next => true
  | next_err _ => false
  end.

(** The request is conditional and the entity tag of the body that
    [res.json(obj)] would send validates it. *)
Definition validates (req : Request) (obj : Json.value) : bool :=
  req_fresh req (Etag.wetag (Json.stringify obj)).

(** The body parser reads the body of the request, as UTF-8 text that
    comes without a content coding. *)
Definition reads_utf8 (req : Request) : bool :=
  typeis (content_type req) "application/json"
  && starts_with_utf (charset req)
  && String.eqb (canonical (charset req)) "utf8"
  && String.eqb (content_coding req) "identity".


(** The label after [Environment:] in the start-up log. *)
Definition environment_label (env : JS.environment) : string :=
  match env !! "NODE_ENV" with
  | Some (String c s) => String c s
  | _ => "development"
  end.

End Observe.

(** ** The container's health check *)

Module Container.

Import Express.

(** The request of [http.get('http://localhost:9001/')]: a GET for [/]
    without a body. *)
Definition probe : Request := Index.plain GET "/".

(** The callback of the Dockerfile's HEALTHCHECK,
    [process.exit(res.statusCode === 200 ? 0 : 1)], on the answer to the
    probe.  Without an answer (nothing accepts the connection) the request
    emits an [error] event that has no listener, which ends the checking
    process with exit code 1. *)
Definition healthcheck (answer : option Response) : Z :=
  match answer with
  | Some res => if status res =? 200 then 0 else 1
  | None => 1
  end.

End Container.

(** ** Texts that [JSON.stringify] writes *)

Module Wellformed.

Import Json.

Definition chars (s : string) : list ascii := list_ascii_of_string s.

(** What may follow a value inside a text that [stringify] writes: the
    end of the text, a comma or a closing brace. *)
Definition follows (rest : list ascii) : bool :=
  match rest with
  | [] => true
  | c :: _ => Ascii.eqb c "," || Ascii.eqb c "}"
  end.

(** One member of an object, as [stringify] writes it. *)
Definition member (kv : string * value) : string :=
  quoted (fst kv) +:+ ":" +:+ stringify (snd kv).

(** The scanner recognises the text of [v] as a value, whatever follows
    it inside a text that [stringify] writes. *)
Definition recognised (v : value) : Prop :=
  forall rest, follows rest = true ->
  exists fuel, scan fuel Value (chars (stringify v) ++ rest) = Some rest.

End Wellformed.

(** ** Timestamps as strings *)

Module Chrono.

Import Date.

(** [YearFromTime]. *)
Definition YearFromTime (t : Z) : Z := fst (fst (civil_from_days (Day t))).

(** The time values whose year has four digits: from
    0000-01-01T00:00:00.000Z to 9999-12-31T23:59:59.999Z. *)
Definition minFourDigits : Z := -62167219200000.
Definition maxFourDigits : Z := 253402300799999.

(** The months from March of year 0 to the month [m] of the year [y]. *)
Definition month_key (y m : Z) : Z := 12 * y + m - 3.

(** The days from 0000-03-01 to the first of March of the year [y], and
    to the first day of the [k]-th month after March of year 0. *)
Definition march_first (y : Z) : Z := 365 * y + y / 4 - y / 100 + y / 400.

Definition month_first (k : Z) : Z := march_first (k / 12) + (153 * (k mod 12) + 2) / 5.

(** The order of two texts, character by character. *)
Fixpoint chars_compare (l1 l2 : list ascii) : comparison :=
  match l1, l2 with
  | [], [] => Eq
  | [], _ :: _ => Lt
  | _ :: _, [] => Gt
  | c1 :: r1, c2 :: r2 =>
      match Ascii.compare c1 c2 with
      | Eq => chars_compare r1 r2
      | Lt => Lt
      | Gt => Gt
      end
  end.

(** The order of two tuples of numbers, field by field. *)
Fixpoint fields_compare (f1 f2 : list Z) : comparison :=
  match f1, f2 with
  | a :: r1, b :: r2 =>
      match a ?= b with
      | Eq => fields_compare r1 r2
      | Lt => Lt
      | Gt => Gt
      end
  | _, _ => Eq
  end.

(** The fields of a timestamp, from the year to the millisecond. *)
Definition fields (t : Z) : list Z :=
  let '(y, m, d) := civil_from_days (Day t) in
  [y; m; d; HourFromTime t; MinFromTime t; SecFromTime t; msFromTime t].

End Chrono.

(** * Properties *)

(** ** JavaScript values *)

Section Truthiness.

Import JS.

Lemma truthy_string s : ToBoolean (Str s) = false <-> s = EmptyString.
Proof. destruct s; cbn; split; congruence. Qed.

Lemma or_truthy a b : ToBoolean a = true -> JS.or a b = a.
Proof. unfold JS.or. intros ->. reflexivity. Qed.

Lemma or_falsy a b : ToBoolean a = false -> JS.or a b = b.
Proof. unfold JS.or. intros ->. reflexivity. Qed.

Lemma decimal_pos p : decimal (Z.pos p) = NilEmpty.string_of_uint (Pos.to_uint p).
Proof.
  unfold decimal. cbn [Z.to_int NilZero.string_of_int NilZero.string_of_uint].
  pose proof (DecimalPos.Unsigned.to_uint_nonnil p) as Hn.
  destruct (Pos.to_uint p); [congruence | reflexivity ..].
Qed.

(** The decimal text of a natural number is a truthy string, and
    [Number] reads the number back from it. *)
Lemma decimal_number n : 0 <= n ->
  ToBoolean (Str (decimal n)) = true /\ StringToNumber (decimal n) = Some n.
Proof.
  intros Hn. destruct n as [|p|p]; [split; reflexivity | | lia].
  rewrite decimal_pos.
  pose proof (DecimalPos.Unsigned.to_uint_nonnil p) as Hnil.
  assert (Hne : exists c s, NilEmpty.string_of_uint (Pos.to_uint p) = String c s).
  { destruct (Pos.to_uint p); [congruence | cbn; eauto ..]. }
  destruct Hne as (c & s & Heq). split.
  - rewrite Heq. reflexivity.
  - unfold StringToNumber. rewrite Heq, <- Heq, NilEmpty.usu.
    f_equal. change (N.of_uint (Pos.to_uint p)) with (Pos.of_uint (Pos.to_uint p)).
    rewrite DecimalPos.Unsigned.of_to. reflexivity.
Qed.

End Truthiness.

(** ** The JSON scanner does not depend on its fuel *)

Section JsonSyntax.

Import Json.

Lemma skip_ws_length l : (List.length (skip_ws l) <= List.length l)%nat.
Proof.
  induction l as [|c rest IH]; [reflexivity|].
  cbn [skip_ws]. destruct (is_ws c); cbn [List.length]; lia.
Qed.

Lemma skip_digits_length l : (List.length (skip_digits l) <= List.length l)%nat.
Proof.
  induction l as [|c rest IH]; [reflexivity|].
  cbn [skip_digits]. destruct (is_digit c); cbn [List.length]; lia.
Qed.

Lemma scan_string_shorter n : forall l r,
  (List.length l <= n)%nat -> scan_string l = Some r ->
  (List.length r < List.length l)%nat.
Proof.
  induction n as [|n IH]; intros l r Hn H.
  - destruct l; [discriminate H | cbn in Hn; lia].
  - destruct l as [|c rest]; [discriminate H|]. cbn [scan_string] in H.
    cbn [List.length] in *.
    destruct (Ascii.eqb c quote); [injection H as <-; lia|].
    destruct (Ascii.eqb c backslash).
    + destruct rest as [|e rest1]; [discriminate H|]. cbn [List.length] in *.
      destruct (is_simple_escape e).
      * apply IH in H; lia.
      * destruct (Ascii.eqb e "u"); [|discriminate H].
        destruct rest1 as [|h1 [|h2 [|h3 [|h4 rest2]]]]; try discriminate H.
        cbn [List.length] in *.
        destruct (is_hex h1 && is_hex h2 && is_hex h3 && is_hex h4); [|discriminate H].
        apply IH in H; lia.
    + destruct (N_of_ascii c <? 32)%N; [discriminate H|].
      apply IH in H; lia.
Qed.

Lemma scan_digits_shorter l r :
  scan_digits l = Some r -> (List.length r < List.length l)%nat.
Proof.
  destruct l as [|c rest]; [discriminate|]. cbn [scan_digits List.length].
  destruct (is_digit c); [|discriminate]. intros H. injection H as <-.
  pose proof (skip_digits_length rest). lia.
Qed.

Lemma scan_fraction_length l r :
  scan_fraction l = Some r -> (List.length r <= List.length l)%nat.
Proof.
  unfold scan_fraction. destruct l as [|c rest]; [intros H; injection H as <-; lia|].
  destruct (Ascii.eqb c "."); intros H.
  - apply scan_digits_shorter in H. cbn [List.length]. lia.
  - injection H as <-. lia.
Qed.

Lemma scan_exponent_length l r :
  scan_exponent l = Some r -> (List.length r <= List.length l)%nat.
Proof.
  unfold scan_exponent. destruct l as [|c rest]; [intros H; injection H as <-; lia|].
  destruct (Ascii.eqb c "e" || Ascii.eqb c "E"); [|intros H; injection H as <-; lia].
  destruct rest as [|s rest1]; [discriminate|]. cbn [List.length].
  destruct (Ascii.eqb s "+" || Ascii.eqb s "-"); intros H;
    apply scan_digits_shorter in H; cbn [List.length] in H; lia.
Qed.

Lemma scan_number_shorter l r :
  scan_number l = Some r -> (List.length r < List.length l)%nat.
Proof.
  unfold scan_number.
  set (unsigned := match l with
                   | c :: rest => if Ascii.eqb c "-" then rest else l
                   | [] => l
                   end).
  assert (Hu : (List.length unsigned <= List.length l)%nat).
  { subst unsigned. destruct l as [|c rest]; [lia|].
    destruct (Ascii.eqb c "-"); cbn [List.length]; lia. }
  destruct unsigned as [|c rest]; [discriminate|]. cbn [List.length] in Hu.
  assert (Htail : forall t, (List.length t <= List.length rest)%nat ->
            scan_fraction t ≫= scan_exponent = Some r ->
            (List.length r < List.length l)%nat).
  { intros t Ht H. destruct (scan_fraction t) as [t1|] eqn:Hf; [|discriminate H].
    cbn [mbind option_bind] in H.
    apply scan_fraction_length in Hf. apply scan_exponent_length in H. lia. }
  destruct (Ascii.eqb c "0"); [apply Htail; lia|].
  destruct (is_digit c); [|discriminate].
  apply Htail. apply skip_digits_length.
Qed.

Lemma scan_literal_length word : forall l r,
  scan_literal word l = Some r -> (List.length r <= List.length l)%nat.
Proof.
  induction word as [|w word IH]; intros l r H.
  - destruct l; injection H as <-; lia.
  - destruct l as [|c rest]; [discriminate H|]. cbn [scan_literal] in H.
    destruct (Ascii.eqb w c); [|discriminate H].
    apply IH in H. cbn [List.length]. lia.
Qed.

Lemma token_shorter c l r :
  token c l = Some r -> (List.length r < List.length l)%nat.
Proof.
  unfold token. pose proof (skip_ws_length l) as Hw.
  destruct (skip_ws l) as [|c' rest]; [discriminate|]. cbn [List.length] in Hw.
  destruct (Ascii.eqb c c'); [|discriminate]. intros H. injection H as <-. lia.
Qed.

(** What a production recognises is not empty. *)
Lemma scan_shorter fuel : forall p l r,
  scan fuel p l = Some r -> (List.length r < List.length l)%nat.
Proof.
  induction fuel as [|fuel IH]; intros p l r H; [discriminate H|].
  destruct p; cbn [scan] in H.
  - pose proof (skip_ws_length l) as Hw.
    destruct (skip_ws l) as [|c rest]; [discriminate H|]. cbn [List.length] in Hw.
    destruct (Ascii.eqb c "{").
    { destruct (token "}" rest) as [rest1|] eqn:Ht.
      - injection H as <-. apply token_shorter in Ht. lia.
      - apply IH in H. lia. }
    destruct (Ascii.eqb c "[").
    { destruct (token "]" rest) as [rest1|] eqn:Ht.
      - injection H as <-. apply token_shorter in Ht. lia.
      - apply IH in H. lia. }
    destruct (Ascii.eqb c quote).
    { apply (scan_string_shorter _ _ _ (le_n _)) in H. lia. }
    destruct (Ascii.eqb c "t"); [apply scan_literal_length in H; lia|].
    destruct (Ascii.eqb c "f"); [apply scan_literal_length in H; lia|].
    destruct (Ascii.eqb c "n"); [apply scan_literal_length in H; lia|].
    apply scan_number_shorter in H. cbn [List.length] in H. lia.
  - destruct (scan fuel Value l) as [rest|] eqn:Hv; [|discriminate H].
    apply IH in Hv.
    destruct (token "," rest) as [rest1|] eqn:Ht.
    + apply token_shorter in Ht. apply IH in H. lia.
    + apply token_shorter in H. lia.
  - destruct (token quote l) as [rest|] eqn:Hq; [|discriminate H].
    apply token_shorter in Hq.
    destruct (scan_string rest) as [rest1|] eqn:Hs; [|discriminate H].
    apply (scan_string_shorter _ _ _ (le_n _)) in Hs.
    destruct (token ":" rest1) as [rest2|] eqn:Hc; [|discriminate H].
    apply token_shorter in Hc.
    destruct (scan fuel Value rest2) as [rest3|] eqn:Hv; [|discriminate H].
    apply IH in Hv.
    destruct (token "," rest3) as [rest4|] eqn:Ht.
    + apply token_shorter in Ht. apply IH in H. lia.
    + apply token_shorter in H. lia.
Qed.

(** What the scanner recognises with some fuel, it recognises with every
    fuel from [levels] on: a syntax error is never a lack of fuel. *)
Lemma scan_enough fuel : forall p l r,
  scan fuel p l = Some r ->
  forall fuel', (levels p l <= fuel')%nat -> scan fuel' p l = Some r.
Proof.
  induction fuel as [|fuel IH]; intros p l r H fuel' Hf; [discriminate H|].
  destruct fuel' as [|g]; [destruct p; cbn [levels] in Hf; lia|].
  destruct p; cbn [scan levels] in *.
  - pose proof (skip_ws_length l) as Hw.
    destruct (skip_ws l) as [|c rest]; [discriminate H|]. cbn [List.length] in Hw.
    destruct (Ascii.eqb c "{").
    { destruct (token "}" rest) as [rest1|]; [exact H|].
      apply (IH _ _ _ H). cbn [levels]. lia. }
    destruct (Ascii.eqb c "[").
    { destruct (token "]" rest) as [rest1|]; [exact H|].
      apply (IH _ _ _ H). cbn [levels]. lia. }
    exact H.
  - destruct (scan fuel Value l) as [rest|] eqn:Hv; [|discriminate H].
    rewrite (IH _ _ _ Hv g) by (cbn [levels]; lia).
    apply scan_shorter in Hv.
    destruct (token "," rest) as [rest1|] eqn:Ht; [|exact H].
    apply token_shorter in Ht. apply (IH _ _ _ H). cbn [levels]. lia.
  - destruct (token quote l) as [rest|] eqn:Hq; [|discriminate H].
    apply token_shorter in Hq.
    destruct (scan_string rest) as [rest1|] eqn:Hs; [|discriminate H].
    apply (scan_string_shorter _ _ _ (le_n _)) in Hs.
    destruct (token ":" rest1) as [rest2|] eqn:Hc; [|discriminate H].
    apply token_shorter in Hc.
    destruct (scan fuel Value rest2) as [rest3|] eqn:Hv; [|discriminate H].
    rewrite (IH _ _ _ Hv g) by (cbn [levels]; lia).
    apply scan_shorter in Hv.
    destruct (token "," rest3) as [rest4|] eqn:Ht; [|exact H].
    apply token_shorter in Ht. apply (IH _ _ _ H). cbn [levels]. lia.
Qed.

(** [parses] accepts a text exactly when the scanner, with whatever fuel,
    recognises a value followed by nothing but white space. *)
Lemma parses_spec text :
  parses text = true <->
  exists fuel rest,
    scan fuel Value (list_ascii_of_string text) = Some rest /\ skip_ws rest = [].
Proof.
  unfold parses. set (l := list_ascii_of_string text). split.
  - destruct (scan (2 * List.length l + 2) Value l) as [rest|] eqn:Hs; [|discriminate].
    destruct (skip_ws rest) eqn:Hw; [|discriminate]. eauto.
  - intros (fuel & rest & Hs & Hw).
    rewrite (scan_enough _ _ _ _ Hs) by (cbn [levels]; lia).
    rewrite Hw. reflexivity.
Qed.

End JsonSyntax.

(** ** Calendar dates and timestamps *)

Section Timestamps.

Import Date.

Lemma all_from_spec n : forall i p,
  all_from n i p = true -> forall j, i <= j < i + Z.of_nat n -> p j = true.
Proof.
  induction n as [|k IH]; intros i p H j Hj; [lia|].
  cbn [all_from] in H. destruct (p i) eqn:Hi; [|discriminate].
  destruct (Z.eq_dec j i) as [->|Hne]; [exact Hi|].
  apply (IH (i + 1) p H). lia.
Qed.

Lemma in_range_spec lo hi x : in_range lo hi x = true <-> lo <= x <= hi.
Proof. unfold in_range. rewrite andb_true_iff, !Z.leb_le. tauto. Qed.

(** Every year of the cycle and every day of a year pass their checks
    (by evaluation). *)
Lemma years_ok : all_from 400 0 year_ok = true.
Proof. vm_compute. reflexivity. Qed.

Lemma year_days_ok : all_from 366 0 year_day_ok = true.
Proof. vm_compute. reflexivity. Qed.

Lemma year_sound y :
  0 <= y <= 399 ->
  year_of_cycle_day (year_start y) = y /\ year_of_cycle_day (year_end y) = y /\
  364 <= year_end y - year_start y <= 365 /\
  (year_end y - year_start y = 365 -> is_leap (y + 1) = true).
Proof.
  intros Hy. pose proof (all_from_spec _ _ _ years_ok y ltac:(lia)) as H.
  unfold year_ok in H. cbv zeta in H.
  rewrite !andb_true_iff, !Z.eqb_eq, in_range_spec in H.
  destruct H as (((H1 & H2) & H3) & H4). repeat split; try assumption; try lia.
  intros E. apply Z.eqb_eq in E. rewrite E in H4. exact H4.
Qed.

(** The numerator of the year formula does not decrease from a day of
    the cycle to the next. *)
Lemma year_numerator_step x :
  0 <= x < daysPerCycle - 1 ->
  x - x / 1460 + x / 36524 - x / 146096
  <= (x + 1) - (x + 1) / 1460 + (x + 1) / 36524 - (x + 1) / 146096.
Proof.
  unfold daysPerCycle. intros Hx.
  destruct (Z.eq_dec (x + 1) 146096) as [E|E].
  - replace x with 146095 by lia. vm_compute. discriminate.
  - Z.div_mod_to_equations. lia.
Qed.

Lemma year_of_cycle_day_step x :
  0 <= x < daysPerCycle - 1 -> year_of_cycle_day x <= year_of_cycle_day (x + 1).
Proof.
  intros Hx. unfold year_of_cycle_day.
  apply Z.div_le_mono; [lia | apply year_numerator_step; exact Hx].
Qed.

Lemma year_of_cycle_day_mono a b :
  0 <= a <= b -> b < daysPerCycle -> year_of_cycle_day a <= year_of_cycle_day b.
Proof.
  intros [Ha Hab] Hb.
  replace b with (a + Z.of_nat (Z.to_nat (b - a))) in * by lia.
  induction (Z.to_nat (b - a)) as [|k IH]; [rewrite Z.add_0_r; lia|].
  rewrite Nat2Z.inj_succ in *.
  etransitivity; [apply IH; lia|].
  replace (a + Z.succ (Z.of_nat k)) with (a + Z.of_nat k + 1) by lia.
  apply year_of_cycle_day_step. lia.
Qed.

(** The years partition the cycle. *)
Lemma year_cover (k : nat) :
  (k <= 399)%nat ->
  forall doe, 0 <= doe <= year_end (Z.of_nat k) ->
  exists y, 0 <= y <= Z.of_nat k /\ year_start y <= doe <= year_end y.
Proof.
  induction k as [|k IH]; intros Hk doe Hdoe.
  - exists 0. change (year_start 0) with 0. change (Z.of_nat 0) with 0 in *. lia.
  - destruct (Z_le_gt_dec doe (year_end (Z.of_nat k))) as [Hle|Hgt].
    + destruct (IH ltac:(lia) doe ltac:(lia)) as (y & Hy & Hin).
      exists y. split; [lia | exact Hin].
    + exists (Z.of_nat (S k)). split; [lia|]. split; [|lia].
      unfold year_end in Hgt.
      destruct (Z.of_nat k =? 399) eqn:E; [apply Z.eqb_eq in E; lia|].
      rewrite Nat2Z.inj_succ. unfold Z.succ. lia.
Qed.

Lemma year_of_cycle_day_sound doe :
  0 <= doe < daysPerCycle ->
  let y := year_of_cycle_day doe in
  0 <= y <= 399 /\ 0 <= doe - year_start y <= 365 /\
  (doe - year_start y = 365 -> is_leap (y + 1) = true).
Proof.
  intros Hdoe.
  destruct (year_cover 399 ltac:(lia) doe) as (y & Hy & Hin).
  { change (year_end (Z.of_nat 399)) with (daysPerCycle - 1). lia. }
  destruct (year_sound y ltac:(lia)) as (Hlo & Hhi & Hlen & Hleap).
  assert (Hend : year_end y < daysPerCycle).
  { unfold year_end. destruct (y =? 399) eqn:E; [lia|].
    apply Z.eqb_neq in E.
    unfold year_start, daysPerCycle. Z.div_mod_to_equations. lia. }
  assert (Hstart : 0 <= year_start y).
  { unfold year_start. Z.div_mod_to_equations. lia. }
  assert (Heq : year_of_cycle_day doe = y).
  { apply Z.le_antisymm.
    - transitivity (year_of_cycle_day (year_end y)); [|lia].
      apply year_of_cycle_day_mono; lia.
    - transitivity (year_of_cycle_day (year_start y)); [lia|].
      apply year_of_cycle_day_mono; lia. }
  cbv zeta. rewrite Heq. split; [lia|]. split; [lia|].
  intros E. apply Hleap. lia.
Qed.

Lemma month_day_sound doy m d :
  0 <= doy <= 365 -> month_day doy = (m, d) ->
  1 <= m <= 12 /\ 1 <= d /\ year_day m d = doy /\
  (doy = 365 -> m = 2 /\ d = 29) /\
  (doy <> 365 -> d <= (if m =? 2 then 28 else days_in_month 0 m)).
Proof.
  intros Hdoy Hmd.
  pose proof (all_from_spec _ _ _ year_days_ok doy ltac:(lia)) as H.
  unfold year_day_ok in H. rewrite Hmd in H.
  rewrite !andb_true_iff, in_range_spec, Z.leb_le, Z.eqb_eq in H.
  destruct H as (((Hm & Hd) & Hback) & Hlast).
  split; [lia|]. split; [lia|]. split; [exact Hback|]. split.
  - intros E. rewrite E in Hlast. cbn in Hlast.
    apply andb_true_iff in Hlast. rewrite !Z.eqb_eq in Hlast. lia.
  - intros E. apply Z.eqb_neq in E. rewrite E in Hlast. apply Z.leb_le. exact Hlast.
Qed.

Lemma days_in_month_other y y' m : m <> 2 -> days_in_month y m = days_in_month y' m.
Proof. intros H. unfold days_in_month. apply Z.eqb_neq in H. rewrite H. reflexivity. Qed.

(** The date of a day of the cycle is a calendar date that converts back
    to the day. *)
Lemma cycle_day_sound doe :
  0 <= doe < daysPerCycle ->
  forall yoe m d, civil_of_cycle_day doe = (yoe, m, d) ->
  0 <= yoe <= 399 /\ 1 <= m <= 12 /\
  1 <= d <= days_in_month (yoe + (if m <=? 2 then 1 else 0)) m /\
  cycle_day_of_civil yoe m d = doe.
Proof.
  intros Hdoe yoe m d. unfold civil_of_cycle_day.
  destruct (year_of_cycle_day_sound doe Hdoe) as (Hy & Hdoy & Hleap).
  destruct (month_day (doe - year_start (year_of_cycle_day doe))) as [m' d'] eqn:Hmd.
  intros H. injection H as <- <- <-.
  destruct (month_day_sound _ _ _ Hdoy Hmd) as (Hm & Hd & Hback & Hlast & Hother).
  split; [exact Hy|]. split; [exact Hm|]. split.
  - split; [exact Hd|].
    destruct (Z.eq_dec (doe - year_start (year_of_cycle_day doe)) 365) as [E|E].
    + destruct (Hlast E) as [-> ->]. cbn [Z.leb Z.compare Pos.compare Pos.compare_cont].
      unfold days_in_month. cbn [Z.eqb Pos.eqb]. rewrite (Hleap E). lia.
    + specialize (Hother E). destruct (m' =? 2) eqn:E2.
      * apply Z.eqb_eq in E2. subst m'. unfold days_in_month. cbn [Z.eqb Pos.eqb].
        destruct (is_leap _); lia.
      * apply Z.eqb_neq in E2. rewrite (days_in_month_other _ 0 m' E2). exact Hother.
  - unfold cycle_day_of_civil. rewrite Hback. lia.
Qed.

Lemma is_leap_period y k : is_leap (y + k * 400) = is_leap y.
Proof.
  unfold is_leap.
  replace (y + k * 400) with (y + (k * 100) * 4) at 1 by lia.
  replace (y + k * 400) with (y + (k * 4) * 100) at 1 by lia.
  rewrite !Z_mod_plus_full. reflexivity.
Qed.

Lemma days_in_month_period y k m : days_in_month (y + k * 400) m = days_in_month y m.
Proof. unfold days_in_month. rewrite is_leap_period. reflexivity. Qed.

(** A day number and its calendar date determine each other; the year
    lies in the cycle of the day. *)
Lemma civil_from_days_sound z y m d :
  civil_from_days z = (y, m, d) ->
  1 <= m <= 12 /\ 1 <= d <= days_in_month y m /\ days_from_civil y m d = z /\
  (z + epochShift) / daysPerCycle * 400 <= y <= (z + epochShift) / daysPerCycle * 400 + 400.
Proof.
  unfold civil_from_days. intros H.
  destruct (civil_of_cycle_day ((z + epochShift) mod daysPerCycle)) as [[yoe m'] d'] eqn:Hc.
  injection H as <- <- <-.
  apply cycle_day_sound in Hc; [|apply Z.mod_pos_bound; reflexivity].
  destruct Hc as (Hy & Hm & Hd & Hback).
  set (era := (z + epochShift) / daysPerCycle) in *.
  set (c := if m' <=? 2 then 1 else 0) in *.
  assert (Hcb : 0 <= c <= 1) by (subst c; destruct (m' <=? 2); lia).
  split; [exact Hm|]. split.
  { replace (yoe + era * 400 + c) with ((yoe + c) + era * 400) by lia.
    rewrite days_in_month_period. exact Hd. }
  split; [|lia].
  unfold days_from_civil. fold c.
  replace (yoe + era * 400 + c - c) with (yoe + era * 400) by lia.
  rewrite Z.div_add by lia. rewrite Z_mod_plus_full.
  rewrite Z.div_small, Z.mod_small by lia.
  rewrite Hback. subst era.
  pose proof (Z.div_mod (z + epochShift) daysPerCycle ltac:(unfold daysPerCycle; lia)).
  lia.
Qed.

Lemma digit_cases d : 0 <= d < 10 ->
  d = 0 \/ d = 1 \/ d = 2 \/ d = 3 \/ d = 4 \/ d = 5 \/ d = 6 \/ d = 7 \/ d = 8 \/ d = 9.
Proof. lia. Qed.

Ltac each_digit d H :=
  let C := fresh in
  pose proof (digit_cases d H) as C;
  repeat (destruct C as [C|C]; [subst d|]); [..|subst d].

Lemma digit_value_char d : 0 <= d < 10 -> digit_value (digit_char d) = Some d.
Proof. intros H. each_digit d H; reflexivity. Qed.

Lemma digit_char_no_sign d : 0 <= d < 10 ->
  Ascii.eqb (digit_char d) "+" = false /\ Ascii.eqb (digit_char d) "-" = false.
Proof. intros H. each_digit d H; split; reflexivity. Qed.

Lemma read_digits_split w1 : forall w2 acc l,
  read_digits (w1 + w2) acc l =
  match read_digits w1 acc l with
  | Some (a, rest) => read_digits w2 a rest
  | None => None
  end.
Proof.
  induction w1 as [|w IH]; intros w2 acc l; [reflexivity|].
  cbn [Nat.add read_digits]. destruct l as [|c rest]; [reflexivity|].
  destruct (digit_value c); [apply IH | reflexivity].
Qed.

Lemma read_digits_pad w : forall n acc rest,
  0 <= n < 10 ^ Z.of_nat w ->
  read_digits w acc (pad w n ++ rest)%list = Some (acc * 10 ^ Z.of_nat w + n, rest).
Proof.
  induction w as [|w IH]; intros n acc rest Hn.
  - cbn. f_equal. f_equal. change (10 ^ Z.of_nat 0) with 1 in Hn. lia.
  - rewrite Nat2Z.inj_succ, Z.pow_succ_r in * by lia.
    cbn [pad]. rewrite <- app_assoc. cbn [List.app].
    replace (S w) with (w + 1)%nat by lia.
    rewrite read_digits_split, IH
      by (split; [apply Z.div_pos; lia | apply Z.div_lt_upper_bound; lia]).
    cbn [read_digits].
    rewrite digit_value_char by (apply Z.mod_pos_bound; lia).
    f_equal. f_equal. pose proof (Z.div_mod n 10 ltac:(lia)). lia.
Qed.

Lemma read_pad w n rest :
  0 <= n < 10 ^ Z.of_nat w ->
  read_digits w 0 (pad w n ++ rest)%list = Some (n, rest).
Proof. intros H. rewrite read_digits_pad by exact H. reflexivity. Qed.

Lemma expect_cons c rest : expect c (c :: rest) = Some rest.
Proof. unfold expect. rewrite Ascii.eqb_refl. reflexivity. Qed.

Lemma pad_S_head w n :
  0 <= n < 10 ^ Z.of_nat (S w) ->
  exists d tail, 0 <= d < 10 /\ pad (S w) n = digit_char d :: tail.
Proof.
  revert n. induction w as [|w IH]; intros n Hn.
  - exists (n mod 10), []. split; [apply Z.mod_pos_bound; lia | reflexivity].
  - rewrite Nat2Z.inj_succ, Z.pow_succ_r in Hn by lia.
    destruct (IH (n / 10)) as (d & tail & Hd & Heq).
    { split; [apply Z.div_pos; lia | apply Z.div_lt_upper_bound; lia]. }
    exists d, (tail ++ [digit_char (n mod 10)])%list. split; [exact Hd|].
    change (pad (S (S w)) n) with (pad (S w) (n / 10) ++ [digit_char (n mod 10)])%list.
    rewrite Heq. reflexivity.
Qed.

Lemma read_year_digits y rest :
  -999999 <= y <= 999999 ->
  read_year (year_digits y ++ rest)%list = Some (y, rest).
Proof.
  intros Hy. unfold year_digits.
  destruct ((0 <=? y) && (y <=? 9999)) eqn:Hsmall.
  - apply andb_true_iff in Hsmall. rewrite !Z.leb_le in Hsmall.
    assert (Hr : 0 <= y < 10 ^ Z.of_nat 4) by (change (10 ^ Z.of_nat 4) with 10000; lia).
    destruct (pad_S_head 3 y Hr) as (d & tail & Hd & Heq).
    rewrite <- (read_pad 4 y rest Hr). rewrite Heq. cbn [List.app read_year].
    destruct (digit_char_no_sign d Hd) as [-> ->]. reflexivity.
  - apply andb_false_iff in Hsmall. rewrite !Z.leb_gt in Hsmall.
    assert (Hr : 0 <= Z.abs y < 10 ^ Z.of_nat 6)
      by (change (10 ^ Z.of_nat 6) with 1000000; lia).
    destruct (y <? 0) eqn:Hneg.
    + apply Z.ltb_lt in Hneg. cbn [List.app read_year].
      change (Ascii.eqb "-" "+") with false. change (Ascii.eqb "-" "-") with true.
      cbn match. rewrite read_pad by exact Hr. cbn.
      destruct (Z.abs y =? 0) eqn:Hz; [apply Z.eqb_eq in Hz; lia|].
      f_equal. f_equal. lia.
    + apply Z.ltb_ge in Hneg. cbn [List.app read_year].
      change (Ascii.eqb "+" "+") with true. cbn match.
      rewrite read_pad by exact Hr. f_equal. f_equal. lia.
Qed.

Lemma time_fields w :
  0 <= w < msPerDay ->
  0 <= w / 3600000 <= 23 /\ 0 <= (w / 60000) mod 60 <= 59 /\
  0 <= (w / 1000) mod 60 <= 59 /\ 0 <= w mod 1000 <= 999 /\
  w / 3600000 * 3600000 + (w / 60000) mod 60 * 60000
    + (w / 1000) mod 60 * 1000 + w mod 1000 = w.
Proof. unfold msPerDay. intros H. Z.div_mod_to_equations. lia. Qed.

(** The timestamp of a time value is a valid UTC date-time that denotes
    that very instant. *)
Lemma parseISO_toISOString t :
  - maxTime <= t <= maxTime -> parseISO (toISOString t) = Some t.
Proof.
  intros Ht. unfold toISOString, parseISO.
  destruct (civil_from_days (Day t)) as [[y m] d] eqn:Hc.
  apply civil_from_days_sound in Hc. destruct Hc as (Hm & Hd & Hback & Hy).
  assert (Hday : -100000000 <= Day t <= 100000000).
  { unfold Day, msPerDay, maxTime in *. Z.div_mod_to_equations. lia. }
  assert (Hyr : -999999 <= y <= 999999).
  { unfold epochShift, daysPerCycle in Hy. Z.div_mod_to_equations. lia. }
  assert (Hdim : days_in_month y m <= 31).
  { unfold days_in_month. repeat (destruct (_ : bool)); lia. }
  pose proof (time_fields (TimeWithinDay t)
                (Z.mod_pos_bound t msPerDay ltac:(reflexivity)))
    as (Hh & Hmi & Hs & Hms & Hsum).
  assert (H2 : 10 ^ Z.of_nat 2 = 100) by reflexivity.
  assert (H3 : 10 ^ Z.of_nat 3 = 1000) by reflexivity.
  rewrite list_ascii_of_string_of_list_ascii.
  rewrite read_year_digits by exact Hyr. cbn [mbind option_bind].
  unfold HourFromTime, MinFromTime, SecFromTime, msFromTime.
  repeat (rewrite expect_cons; cbn [mbind option_bind];
          try (rewrite read_pad by lia; cbn [mbind option_bind])).
  rewrite !(proj2 (in_range_spec _ _ _)) by lia. cbn [andb].
  f_equal. rewrite Hback. unfold Day, TimeWithinDay in *.
  pose proof (Z.div_mod t msPerDay ltac:(unfold msPerDay; lia)). lia.
Qed.

End Timestamps.

(** ** The order of timestamps *)

Section Chronology.

Import Date Chrono.
Local Open Scope list_scope.

Lemma cycle_is_march_first y :
  y / 400 * daysPerCycle + year_start (y mod 400) = march_first y.
Proof.
  unfold daysPerCycle, year_start, march_first.
  Z.div_mod_to_equations. lia.
Qed.

(** The day number of a date, by the first day of its month. *)
Lemma days_by_month y m d :
  1 <= m <= 12 ->
  days_from_civil y m d + epochShift = month_first (month_key y m) + d - 1.
Proof.
  intros Hm. unfold days_from_civil, cycle_day_of_civil, year_day, month_first, month_key.
  rewrite Z.add_assoc, cycle_is_march_first.
  destruct (m <=? 2) eqn:E1; destruct (2 <? m) eqn:E2;
    try (apply Z.leb_le in E1); try (apply Z.leb_gt in E1);
    try (apply Z.ltb_lt in E2); try (apply Z.ltb_ge in E2); try lia.
  - replace ((12 * y + m - 3) / 12) with (y - 1) by (Z.div_mod_to_equations; lia).
    replace ((12 * y + m - 3) mod 12) with (m + 9) by (Z.div_mod_to_equations; lia).
    lia.
  - replace ((12 * y + m - 3) / 12) with (y - 0) by (Z.div_mod_to_equations; lia).
    replace ((12 * y + m - 3) mod 12) with (m - 3) by (Z.div_mod_to_equations; lia).
    lia.
Qed.

Lemma mod_0_trans a b x :
  0 < a -> 0 < b -> (a | b) -> x mod b = 0 -> x mod a = 0.
Proof.
  intros Ha Hb Hab Hx. apply Z.mod_divide; [lia|].
  apply Z.mod_divide in Hx; [|lia]. exact (Z.divide_trans _ _ _ Hab Hx).
Qed.

Lemma march_first_step y :
  march_first (y + 1) = march_first y + 365 + (if is_leap (y + 1) then 1 else 0).
Proof.
  assert (H4 : (y + 1) / 4 = y / 4 + (if (y + 1) mod 4 =? 0 then 1 else 0)).
  { destruct ((y + 1) mod 4 =? 0) eqn:E;
      [apply Z.eqb_eq in E | apply Z.eqb_neq in E]; Z.div_mod_to_equations; lia. }
  assert (H100 : (y + 1) / 100 = y / 100 + (if (y + 1) mod 100 =? 0 then 1 else 0)).
  { destruct ((y + 1) mod 100 =? 0) eqn:E;
      [apply Z.eqb_eq in E | apply Z.eqb_neq in E]; Z.div_mod_to_equations; lia. }
  assert (H400 : (y + 1) / 400 = y / 400 + (if (y + 1) mod 400 =? 0 then 1 else 0)).
  { destruct ((y + 1) mod 400 =? 0) eqn:E;
      [apply Z.eqb_eq in E | apply Z.eqb_neq in E]; Z.div_mod_to_equations; lia. }
  assert (D1 : (y + 1) mod 100 = 0 -> (y + 1) mod 4 = 0).
  { apply mod_0_trans; [lia | lia | exists 25; reflexivity]. }
  assert (D2 : (y + 1) mod 400 = 0 -> (y + 1) mod 100 = 0).
  { apply mod_0_trans; [lia | lia | exists 4; reflexivity]. }
  unfold march_first, is_leap. rewrite H4, H100, H400.
  destruct (Z.eqb_spec ((y + 1) mod 4) 0) as [E4|E4];
    destruct (Z.eqb_spec ((y + 1) mod 100) 0) as [E100|E100];
    destruct (Z.eqb_spec ((y + 1) mod 400) 0) as [E400|E400]; cbn [andb orb negb];
    try lia; exfalso;
    first [apply E4, D1, E100 | apply E100, D2, E400 | apply E4, D1, D2, E400].
Qed.

(** A month starts where the month before it ends. *)
Lemma month_first_step y m :
  1 <= m <= 12 ->
  month_first (month_key y m + 1) = month_first (month_key y m) + days_in_month y m.
Proof.
  intros Hm. unfold month_first, month_key.
  assert (C : m = 1 \/ m = 2 \/ m = 3 \/ m = 4 \/ m = 5 \/ m = 6 \/ m = 7 \/ m = 8 \/
              m = 9 \/ m = 10 \/ m = 11 \/ m = 12) by lia.
  destruct C as [->|[->|C]].
  - replace ((12 * y + 1 - 3 + 1) / 12) with (y - 1) by (Z.div_mod_to_equations; lia).
    replace ((12 * y + 1 - 3 + 1) mod 12) with 11 by (Z.div_mod_to_equations; lia).
    replace ((12 * y + 1 - 3) / 12) with (y - 1) by (Z.div_mod_to_equations; lia).
    replace ((12 * y + 1 - 3) mod 12) with 10 by (Z.div_mod_to_equations; lia).
    unfold days_in_month. cbn [Z.eqb Pos.eqb orb]. Z.div_mod_to_equations. lia.
  - replace ((12 * y + 2 - 3 + 1) / 12) with (y - 1 + 1) by (Z.div_mod_to_equations; lia).
    replace ((12 * y + 2 - 3 + 1) mod 12) with 0 by (Z.div_mod_to_equations; lia).
    replace ((12 * y + 2 - 3) / 12) with (y - 1) by (Z.div_mod_to_equations; lia).
    replace ((12 * y + 2 - 3) mod 12) with 11 by (Z.div_mod_to_equations; lia).
    rewrite march_first_step. replace (y - 1 + 1) with y by lia.
    unfold days_in_month. cbn [Z.eqb Pos.eqb].
    destruct (is_leap y); Z.div_mod_to_equations; lia.
  - replace ((12 * y + m - 3 + 1) / 12) with y by (Z.div_mod_to_equations; lia).
    replace ((12 * y + m - 3 + 1) mod 12) with (m - 2) by (Z.div_mod_to_equations; lia).
    replace ((12 * y + m - 3) / 12) with y by (Z.div_mod_to_equations; lia).
    replace ((12 * y + m - 3) mod 12) with (m - 3) by (Z.div_mod_to_equations; lia).
    unfold days_in_month.
    repeat (destruct C as [->|C];
            [cbn [Z.eqb Pos.eqb orb]; Z.div_mod_to_equations; lia|]).
    subst m. cbn [Z.eqb Pos.eqb orb]. Z.div_mod_to_equations. lia.
Qed.

Lemma days_in_month_bounds y m : 28 <= days_in_month y m <= 31.
Proof. unfold days_in_month. repeat (destruct (_ : bool)); lia. Qed.

(** Every month has its key. *)
Lemma month_key_exists k : exists y m, 1 <= m <= 12 /\ k = month_key y m.
Proof.
  exists ((k + 2) / 12), ((k + 2) mod 12 + 1). unfold month_key.
  Z.div_mod_to_equations. lia.
Qed.

Lemma month_first_next k : month_first k + 28 <= month_first (k + 1).
Proof.
  destruct (month_key_exists k) as (y & m & Hm & ->).
  rewrite (month_first_step y m Hm). pose proof (days_in_month_bounds y m). lia.
Qed.

(** Later months start after earlier months end. *)
Lemma month_first_later y m k :
  1 <= m <= 12 -> month_key y m < k ->
  month_first (month_key y m) + days_in_month y m <= month_first k.
Proof.
  intros Hm Hlt.
  replace k with (month_key y m + 1 + Z.of_nat (Z.to_nat (k - month_key y m - 1))) by lia.
  induction (Z.to_nat (k - month_key y m - 1)) as [|n IH].
  - rewrite Z.add_0_r, (month_first_step y m Hm). lia.
  - rewrite Nat2Z.inj_succ.
    pose proof (month_first_next (month_key y m + 1 + Z.of_nat n)) as Hn.
    replace (month_key y m + 1 + Z.succ (Z.of_nat n))
      with (month_key y m + 1 + Z.of_nat n + 1) by lia.
    lia.
Qed.

(** Of two days, the later one has the later date. *)
Lemma civil_from_days_mono z1 z2 y1 m1 d1 y2 m2 d2 :
  civil_from_days z1 = (y1, m1, d1) ->
  civil_from_days z2 = (y2, m2, d2) ->
  z1 < z2 ->
  y1 < y2 \/ (y1 = y2 /\ (m1 < m2 \/ (m1 = m2 /\ d1 < d2))).
Proof.
  intros H1 H2 Hlt.
  apply civil_from_days_sound in H1. destruct H1 as (Hm1 & Hd1 & Hz1 & _).
  apply civil_from_days_sound in H2. destruct H2 as (Hm2 & Hd2 & Hz2 & _).
  pose proof (days_by_month y1 m1 d1 Hm1) as E1.
  pose proof (days_by_month y2 m2 d2 Hm2) as E2.
  rewrite Hz1 in E1. rewrite Hz2 in E2.
  destruct (Z.lt_trichotomy (month_key y1 m1) (month_key y2 m2)) as [Hk|[Hk|Hk]].
  - unfold month_key in Hk. lia.
  - assert (y1 = y2 /\ m1 = m2) as [-> ->] by (unfold month_key in Hk; lia).
    right. split; [reflexivity|]. right. split; [reflexivity|]. lia.
  - pose proof (month_first_later y2 m2 _ Hm2 Hk). lia.
Qed.

Lemma string_compare_chars l1 : forall l2,
  String.compare (string_of_list_ascii l1) (string_of_list_ascii l2) = chars_compare l1 l2.
Proof.
  induction l1 as [|c1 r1 IH]; intros [|c2 r2]; try reflexivity.
  cbn [string_of_list_ascii String.compare chars_compare]. rewrite IH.
  destruct (Ascii.compare c1 c2); reflexivity.
Qed.

Lemma digit_compare a b :
  0 <= a < 10 -> 0 <= b < 10 -> Ascii.compare (digit_char a) (digit_char b) = (a ?= b).
Proof.
  intros Ha Hb.
  pose proof (digit_cases a Ha) as Ca. pose proof (digit_cases b Hb) as Cb.
  repeat (destruct Ca as [Ca|Ca]; [subst a|]); [..|subst a];
    repeat (destruct Cb as [Cb|Cb]; [subst b|]); try subst b; reflexivity.
Qed.

Lemma compare_by_digits a b :
  (a ?= b) = match a / 10 ?= b / 10 with
             | Eq => a mod 10 ?= b mod 10
             | Lt => Lt
             | Gt => Gt
             end.
Proof.
  destruct (Z.compare_spec (a / 10) (b / 10)) as [E|E|E].
  - destruct (Z.compare_spec (a mod 10) (b mod 10)) as [F|F|F];
      [apply Z.compare_eq_iff | apply Z.compare_lt_iff | apply Z.compare_gt_iff];
      Z.div_mod_to_equations; lia.
  - apply Z.compare_lt_iff. Z.div_mod_to_equations. lia.
  - apply Z.compare_gt_iff. Z.div_mod_to_equations. lia.
Qed.

(** Numbers printed with the same number of digits compare, as texts, as
    they do as numbers. *)
Lemma compare_pad w : forall a b r1 r2,
  0 <= a < 10 ^ Z.of_nat w -> 0 <= b < 10 ^ Z.of_nat w ->
  chars_compare (pad w a ++ r1) (pad w b ++ r2) =
  match a ?= b with
  | Eq => chars_compare r1 r2
  | Lt => Lt
  | Gt => Gt
  end.
Proof.
  induction w as [|w IH]; intros a b r1 r2 Ha Hb.
  - change (10 ^ Z.of_nat 0) with 1 in *.
    replace a with 0 by lia. replace b with 0 by lia. reflexivity.
  - rewrite Nat2Z.inj_succ, Z.pow_succ_r in * by lia.
    cbn [pad]. rewrite <- !app_assoc. cbn [List.app].
    rewrite IH by (split; [apply Z.div_pos; lia | apply Z.div_lt_upper_bound; lia]).
    rewrite (compare_by_digits a b).
    destruct (a / 10 ?= b / 10); try reflexivity.
    cbn [chars_compare]. rewrite digit_compare by (apply Z.mod_pos_bound; lia).
    reflexivity.
Qed.

Lemma compare_mark c r1 r2 : chars_compare (c :: r1) (c :: r2) = chars_compare r1 r2.
Proof.
  cbn [chars_compare]. unfold Ascii.compare. rewrite N.compare_refl. reflexivity.
Qed.

Lemma time_of_day_fields t :
  0 <= HourFromTime t <= 23 /\ 0 <= MinFromTime t <= 59 /\
  0 <= SecFromTime t <= 59 /\ 0 <= msFromTime t <= 999 /\
  t = Day t * msPerDay + HourFromTime t * 3600000 + MinFromTime t * 60000
      + SecFromTime t * 1000 + msFromTime t.
Proof.
  unfold HourFromTime, MinFromTime, SecFromTime, msFromTime.
  pose proof (time_fields (TimeWithinDay t)
                (Z.mod_pos_bound t msPerDay ltac:(reflexivity)))
    as (Hh & Hmi & Hs & Hms & Hsum).
  repeat (split; [assumption|]).
  unfold Day, TimeWithinDay in *.
  pose proof (Z.div_mod t msPerDay ltac:(unfold msPerDay; lia)). lia.
Qed.

(** The timestamps of two dates with four-digit years compare as their
    fields do. *)
Lemma timestamp_compare_fields t1 t2 :
  0 <= YearFromTime t1 <= 9999 -> 0 <= YearFromTime t2 <= 9999 ->
  String.compare (toISOString t1) (toISOString t2) = fields_compare (fields t1) (fields t2).
Proof.
  unfold YearFromTime, toISOString, fields, year_digits.
  destruct (civil_from_days (Day t1)) as [[y1 m1] d1] eqn:H1.
  destruct (civil_from_days (Day t2)) as [[y2 m2] d2] eqn:H2.
  cbn [fst]. intros Hy1 Hy2.
  apply civil_from_days_sound in H1. destruct H1 as (Hm1 & Hd1 & _ & _).
  apply civil_from_days_sound in H2. destruct H2 as (Hm2 & Hd2 & _ & _).
  pose proof (days_in_month_bounds y1 m1). pose proof (days_in_month_bounds y2 m2).
  destruct (time_of_day_fields t1) as (Hh1 & Hmi1 & Hs1 & Hms1 & _).
  destruct (time_of_day_fields t2) as (Hh2 & Hmi2 & Hs2 & Hms2 & _).
  rewrite !(proj2 (andb_true_iff _ _)) by (split; apply Z.leb_le; lia).
  rewrite string_compare_chars.
  assert (P2 : 10 ^ Z.of_nat 2 = 100) by reflexivity.
  assert (P3 : 10 ^ Z.of_nat 3 = 1000) by reflexivity.
  assert (P4 : 10 ^ Z.of_nat 4 = 10000) by reflexivity.
  cbn [fields_compare].
  repeat (rewrite compare_pad by lia;
          match goal with |- context [?a ?= ?b] => destruct (a ?= b) end;
          try reflexivity; try rewrite compare_mark).
Qed.

(** Within a day, the fields of the time compare as the instants do. *)
Lemma fields_compare_same_day t1 t2 :
  Day t1 = Day t2 ->
  fields_compare [HourFromTime t1; MinFromTime t1; SecFromTime t1; msFromTime t1]
                 [HourFromTime t2; MinFromTime t2; SecFromTime t2; msFromTime t2]
  = (t1 ?= t2).
Proof.
  intros Hday.
  destruct (time_of_day_fields t1) as (Hh1 & Hmi1 & Hs1 & Hms1 & E1).
  destruct (time_of_day_fields t2) as (Hh2 & Hmi2 & Hs2 & Hms2 & E2).
  rewrite Hday in E1. cbn [fields_compare].
  symmetry.
  destruct (Z.compare_spec (HourFromTime t1) (HourFromTime t2));
    [|apply Z.compare_lt_iff; lia | apply Z.compare_gt_iff; lia].
  destruct (Z.compare_spec (MinFromTime t1) (MinFromTime t2));
    [|apply Z.compare_lt_iff; lia | apply Z.compare_gt_iff; lia].
  destruct (Z.compare_spec (SecFromTime t1) (SecFromTime t2));
    [|apply Z.compare_lt_iff; lia | apply Z.compare_gt_iff; lia].
  destruct (Z.compare_spec (msFromTime t1) (msFromTime t2));
    [apply Z.compare_eq_iff; lia | apply Z.compare_lt_iff; lia | apply Z.compare_gt_iff; lia].
Qed.

Lemma fields_compare_earlier_day t1 t2 :
  Day t1 < Day t2 -> fields_compare (fields t1) (fields t2) = Lt /\ t1 < t2.
Proof.
  intros Hlt. split.
  - unfold fields.
    destruct (civil_from_days (Day t1)) as [[y1 m1] d1] eqn:H1.
    destruct (civil_from_days (Day t2)) as [[y2 m2] d2] eqn:H2.
    pose proof (civil_from_days_mono _ _ _ _ _ _ _ _ H1 H2 Hlt) as Hd.
    cbn [fields_compare].
    destruct Hd as [Hy|(-> & [Hm|(-> & Hd)])].
    + rewrite (proj2 (Z.compare_lt_iff _ _) Hy). reflexivity.
    + rewrite Z.compare_refl, (proj2 (Z.compare_lt_iff _ _) Hm). reflexivity.
    + rewrite !Z.compare_refl, (proj2 (Z.compare_lt_iff _ _) Hd). reflexivity.
  - unfold Day, msPerDay in Hlt. Z.div_mod_to_equations. lia.
Qed.

Lemma fields_compare_sym f1 : forall f2,
  List.length f1 = List.length f2 ->
  fields_compare f2 f1 = CompOpp (fields_compare f1 f2).
Proof.
  induction f1 as [|a r1 IH]; intros [|b r2] Hl; try reflexivity; try discriminate Hl.
  cbn [fields_compare]. rewrite (Z.compare_antisym a b).
  destruct (a ?= b); cbn [CompOpp]; [apply IH; injection Hl; auto | reflexivity ..].
Qed.

Lemma fields_length t : List.length (fields t) = 7%nat.
Proof. unfold fields. destruct (civil_from_days (Day t)) as [[y m] d]. reflexivity. Qed.

(** The fields of two instants compare as the instants do. *)
Lemma fields_compare_instants t1 t2 :
  fields_compare (fields t1) (fields t2) = (t1 ?= t2).
Proof.
  destruct (Z.lt_trichotomy (Day t1) (Day t2)) as [Hlt|[Heq|Hgt]].
  - destruct (fields_compare_earlier_day t1 t2 Hlt) as [-> H].
    symmetry. apply Z.compare_lt_iff. exact H.
  - pose proof (fields_compare_same_day t1 t2 Heq) as H.
    unfold fields. rewrite Heq.
    destruct (civil_from_days (Day t2)) as [[y m] d].
    cbn [fields_compare]. rewrite !Z.compare_refl. exact H.
  - destruct (fields_compare_earlier_day t2 t1 Hgt) as [H1 H2].
    rewrite fields_compare_sym by (rewrite !fields_length; reflexivity).
    rewrite H1. symmetry. apply Z.compare_gt_iff. exact H2.
Qed.

(** The instants of the years 0000 to 9999. *)
Lemma four_digit_year t :
  minFourDigits <= t <= maxFourDigits -> 0 <= YearFromTime t <= 9999.
Proof.
  intros [Hlo Hhi]. unfold YearFromTime.
  destruct (civil_from_days (Day t)) as [[y m] d] eqn:Ht. cbn [fst].
  assert (Hm : 1 <= m <= 12) by (apply civil_from_days_sound in Ht; tauto).
  assert (Hd : 1 <= d <= 31).
  { pose proof (days_in_month_bounds y m). apply civil_from_days_sound in Ht. lia. }
  assert (Llo : civil_from_days (Day minFourDigits) = (0, 1, 1)) by (vm_compute; reflexivity).
  assert (Lhi : civil_from_days (Day maxFourDigits) = (9999, 12, 31))
    by (vm_compute; reflexivity).
  assert (Dlo : Day minFourDigits <= Day t) by (apply Z.div_le_mono; [reflexivity | exact Hlo]).
  assert (Dhi : Day t <= Day maxFourDigits)
    by (apply Z.div_le_mono; [reflexivity | exact Hhi]).
  split.
  - destruct (Z.eq_dec (Day minFourDigits) (Day t)) as [E|E].
    + rewrite <- E, Llo in Ht. injection Ht as <- _ _. lia.
    + pose proof (civil_from_days_mono _ _ _ _ _ _ _ _ Llo Ht ltac:(lia)). lia.
  - destruct (Z.eq_dec (Day t) (Day maxFourDigits)) as [E|E].
    + rewrite E, Lhi in Ht. injection Ht as <- _ _. lia.
    + pose proof (civil_from_days_mono _ _ _ _ _ _ _ _ Ht Lhi ltac:(lia)). lia.
Qed.

Lemma pad_length w : forall n, List.length (pad w n) = w.
Proof.
  induction w as [|w IH]; intros n; [reflexivity|].
  cbn [pad]. rewrite length_app, IH. cbn. lia.
Qed.

Lemma string_length_chars l : String.length (string_of_list_ascii l) = List.length l.
Proof. induction l as [|c l IH]; [reflexivity | cbn; rewrite IH; reflexivity]. Qed.

(** For the instants of the years 0000 to 9999, the timestamps compare as
    strings exactly as the instants compare as numbers. *)
Lemma compare_timestamps t1 t2 :
  minFourDigits <= t1 <= maxFourDigits ->
  minFourDigits <= t2 <= maxFourDigits ->
  String.compare (toISOString t1) (toISOString t2) = (t1 ?= t2).
Proof.
  intros H1 H2.
  rewrite (timestamp_compare_fields t1 t2 (four_digit_year t1 H1) (four_digit_year t2 H2)).
  apply fields_compare_instants.
Qed.

End Chronology.
(** ** Entity tags *)

Section EntityTags.

Import Etag.

(** The digest of the standard test message, and the entity tags of two
    bodies as Express sends them: [Hello World!] and the body of the
    automatic reply to OPTIONS. *)
Example sha1_abc :
  sha1 (octets "abc")
  = [169; 153; 62; 54; 71; 6; 129; 106; 186; 62; 37; 113; 120; 80; 194; 108; 156; 208;
     216; 157].
Proof. vm_compute. reflexivity. Qed.

Example wetag_hello :
  wetag "Hello World!" = "W/" +:+ dq +:+ "c-Lve95gjOVATpfV8EL5X4nxwjKHE" +:+ dq.
Proof. vm_compute. reflexivity. Qed.

Example wetag_options :
  wetag "GET,HEAD" = "W/" +:+ dq +:+ "8-ZRAf8oNBS3Bjb/SU2GYZCmbtmXg" +:+ dq.
Proof. vm_compute. reflexivity. Qed.

End EntityTags.

(** ** The router *)

Section Router.

Import Express.

Lemma appendMethods_grows addition : forall acc,
  acc <> [] -> appendMethods acc addition <> [].
Proof.
  induction addition as [|m rest IH]; intros acc Hacc; [exact Hacc|].
  cbn [appendMethods]. apply IH.
  destruct (existsb (String.eqb m) acc); [exact Hacc|].
  destruct acc; discriminate.
Qed.

Lemma appendMethods_cons acc m rest : appendMethods acc (m :: rest) <> [].
Proof.
  change (appendMethods acc (m :: rest))
    with (appendMethods (if existsb (String.eqb m) acc then acc else (acc ++ [m])%list) rest).
  apply appendMethods_grows.
  destruct (existsb (String.eqb m) acc) eqn:E.
  - destruct acc; [discriminate E | discriminate].
  - destruct acc; discriminate.
Qed.

(** Only a request that carries [If-None-Match], and no
    [If-Modified-Since], can be validated. *)
Lemma fresh_needs_tag req tag :
  fresh req tag = true ->
  truthy (if_none_match req) = true /\ truthy (if_modified_since req) = false.
Proof.
  unfold fresh.
  destruct (truthy (if_modified_since req)), (truthy (if_none_match req));
    cbn [negb andb]; cbv iota.
  - destruct (match cache_control req with Some v => no_cache v | None => false end);
      [discriminate|].
    destruct (match if_none_match req with
              | Some (String c s) => _ | _ => false end); discriminate.
  - destruct (match cache_control req with Some v => no_cache v | None => false end);
      [discriminate|].
    destruct (match if_none_match req with
              | Some (String c s) => _ | _ => false end); discriminate.
  - auto.
  - discriminate.
Qed.

(** The two forms of the response of [res.send]. *)
Lemma res_send_cases req media body c :
  (req_fresh req (Etag.wetag body) = true /\
   res_send req media body c =
     {| status := 304; media_type := None; allow := None;
        etag := Some (Etag.wetag body); content := NoContent |}) \/
  (req_fresh req (Etag.wetag body) = false /\
   res_send req media body c =
     {| status := 200; media_type := Some media; allow := None;
        etag := Some (Etag.wetag body);
        content := if Method_eqb (method req) HEAD then NoContent else c |}).
Proof.
  unfold res_send. destruct (req_fresh req (Etag.wetag body)); [left | right]; auto.
Qed.

Lemma res_json_status req obj :
  status (res_json req obj)
  = if req_fresh req (Etag.wetag (Json.stringify obj)) then 304 else 200.
Proof.
  unfold res_json, res_send.
  destruct (req_fresh req (Etag.wetag (Json.stringify obj))); reflexivity.
Qed.

Lemma res_json_content req obj :
  content (res_json req obj)
  = if req_fresh req (Etag.wetag (Json.stringify obj)) || Method_eqb (method req) HEAD
    then NoContent else JsonText obj.
Proof.
  unfold res_json, res_send.
  destruct (req_fresh req (Etag.wetag (Json.stringify obj))); reflexivity.
Qed.

Lemma res_json_media_type req obj :
  media_type (res_json req obj)
  = if req_fresh req (Etag.wetag (Json.stringify obj)) then None else Some json_type.
Proof.
  unfold res_json, res_send.
  destruct (req_fresh req (Etag.wetag (Json.stringify obj))); reflexivity.
Qed.

Lemma res_json_allow req obj : allow (res_json req obj) = None.
Proof.
  unfold res_json, res_send.
  destruct (req_fresh req (Etag.wetag (Json.stringify obj))); reflexivity.
Qed.

(** What the body parser rejects announces JSON and has a body. *)
Lemma json_rejects req e :
  json req = next_err e ->
  typeis (content_type req) "application/json" = true /\ exists bytes, body req = Some bytes.
Proof.
  unfold json. destruct (body req) as [bytes|]; [|discriminate].
  destruct (typeis (content_type req) "application/json"); [eauto | discriminate].
Qed.

(** Media types that the body parser takes for JSON, and some it does
    not: parameters that are not well formed make the header invalid. *)
Example typeis_samples :
  typeis (Some "application/json") "application/json" = true /\
  typeis (Some "Application/JSON; charset=utf-8") "application/json" = true /\
  typeis (Some "application/json;") "application/json" = false /\
  typeis (Some "application/json; charset") "application/json" = false /\
  typeis (Some "application/vnd.api+json") "application/json" = false /\
  typeis (Some "text/plain") "application/json" = false /\
  typeis None "application/json" = false.
Proof. repeat split. Qed.

Example charset_samples :
  getCharset (Some "application/json; charset=UTF-8") = Some "utf-8" /\
  getCharset (Some "application/json") = Some EmptyString /\
  getDecoder "utf-8" = Some utf8 /\
  getDecoder "utf-16le" = Some other /\
  getDecoder "utf-9" = None /\
  starts_with_utf "utf8" = false /\
  starts_with_utf "iso-8859-1" = false.
Proof. repeat split. Qed.

End Router.
(** ** [index.js] *)

Section Service.

Import Express Index.

Variable env : JS.environment.

(** A request that the body parser rejects goes to the final handler with
    the parser's error. *)
Lemma handle_rejected req clk e :
  json req = next_err e ->
  handle (app env) req clk = final_error (env_setting (express env)) req e.
Proof.
  intros H. unfold handle, app, app_get, app_use, express.
  cbn [stack env_setting List.app walk]. rewrite H. reflexivity.
Qed.

Lemma stderr_rejected req clk e :
  json req = next_err e ->
  stderr (app env) req clk = logerror (env_setting (express env)) e.
Proof.
  intros H. unfold stderr, app, app_get, app_use, express.
  cbn [stack env_setting List.app walk]. rewrite H. reflexivity.
Qed.

(** A request that the body parser passes on is answered by the first
    route that matches its path when the method is GET or HEAD; otherwise
    the router is done without an error, with the methods of the matching
    routes when the method is OPTIONS. *)
Lemma walk_passed req clk :
  json req = next ->
  walk (stack (app env)) [] req clk =
  if handles_method (method req) then
    if match_path "/" (path req) then sent (res_json req (root req clk))
    else if match_path "/health" (path req) then sent (res_json req (health req clk))
    else if match_path "/test-ci" (path req) then sent (res_json req (test_ci req clk))
    else if match_path "/test-docker-ecr-app-runner" (path req)
         then sent (res_json req (test_docker_ecr_app_runner req clk))
    else done None []
  else done None (if Method_eqb (method req) OPTIONS && registered (path req)
                  then route_options else []).
Proof.
  intros H. unfold app, app_get, app_use, express, registered, routes.
  cbn [stack env_setting List.app walk existsb]. rewrite H.
  destruct (match_path "/" (path req)), (match_path "/health" (path req)),
    (match_path "/test-ci" (path req)),
    (match_path "/test-docker-ecr-app-runner" (path req)), (method req); reflexivity.
Qed.

Lemma handle_passed req clk :
  json req = next ->
  handle (app env) req clk =
  if handles_method (method req) then
    if match_path "/" (path req) then res_json req (root req clk)
    else if match_path "/health" (path req) then res_json req (health req clk)
    else if match_path "/test-ci" (path req) then res_json req (test_ci req clk)
    else if match_path "/test-docker-ecr-app-runner" (path req)
         then res_json req (test_docker_ecr_app_runner req clk)
    else not_found req
  else if Method_eqb (method req) OPTIONS && registered (path req)
       then send_options route_options
       else not_found req.
Proof.
  intros H. unfold handle, finish. rewrite (walk_passed req clk H).
  destruct (match_path "/" (path req)), (match_path "/health" (path req)),
    (match_path "/test-ci" (path req)),
    (match_path "/test-docker-ecr-app-runner" (path req)),
    (registered (path req)), (method req); reflexivity.
Qed.

Lemma stderr_passed req clk :
  json req = next -> stderr (app env) req clk = [].
Proof.
  intros H. unfold stderr. rewrite (walk_passed req clk H).
  destruct (handles_method (method req)); [|reflexivity].
  destruct (match_path "/" (path req)), (match_path "/health" (path req)),
    (match_path "/test-ci" (path req)),
    (match_path "/test-docker-ecr-app-runner" (path req)); reflexivity.
Qed.

(** The status of the response to a request that the body parser passes
    on. *)
Lemma handle_status req clk :
  json req = next ->
  let s := status (handle (app env) req clk) in
  (registered (path req) && answered (method req) = false -> s = 404) /\
  (registered (path req) && answered (method req) = true -> s = 200 \/ s = 304) /\
  (s = 304 ->
   handles_method (method req) = true /\ truthy (if_none_match req) = true /\
   truthy (if_modified_since req) = false).
Proof.
  intros H s. subst s. rewrite (handle_passed req clk H).
  unfold registered, answered, routes. cbn [existsb].
  assert (Hres : forall obj,
    (status (res_json req obj) = 200 \/ status (res_json req obj) = 304) /\
    (status (res_json req obj) = 304 ->
     handles_method (method req) = true /\ truthy (if_none_match req) = true /\
     truthy (if_modified_since req) = false)).
  { intros obj. rewrite res_json_status. unfold req_fresh.
    destruct (handles_method (method req)) eqn:Hh; cbn [andb].
    - destruct (fresh req (Etag.wetag (Json.stringify obj))) eqn:Hf.
      + split; [auto|]. intros _. split; [reflexivity|]. exact (fresh_needs_tag _ _ Hf).
      + split; [auto | discriminate].
    - split; [auto | discriminate]. }
  destruct (handles_method (method req)) eqn:Hh.
  - destruct (match_path "/" (path req)), (match_path "/health" (path req)),
      (match_path "/test-ci" (path req)),
      (match_path "/test-docker-ecr-app-runner" (path req));
      cbn [orb andb];
      first [ split; [discriminate|]; split; [intros _|]; apply Hres
            | split; [reflexivity|]; split; discriminate ].
  - destruct (match_path "/" (path req)), (match_path "/health" (path req)),
      (match_path "/test-ci" (path req)),
      (match_path "/test-docker-ecr-app-runner" (path req)),
      (Method_eqb (method req) OPTIONS);
      cbn [orb andb];
      first [ split; [discriminate|]; split; [intros _; left; reflexivity | discriminate]
            | split; [reflexivity|]; split; discriminate ].
Qed.

(** A GET for one of the four paths reaches the handler of that path. *)
Lemma handle_root req clk :
  passes_to "/" req -> handle (app env) req clk = res_json req (root req clk).
Proof.
  intros (Hm & Hp & Hj). rewrite (handle_passed req clk Hj), Hm, Hp. reflexivity.
Qed.

Lemma handle_health req clk :
  passes_to "/health" req -> handle (app env) req clk = res_json req (health req clk).
Proof.
  intros (Hm & Hp & Hj). rewrite (handle_passed req clk Hj), Hm, Hp. reflexivity.
Qed.

Lemma handle_test_ci req clk :
  passes_to "/test-ci" req -> handle (app env) req clk = res_json req (test_ci req clk).
Proof.
  intros (Hm & Hp & Hj). rewrite (handle_passed req clk Hj), Hm, Hp. reflexivity.
Qed.

Lemma handle_test_docker req clk :
  passes_to "/test-docker-ecr-app-runner" req ->
  handle (app env) req clk = res_json req (test_docker_ecr_app_runner req clk).
Proof.
  intros (Hm & Hp & Hj). rewrite (handle_passed req clk Hj), Hm, Hp. reflexivity.
Qed.

Lemma handle_test_ci_only req clk :
  passes_to "/test-ci" req ->
  handle (app_test_ci_only env) req clk = res_json req (test_ci req clk).
Proof.
  intros (Hm & Hp & Hj). unfold handle, app_test_ci_only, app_get, app_use, express.
  cbn [stack env_setting List.app walk]. rewrite Hj, Hp, Hm. reflexivity.
Qed.

(** The members of the body of [res.json(obj)] are members of [obj]. *)
Lemma res_json_text req obj obj' :
  content (res_json req obj) = JsonText obj' -> obj' = obj.
Proof.
  rewrite res_json_content.
  destruct (req_fresh req _ || Method_eqb (method req) HEAD); congruence.
Qed.

(** Only the responses of the routes carry a JSON text. *)
Lemma handle_text req clk obj :
  content (handle (app env) req clk) = JsonText obj ->
  json req = next /\
  (obj = root req clk \/ obj = health req clk \/ obj = test_ci req clk \/
   obj = test_docker_ecr_app_runner req clk) /\
  handle (app env) req clk = res_json req obj.
Proof.
  destruct (json req) as [|e] eqn:Hj.
  - rewrite (handle_passed req clk Hj). split; [reflexivity|].
    destruct (handles_method (method req)).
    + destruct (match_path "/" (path req));
        [apply res_json_text in H; subst obj; auto|].
      destruct (match_path "/health" (path req));
        [apply res_json_text in H; subst obj; auto|].
      destruct (match_path "/test-ci" (path req));
        [apply res_json_text in H; subst obj; auto|].
      destruct (match_path "/test-docker-ecr-app-runner" (path req));
        [apply res_json_text in H; subst obj; auto 6|].
      unfold not_found in H. cbn [content] in H.
      destruct (Method_eqb (method req) HEAD); discriminate H.
    + destruct (Method_eqb (method req) OPTIONS && registered (path req));
        [discriminate H|].
      unfold not_found in H. cbn [content] in H.
      destruct (Method_eqb (method req) HEAD); discriminate H.
  - rewrite (handle_rejected req clk e Hj). unfold final_error. cbn [content].
    destruct (Method_eqb (method req) HEAD), (is_production (env_setting (express env)));
      discriminate.
Qed.

(** Only the health handler reports an uptime, and it reports the floor
    of the clock's reading. *)
Lemma reported_uptime_floor req clk u :
  reported_uptime (handle (app env) req clk) = Some u ->
  u = Math.floor (uptime clk).
Proof.
  unfold reported_uptime.
  destruct (content (handle (app env) req clk)) as [obj| | | |] eqn:Hc; try discriminate.
  destruct (handle_text req clk obj Hc) as (_ & [-> | [-> | [-> | ->]]] & _);
    cbn; congruence.
Qed.

End Service.

(** ** The process *)

Section Process.

Import Express Index.

Lemma run_fixed p evs : fst (Node.run p evs) = p.
Proof.
  induction evs as [|ev rest IH]; [reflexivity|].
  cbn [Node.run Node.step]. destruct (Node.run p rest) as [p2 rs]. exact IH.
Qed.

Lemma main_port env os port :
  Node.listen_port (snd (main env os)) = Some port -> port = PORT env.
Proof.
  unfold main, Node.app_listen. destruct (os 0%nat); cbn; congruence.
Qed.

Lemma main_ts_port env os port :
  Node.listen_port (snd (main_ts env os)) = Some port -> port = PORT_ts env.
Proof.
  unfold main_ts, Node.app_listen. destruct (os 0%nat); cbn; congruence.
Qed.

End Process.

Section Settings.

Import Express.

(** The [env] setting is [production] exactly when [NODE_ENV] is, and
    [test] exactly when [NODE_ENV] is. *)
Lemma production_setting (env : JS.environment) :
  is_production (env_setting (express env)) = true <->
  env !! "NODE_ENV" = Some "production".
Proof.
  unfold express, JS.env_get. cbn [env_setting].
  destruct (env !! "NODE_ENV") as [s|]; [|split; discriminate].
  destruct s as [|c s].
  - split; discriminate.
  - cbn [JS.or JS.ToBoolean is_production]. rewrite String.eqb_eq.
    split; congruence.
Qed.

Lemma test_setting (env : JS.environment) :
  is_test (env_setting (express env)) = true <->
  env !! "NODE_ENV" = Some "test".
Proof.
  unfold express, JS.env_get. cbn [env_setting].
  destruct (env !! "NODE_ENV") as [s|]; [|split; discriminate].
  destruct s as [|c s].
  - split; discriminate.
  - cbn [JS.or JS.ToBoolean is_test]. rewrite String.eqb_eq.
    split; congruence.
Qed.

End Settings.

Section Members.

Import Express Index.

Lemma test_ci_message req clk :
  Json.field "message" (test_ci req clk) = Some (Json.JStr celebration).
Proof. reflexivity. Qed.

Lemma test_ci_timestamp req clk :
  Json.field "timestamp" (test_ci req clk)
  = Some (Json.JStr (Date.toISOString (now clk))).
Proof. reflexivity. Qed.

End Members.
(** ** The claims about the service *)

Section Claims.

Import Express Index Observe.

(** A request without [If-None-Match] is never validated. *)
Lemma unvalidated req obj :
  truthy (if_none_match req) = false -> validates req obj = false.
Proof.
  intros Hn. unfold validates, req_fresh.
  destruct (handles_method (method req)); [|reflexivity]. cbn [andb].
  destruct (fresh req (Etag.wetag (Json.stringify obj))) eqn:Hf; [|reflexivity].
  apply fresh_needs_tag in Hf. destruct Hf as [Hf _]. congruence.
Qed.

(** The response of [res.json] to a GET request. *)
Lemma res_json_get req obj :
  method req = GET ->
  (validates req obj = false ->
   status (res_json req obj) = 200 /\ media_type (res_json req obj) = Some json_type /\
   content (res_json req obj) = JsonText obj /\
   wire_body (res_json req obj) = Some (Json.stringify obj)) /\
  (validates req obj = true ->
   status (res_json req obj) = 304 /\ media_type (res_json req obj) = None /\
   content (res_json req obj) = NoContent /\
   wire_body (res_json req obj) = Some EmptyString).
Proof.
  intros Hm. unfold validates, wire_body.
  rewrite res_json_status, res_json_media_type, res_json_content, Hm.
  cbn [Method_eqb]. rewrite orb_false_r.
  split; intros ->; repeat split.
Qed.

(** C1, as amended.  A request GET [/health] without a body is passed on
    by the JSON body parser.  A request GET [/health] that the parser
    passes on is answered with status 200 and the body
    [{"status":"ok","uptime":u}], where [u] is the floor of the reading of
    [process.uptime()] taken during the call, a non-negative integer,
    unless it is a conditional request that the entity tag of that body
    validates, which is answered with status 304 and no body; a request
    without [If-None-Match] is never validated. *)
Theorem health_response (env : JS.environment) (req : Request) (clk : Clock) :
  method req = GET -> path req = "/health" ->
  (0 <= uptime clk)%Q ->
  let r := handle (app env) req clk in
  let u := Math.floor (uptime clk) in
  let obj := Json.JObj [("status", Json.JStr "ok"); ("uptime", Json.JNum u)] in
  (body req = None -> json req = next) /\
  (truthy (if_none_match req) = false -> validates req obj = false) /\
  (json req = next -> validates req obj = false ->
   status r = 200 /\ media_type r = Some json_type /\ content r = JsonText obj /\
   wire_body r =
     Some ("{" +:+ dq +:+ "status" +:+ dq +:+ ":" +:+ dq +:+ "ok" +:+ dq +:+ ","
           +:+ dq +:+ "uptime" +:+ dq +:+ ":" +:+ JS.decimal u +:+ "}")) /\
  (json req = next -> validates req obj = true ->
   status r = 304 /\ media_type r = None /\ content r = NoContent /\
   wire_body r = Some EmptyString) /\
  0 <= u /\ (inject_Z u <= uptime clk)%Q /\ (uptime clk < inject_Z (u + 1))%Q.
Proof.
  intros Hm Hp Hup r u obj. subst r.
  split; [intros Hb; unfold json; rewrite Hb; reflexivity|].
  split; [apply unvalidated|].
  assert (Hh : json req = next ->
               handle (app env) req clk = res_json req obj).
  { intros Hj. apply (handle_health env req clk). repeat split; assumption. }
  destruct (res_json_get req obj Hm) as [H200 H304].
  split; [|split].
  - intros Hj Hv. rewrite (Hh Hj). destruct (H200 Hv) as (Hs & Ht & Hc & Hw).
    repeat (split; [assumption|]). rewrite Hw. subst obj.
    cbn [Json.stringify List.map fst snd].
    generalize (JS.decimal u). intros d. reflexivity.
  - intros Hj Hv. rewrite (Hh Hj). exact (H304 Hv).
  - split; [|split].
    + change 0 with (Qfloor (inject_Z 0)). apply Qfloor_resp_le. exact Hup.
    + apply Qfloor_le.
    + apply Qlt_floor.
Qed.

Lemma health_response_witness :
  status (handle (app ∅) (plain GET "/health") {| uptime := 7 # 2; now := 0 |}) = 200 /\
  reported_uptime (handle (app ∅) (plain GET "/health") {| uptime := 7 # 2; now := 0 |})
    = Some 3.
Proof.
  assert (Hup : (0 <= uptime {| uptime := 7 # 2; now := 0 |})%Q) by discriminate.
  pose proof (health_response ∅ (plain GET "/health") _ eq_refl eq_refl Hup)
    as (Hj & Hv & H200 & _).
  destruct (H200 (Hj eq_refl) (Hv eq_refl)) as (Hs & _ & Hc & _).
  split; [exact Hs|].
  unfold reported_uptime. rewrite Hc. reflexivity.
Defined.

(** C1 as stated fails: the JSON body parser runs before the route, and a
    GET for [/health] whose JSON body is malformed is answered with 400. *)
Lemma health_request_rejected :
  status (handle (app ∅) (with_json GET "/health" "{") at_start) = 400.
Proof. reflexivity. Qed.

(** Two more requests GET [/health] that are not answered with 200 and
    the body: one that announces a charset outside the UTF family, and a
    conditional one. *)
Example health_request_charset :
  status (handle (app ∅)
            (with_body GET "/health" "application/json; charset=iso-8859-1" "{}") at_start)
  = 415.
Proof. reflexivity. Qed.

Example health_request_validated :
  status (handle (app ∅) (if_none GET "/health" "*") at_start) = 304 /\
  content (handle (app ∅) (if_none GET "/health" "*") at_start) = NoContent.
Proof. split; reflexivity. Qed.

(** C2, as amended.  A request GET [/] without a body is passed on by the
    JSON body parser.  A request GET [/] that the parser passes on is
    answered with status 200 and exactly the body
    [{"message":"Hello from root API"}], whatever the clocks read and
    whatever the query string is, unless it is a conditional request that
    the entity tag of that body validates, which is answered with status
    304 and no body. *)
Theorem root_response (env : JS.environment) (req : Request) (clk : Clock) :
  method req = GET -> path req = "/" ->
  let r := handle (app env) req clk in
  let obj := Json.JObj [("message", Json.JStr "Hello from root API")] in
  (body req = None -> json req = next) /\
  (truthy (if_none_match req) = false -> validates req obj = false) /\
  (json req = next -> validates req obj = false ->
   status r = 200 /\ media_type r = Some json_type /\ content r = JsonText obj /\
   wire_body r =
     Some ("{" +:+ dq +:+ "message" +:+ dq +:+ ":" +:+ dq +:+ "Hello from root API"
           +:+ dq +:+ "}")) /\
  (json req = next -> validates req obj = true ->
   status r = 304 /\ media_type r = None /\ content r = NoContent /\
   wire_body r = Some EmptyString).
Proof.
  intros Hm Hp r obj. subst r.
  split; [intros Hb; unfold json; rewrite Hb; reflexivity|].
  split; [apply unvalidated|].
  assert (Hh : json req = next ->
               handle (app env) req clk = res_json req obj).
  { intros Hj. apply (handle_root env req clk). repeat split; assumption. }
  destruct (res_json_get req obj Hm) as [H200 H304].
  split.
  - intros Hj Hv. rewrite (Hh Hj). exact (H200 Hv).
  - intros Hj Hv. rewrite (Hh Hj). exact (H304 Hv).
Qed.

Lemma root_response_witness :
  json (with_json GET "/" "{}") = next /\
  status (handle (app ∅) (with_json GET "/" "{}") at_start) = 200 /\
  status (handle (app ∅) (plain GET "/") at_start) = 200.
Proof.
  pose proof (root_response ∅ (with_json GET "/" "{}") at_start eq_refl eq_refl)
    as (_ & Hv & H200 & _).
  pose proof (root_response ∅ (plain GET "/") at_start eq_refl eq_refl)
    as (Hj' & Hv' & H200' & _).
  split; [reflexivity|]. split.
  - exact (proj1 (H200 eq_refl (Hv eq_refl))).
  - exact (proj1 (H200' (Hj' eq_refl) (Hv' eq_refl))).
Defined.

(** C2 as stated fails: the headers and the body matter.  A GET for [/]
    that announces JSON and carries a malformed body is answered with 400
    and an error page. *)
Lemma root_request_rejected :
  status (handle (app ∅) (with_json GET "/" "{") at_start) = 400 /\
  content (handle (app ∅) (with_json GET "/" "{") at_start)
    = ErrorPage (ErrorStack entity_parse_failed).
Proof. split; reflexivity. Qed.

(** A GET for [/] with an [If-None-Match] header that names the entity
    tag of the body is answered with 304 and no body. *)
Example root_request_validated :
  Etag.wetag (Json.stringify (root (plain GET "/") at_start))
    = "W/" +:+ dq +:+ "21-HtH0GhdPrMjDq63HQRzujo/aK6g" +:+ dq /\
  status (handle (app ∅)
            (if_none GET "/" ("W/" +:+ dq +:+ "21-HtH0GhdPrMjDq63HQRzujo/aK6g" +:+ dq))
            at_start) = 304.
Proof. split; vm_compute; reflexivity. Qed.

(** C3.  Of two responses that report an uptime, the one whose call read
    the later value of [process.uptime()] reports the greater or equal
    uptime. *)
Theorem uptime_monotone (env : JS.environment) (req1 req2 : Request) (clk1 clk2 : Clock)
    (u1 u2 : Z) :
  (uptime clk1 <= uptime clk2)%Q ->
  reported_uptime (handle (app env) req1 clk1) = Some u1 ->
  reported_uptime (handle (app env) req2 clk2) = Some u2 ->
  u1 <= u2.
Proof.
  intros Hle H1 H2.
  apply reported_uptime_floor in H1. apply reported_uptime_floor in H2. subst u1 u2.
  apply Qfloor_resp_le. exact Hle.
Qed.

Lemma uptime_monotone_witness :
  reported_uptime (handle (app ∅) (plain GET "/health") {| uptime := 1 # 2; now := 0 |})
    = Some 0 /\
  reported_uptime (handle (app ∅) (plain GET "/health") {| uptime := 5 # 2; now := 0 |})
    = Some 2 /\
  0 <= 2.
Proof.
  split; [reflexivity|]. split; [reflexivity|].
  apply (uptime_monotone ∅ (plain GET "/health") (plain GET "/health")
           {| uptime := 1 # 2; now := 0 |} {| uptime := 5 # 2; now := 0 |} 0 2);
    [discriminate | reflexivity | reflexivity].
Defined.

(** C4, as amended.  For a request that the JSON body parser passes on,
    the status is 404, and not 200, whenever the path matches none of the
    four registered paths (compared without regard to case and with an
    optional trailing slash) or the method is none of GET, HEAD and
    OPTIONS.  On a registered path those three methods are answered with
    200, or with 304: a request without [If-None-Match] gets 200, and 304
    is the answer only to a GET or HEAD request that carries
    [If-None-Match] and no [If-Modified-Since]. *)
Theorem unmatched_is_not_found (env : JS.environment) (req : Request) (clk : Clock) :
  json req = next ->
  (registered (path req) = false \/ answered (method req) = false ->
   status (handle (app env) req clk) = 404) /\
  (registered (path req) = true -> answered (method req) = true ->
   status (handle (app env) req clk) = 200 \/ status (handle (app env) req clk) = 304) /\
  (registered (path req) = true -> answered (method req) = true ->
   truthy (if_none_match req) = false ->
   status (handle (app env) req clk) = 200) /\
  (status (handle (app env) req clk) = 304 ->
   handles_method (method req) = true /\ truthy (if_none_match req) = true /\
   truthy (if_modified_since req) = false).
Proof.
  intros Hj. destruct (handle_status env req clk Hj) as (H404 & H200 & H304).
  split; [|split; [|split]].
  - intros [H | H]; apply H404; rewrite H; [reflexivity | apply andb_false_r].
  - intros Hr Ha. apply H200. rewrite Hr, Ha. reflexivity.
  - intros Hr Ha Hn. destruct H200 as [H | H]; [rewrite Hr, Ha; reflexivity | exact H |].
    apply H304 in H. destruct H as (_ & H & _). congruence.
  - exact H304.
Qed.

Lemma unmatched_is_not_found_witness :
  status (handle (app ∅) (plain POST "/health") at_start) = 404 /\
  status (handle (app ∅) (plain GET "/does-not-exist") at_start) = 404 /\
  status (handle (app ∅) (plain GET "/test-ci") at_start) = 200.
Proof.
  split; [|split].
  - apply (proj1 (unmatched_is_not_found ∅ (plain POST "/health") at_start eq_refl)).
    right. reflexivity.
  - apply (proj1 (unmatched_is_not_found ∅ (plain GET "/does-not-exist") at_start eq_refl)).
    left. reflexivity.
  - apply (proj1 (proj2 (proj2 (unmatched_is_not_found ∅ (plain GET "/test-ci") at_start
                                   eq_refl)))); reflexivity.
Defined.

(** C4 as stated fails: HEAD is not one of the registered GET routes, yet
    a HEAD request for [/] is answered with 200 by the GET route. *)
Lemma head_request_is_served :
  status (handle (app ∅) (plain HEAD "/") at_start) = 200.
Proof. reflexivity. Qed.

(** More requests outside the four method and path pairs that are not
    answered with 404. *)
Example options_request_is_answered :
  handle (app ∅) (plain OPTIONS "/health") at_start = send_options ["GET"; "HEAD"].
Proof. reflexivity. Qed.

Example path_match_is_lax :
  status (handle (app ∅) (plain GET "/HEALTH/") at_start) = 200.
Proof. reflexivity. Qed.

Example post_with_bad_body :
  status (handle (app ∅) (with_json POST "/" "{") at_start) = 400.
Proof. reflexivity. Qed.

Example post_with_charset :
  status (handle (app ∅)
            (with_body POST "/nowhere" "application/json; charset=iso-8859-1" "{}") at_start)
  = 415.
Proof. reflexivity. Qed.

(** C5.  When [PORT] is unset the port is the default, 9001 (3000 in the
    TypeScript variant); when it is set to the decimal text of a number,
    zero included, the port is that text and denotes that number; and the
    port of a serving process is the one resolved at start-up, whatever
    requests it has handled. *)
Theorem port_resolution (env : JS.environment) :
  (env !! "PORT" = None -> PORT env = JS.Num 9001 /\ PORT_ts env = JS.Num 3000) /\
  (forall n, 0 <= n -> env !! "PORT" = Some (JS.decimal n) ->
     PORT env = JS.Str (JS.decimal n) /\ PORT_ts env = JS.Str (JS.decimal n) /\
     JS.ToNumber (PORT env) = Some n) /\
  (forall os evs port,
     Node.listen_port (snd (main env os)) = Some port ->
     port = PORT env /\
     Node.listen_port (fst (Node.run (snd (main env os)) evs)) = Some port) /\
  (forall os evs port,
     Node.listen_port (snd (main_ts env os)) = Some port ->
     port = PORT_ts env /\
     Node.listen_port (fst (Node.run (snd (main_ts env os)) evs)) = Some port).
Proof.
  split; [|split; [|split]].
  - intros H. unfold PORT, PORT_ts, resolve_port, JS.env_get. rewrite H. split; reflexivity.
  - intros n Hn H. destruct (decimal_number n Hn) as [Ht Hv].
    unfold PORT, PORT_ts, resolve_port, JS.env_get. rewrite H.
    rewrite !(or_truthy _ _ Ht). cbn [JS.ToNumber]. auto.
  - intros os evs port H. rewrite run_fixed. split; [exact (main_port _ _ _ H) | exact H].
  - intros os evs port H. rewrite run_fixed. split; [exact (main_ts_port _ _ _ H) | exact H].
Qed.

Lemma port_resolution_witness :
  (∅ : JS.environment) !! "PORT" = None /\
  PORT ∅ = JS.Num 9001 /\ PORT_ts ∅ = JS.Num 3000 /\
  (<["PORT" := "0"]> ∅ : JS.environment) !! "PORT" = Some (JS.decimal 0) /\
  PORT (<["PORT" := "0"]> ∅) = JS.Str "0" /\
  JS.ToNumber (PORT (<["PORT" := "0"]> ∅)) = Some 0.
Proof.
  split; [reflexivity|].
  split; [exact (proj1 (proj1 (port_resolution ∅) eq_refl))|].
  split; [exact (proj2 (proj1 (port_resolution ∅) eq_refl))|].
  split; [reflexivity|].
  pose proof (proj1 (proj2 (port_resolution (<["PORT" := "0"]> ∅))) 0 ltac:(lia) eq_refl)
    as (Hp & _ & Hn).
  split; [exact Hp | exact Hn].
Defined.

(** The decoder of a charset whose canonical name is [utf8]. *)
Lemma reads_utf8_spec req :
  reads_utf8 req = true ->
  typeis (content_type req) "application/json" = true /\
  starts_with_utf (charset req) = true /\
  getDecoder (charset req) = Some utf8 /\
  String.eqb (content_coding req) "identity" = true.
Proof.
  unfold reads_utf8. rewrite !andb_true_iff. intros (((Ht & Hu) & Hc) & He).
  repeat split; try assumption.
  unfold getDecoder. rewrite Hc. reflexivity.
Qed.

(** What the body parser makes of a body that it reads as UTF-8 text
    without a content coding. *)
Lemma json_utf8 req bytes :
  body req = Some bytes -> reads_utf8 req = true ->
  json req =
  if too_large (Z.of_nat (String.length bytes)) then next_err entity_too_large
  else parse (strip_bom bytes).
Proof.
  intros Hb Hr. destruct (reads_utf8_spec req Hr) as (Ht & Hu & Hd & He).
  unfold json, read. rewrite Hb, Ht, Hu, Hd, He. cbn [negb decode].
  destruct (chunked req), (too_large (Z.of_nat (String.length bytes))); reflexivity.
Qed.

(** C6, as amended.  The handlers read nothing from the request, but the
    JSON body parser in front of them reads and parses the body of every
    request that announces JSON.  A request without a body, or with
    another media type, is passed on; a request that is passed on is
    answered with 200, 304 or 404 and nothing is logged.  A request whose
    body is rejected announces JSON, carries a body and is answered with
    400, 413 or 415.  In particular, of a body read as UTF-8 text without a
    content coding: one longer than 100kb is answered with 413; a shorter
    one that is not empty and is not the text of a JSON object or array is
    answered with 400; an empty one or the text of an object or array is
    passed on.  A body announced with a charset outside the UTF family,
    or with a content coding other than [identity], [gzip] and [deflate],
    is answered with 415. *)
Theorem request_errors (env : JS.environment) (req : Request) (clk : Clock) :
  let s := status (handle (app env) req clk) in
  (forall req',
     root req clk = root req' clk /\ health req clk = health req' clk /\
     test_ci req clk = test_ci req' clk /\
     test_docker_ecr_app_runner req clk = test_docker_ecr_app_runner req' clk) /\
  (body req = None -> json req = next) /\
  (typeis (content_type req) "application/json" = false -> json req = next) /\
  (json req = next -> (s = 200 \/ s = 304 \/ s = 404) /\ stderr (app env) req clk = []) /\
  (forall e, json req = next_err e ->
   s = error_status e /\
   (s = 400 \/ s = 413 \/ s = 415) /\
   typeis (content_type req) "application/json" = true /\
   exists bytes, body req = Some bytes) /\
  (forall bytes, body req = Some bytes -> reads_utf8 req = true ->
   (limit < Z.of_nat (String.length bytes) -> s = 413) /\
   (Z.of_nat (String.length bytes) <= limit -> strip_bom bytes <> EmptyString ->
    strict_first (strip_bom bytes) && Json.parses (strip_bom bytes) = false -> s = 400) /\
   (Z.of_nat (String.length bytes) <= limit ->
    strip_bom bytes = EmptyString \/
    strict_first (strip_bom bytes) && Json.parses (strip_bom bytes) = true ->
    json req = next)) /\
  (forall bytes, body req = Some bytes ->
   typeis (content_type req) "application/json" = true ->
   starts_with_utf (charset req) = false -> s = 415) /\
  (forall bytes, body req = Some bytes ->
   typeis (content_type req) "application/json" = true ->
   existsb (String.eqb (content_coding req)) ["identity"; "gzip"; "deflate"] = false ->
   s = 415).
Proof.
  intros s. subst s. split; [|split; [|split; [|split; [|split; [|split; [|split]]]]]].
  - intros req'. repeat split.
  - intros H. unfold json. rewrite H. reflexivity.
  - intros H. unfold json. rewrite H. destruct (body req); reflexivity.
  - intros Hj. split; [|exact (stderr_passed env req clk Hj)].
    destruct (handle_status env req clk Hj) as (H404 & H200 & _).
    destruct (registered (path req) && answered (method req)).
    + destruct (H200 eq_refl); auto.
    + right. right. apply H404. reflexivity.
  - intros e He. rewrite (handle_rejected env req clk e He).
    split; [reflexivity|]. split; [destruct e; cbn; auto|].
    exact (json_rejects req e He).
  - intros bytes Hb Hr. pose proof (json_utf8 req bytes Hb Hr) as Hj.
    unfold too_large in Hj. split; [|split].
    + intros Hlen. apply Z.ltb_lt in Hlen. rewrite Hlen in Hj.
      rewrite (handle_rejected env req clk _ Hj). reflexivity.
    + intros Hlen Hne Hbad. apply Z.ltb_ge in Hlen. rewrite Hlen in Hj.
      assert (Hp : parse (strip_bom bytes) = next_err entity_parse_failed).
      { unfold parse. destruct (strip_bom bytes) as [|c t] eqn:E; [congruence|].
        destruct (strict_first (String c t)); cbn [negb]; [|reflexivity].
        cbn [andb] in Hbad. rewrite Hbad. reflexivity. }
      rewrite Hp in Hj. rewrite (handle_rejected env req clk _ Hj). reflexivity.
    + intros Hlen Hok. apply Z.ltb_ge in Hlen. rewrite Hlen in Hj. rewrite Hj.
      unfold parse. destruct (strip_bom bytes) as [|c t] eqn:E; [reflexivity|].
      destruct Hok as [Hok | Hok]; [discriminate Hok|].
      apply andb_true_iff in Hok. destruct Hok as [-> ->]. reflexivity.
  - intros bytes Hb Ht Hu.
    assert (Hj : json req = next_err charset_unsupported).
    { unfold json. rewrite Hb, Ht, Hu. reflexivity. }
    rewrite (handle_rejected env req clk _ Hj). reflexivity.
  - intros bytes Hb Ht Hc. cbn [existsb] in Hc.
    rewrite !orb_false_iff in Hc. destruct Hc as (Hi & Hg & Hd & _).
    assert (Hj : exists e, json req = next_err e /\ error_status e = 415).
    { unfold json, read. rewrite Hb, Ht. cbn [negb]. cbv zeta.
      destruct (starts_with_utf (charset req)); cbn [negb]; [|eauto].
      rewrite Hi, Hg, Hd. eauto. }
    destruct Hj as (e & Hj & He).
    rewrite (handle_rejected env req clk _ Hj). exact He.
Qed.

Lemma request_errors_witness :
  json (plain DELETE "/health") = next /\
  status (handle (app ∅) (with_json PUT "/x" "[1,") at_start) = 400 /\
  json (with_json PUT "/x" "[1,2]") = next /\
  status (handle (app ∅) (with_body PUT "/x" "application/json; charset=latin1" "[1]")
            at_start) = 415.
Proof.
  split; [|split; [|split]].
  - exact (proj1 (proj2 (request_errors ∅ (plain DELETE "/health") at_start)) eq_refl).
  - apply (proj1 (proj2 (proj1 (proj2 (proj2 (proj2 (proj2 (proj2
             (request_errors ∅ (with_json PUT "/x" "[1,") at_start))))))
             "[1," eq_refl eq_refl)));
      [vm_compute; discriminate | discriminate | reflexivity].
  - apply (proj2 (proj2 (proj1 (proj2 (proj2 (proj2 (proj2 (proj2
             (request_errors ∅ (with_json PUT "/x" "[1,2]") at_start))))))
             "[1,2]" eq_refl eq_refl)));
      [vm_compute; discriminate | right; reflexivity].
  - exact (proj1 (proj2 (proj2 (proj2 (proj2 (proj2 (proj2
             (request_errors ∅ (with_body PUT "/x" "application/json; charset=latin1" "[1]")
                at_start))))))) "[1]" eq_refl eq_refl eq_refl).
Defined.

(** C6 as stated fails: the service parses what the caller sends, and a
    POST to [/] with a malformed JSON body is answered with 400, which is
    neither a success nor the not-found status. *)
Lemma malformed_body_is_an_error :
  json (with_json POST "/" "{") = next_err entity_parse_failed /\
  status (handle (app ∅) (with_json POST "/" "{") at_start) = 400.
Proof. split; reflexivity. Qed.

(** Bodies that are valid JSON but neither an object nor an array are
    rejected too; a byte order mark in front of the text is not. *)
Example scalar_body_is_rejected :
  json (with_json POST "/" "1") = next_err entity_parse_failed /\
  json (with_json POST "/" (String "239" (String "187" (String "191" "{}")))) = next /\
  json (with_body POST "/" "application/json;" "{") = next.
Proof. repeat split. Qed.

(** C7, as amended.  A GET request for [/test-ci] that the JSON body
    parser passes on is answered with status 200, the same fixed message
    on every call and the timestamp [toISOString] gives for the reading of
    the system clock taken during the call, unless the request is
    conditional and validated, in which case it is answered with 304 and
    no body.  The timestamp is a valid ISO-8601 UTC date-time that denotes
    that reading, so of two calls the one that read the later clock value
    carries the later or equal timestamp: later as the instant denoted
    and, for the years 0000 to 9999, later as a string.  The variant of
    the file that registers only [/] and [/test-ci] answers alike. *)
Theorem test_ci_response (env : JS.environment) (req1 req2 : Request) (clk1 clk2 : Clock) :
  passes_to "/test-ci" req1 ->
  passes_to "/test-ci" req2 ->
  - Date.maxTime <= now clk1 ->
  now clk1 <= now clk2 ->
  now clk2 <= Date.maxTime ->
  let r1 := handle (app env) req1 clk1 in
  let r2 := handle (app env) req2 clk2 in
  (truthy (if_none_match req1) = false -> validates req1 (test_ci req1 clk1) = false) /\
  (validates req1 (test_ci req1 clk1) = true ->
   status r1 = 304 /\ content r1 = NoContent /\ reported_timestamp r1 = None) /\
  (validates req1 (test_ci req1 clk1) = false ->
   validates req2 (test_ci req2 clk2) = false ->
   status r1 = 200 /\ status r2 = 200 /\
   reported_message r1 = Some celebration /\ reported_message r2 = Some celebration /\
   reported_timestamp r1 = Some (Date.toISOString (now clk1)) /\
   reported_timestamp r2 = Some (Date.toISOString (now clk2)) /\
   handle (app_test_ci_only env) req1 clk1 = r1 /\
   (exists i1 i2,
      reported_instant r1 = Some i1 /\ reported_instant r2 = Some i2 /\
      i1 = now clk1 /\ i2 = now clk2 /\ i1 <= i2) /\
   (Chrono.minFourDigits <= now clk1 -> now clk2 <= Chrono.maxFourDigits ->
    exists t1 t2,
      reported_timestamp r1 = Some t1 /\ reported_timestamp r2 = Some t2 /\
      String.compare t1 t2 = (now clk1 ?= now clk2) /\ String.compare t1 t2 <> Gt)).
Proof.
  intros Hreq1 Hreq2 Hlo Hle Hhi r1 r2. subst r1 r2.
  rewrite (handle_test_ci_only env req1 clk1 Hreq1).
  rewrite (handle_test_ci env req1 clk1 Hreq1), (handle_test_ci env req2 clk2 Hreq2).
  destruct Hreq1 as (Hm1 & _ & _). destruct Hreq2 as (Hm2 & _ & _).
  destruct (res_json_get req1 (test_ci req1 clk1) Hm1) as [Ha1 Hb1].
  destruct (res_json_get req2 (test_ci req2 clk2) Hm2) as [Ha2 _].
  split; [apply unvalidated|]. split.
  - intros Hv. destruct (Hb1 Hv) as (Hs & _ & Hc & _).
    unfold reported_timestamp. rewrite Hc. auto.
  - intros Hv1 Hv2.
    destruct (Ha1 Hv1) as (Hs1 & _ & Hc1 & _). destruct (Ha2 Hv2) as (Hs2 & _ & Hc2 & _).
    unfold reported_instant, reported_message, reported_timestamp.
    rewrite Hs1, Hs2, Hc1, Hc2.
    rewrite !test_ci_message, !test_ci_timestamp. cbn [mbind option_bind].
    rewrite !parseISO_toISOString by lia.
    do 7 (split; [reflexivity|]). split.
    + exists (now clk1), (now clk2). auto.
    + intros Hmin Hmax.
      exists (Date.toISOString (now clk1)), (Date.toISOString (now clk2)).
      split; [reflexivity|]. split; [reflexivity|].
      rewrite compare_timestamps by lia.
      split; [reflexivity|]. apply Z.compare_le_iff. exact Hle.
Qed.

Lemma test_ci_response_witness :
  passes_to "/test-ci" (plain GET "/test-ci") /\
  reported_timestamp
    (handle (app ∅) (plain GET "/test-ci") {| uptime := 0; now := 1793687696789 |})
    = Some (Date.toISOString 1793687696789) /\
  reported_message
    (handle (app ∅) (plain GET "/test-ci") {| uptime := 0; now := 1793687696789 |})
    = Some celebration.
Proof.
  assert (Hreq : passes_to "/test-ci" (plain GET "/test-ci")) by (repeat split).
  pose proof (test_ci_response ∅ _ _ at_start {| uptime := 0; now := 1793687696789 |}
                Hreq Hreq ltac:(discriminate) ltac:(discriminate) ltac:(discriminate))
    as (Hv & _ & H).
  destruct (H (Hv eq_refl)
               (unvalidated (plain GET "/test-ci")
                  (test_ci (plain GET "/test-ci") {| uptime := 0; now := 1793687696789 |})
                  eq_refl))
    as (_ & _ & _ & Hmsg & _ & Hts & _).
  split; [exact Hreq|]. split; [exact Hts | exact Hmsg].
Defined.

Example test_ci_body :
  wire_body (handle (app ∅) (plain GET "/test-ci") {| uptime := 0; now := 1793687696789 |})
  = Some ("{" +:+ dq +:+ "message" +:+ dq +:+ ":" +:+ dq +:+ celebration +:+ dq +:+ ","
          +:+ dq +:+ "timestamp" +:+ dq +:+ ":" +:+ dq +:+ "2026-11-03T06:34:56.789Z"
          +:+ dq +:+ "}").
Proof. reflexivity. Qed.

(** C7 as stated fails twice.  A GET for [/test-ci] whose JSON body is
    malformed is answered with 400 and an error page that has neither
    member.  And the timestamp is read from the system clock, which can be
    set back while the process runs: of two calls one second of running
    time apart, between which the clock was set back, the later call
    carries the earlier timestamp. *)
Lemma test_ci_request_rejected :
  status (handle (app ∅) (with_json GET "/test-ci" "nonsense") at_start) = 400 /\
  reported_message (handle (app ∅) (with_json GET "/test-ci" "nonsense") at_start) = None /\
  reported_timestamp (handle (app ∅) (with_json GET "/test-ci" "nonsense") at_start) = None /\
  (uptime before_reset < uptime after_reset)%Q /\
  reported_timestamp (handle (app ∅) (plain GET "/test-ci") before_reset)
    = Some "2026-11-03T06:34:56.789Z" /\
  reported_timestamp (handle (app ∅) (plain GET "/test-ci") after_reset)
    = Some "2026-11-03T06:34:55.000Z" /\
  String.compare "2026-11-03T06:34:55.000Z" "2026-11-03T06:34:56.789Z" = Lt.
Proof. repeat split. Qed.

(** C8.  When the system refuses the listening socket, the process has
    made one attempt to bind, logs nothing, ends with exit code 1 and
    answers no request, even if a later attempt would have succeeded; when
    the socket is bound, the process serves and has logged two lines, the
    port and the environment label. *)
Theorem bind_failure_is_fatal (env : JS.environment) (os : nat -> Node.ListenResult) :
  (forall code, os 0%nat = Node.refused code ->
     main env os = ([Node.Listen (PORT env); Node.Uncaught code; Node.Exit 1],
                    Node.Terminated 1) /\
     Node.count_listen (fst (main env os)) = 1%nat /\
     Node.log_lines (fst (main env os)) = [] /\
     forall req clk, Node.serve (snd (main env os)) req clk = None) /\
  (os 0%nat = Node.bound ->
     snd (main env os) = Node.Serving (app env) (PORT env) /\
     Node.count_listen (fst (main env os)) = 1%nat /\
     Node.log_lines (fst (main env os)) =
       ["Server is running on port " +:+ JS.ToString (PORT env);
        "Environment: " +:+
          JS.ToString (JS.or (JS.env_get env "NODE_ENV") (JS.Str "development"))]).
Proof.
  split.
  - intros code H. unfold main, Node.app_listen. rewrite H.
    change (Node.emit _ "error") with (@None (list Node.Effect)).
    repeat split.
  - intros H. unfold main, Node.app_listen. rewrite H.
    change (Node.emit [("listening", ?cb)] "listening") with (Some (cb ++ [])%list).
    unfold on_listening. repeat split.
Qed.

Lemma bind_failure_is_fatal_witness :
  snd (main ∅ busy_then_free) = Node.Terminated 1 /\
  Node.log_lines (fst (main ∅ (fun _ => Node.bound))) =
    ["Server is running on port 9001"; "Environment: development"].
Proof.
  split.
  - pose proof (proj1 (bind_failure_is_fatal ∅ busy_then_free) "EADDRINUSE" eq_refl)
      as (H & _).
    rewrite H. reflexivity.
  - exact (proj2 (proj2 (proj2 (bind_failure_is_fatal ∅ (fun _ => Node.bound)) eq_refl))).
Defined.

(** The settings of two applications created under environments that
    agree on whether [NODE_ENV] has a given value. *)
Lemma production_agrees env1 env2 :
  (env1 !! "NODE_ENV" = Some "production" <-> env2 !! "NODE_ENV" = Some "production") ->
  is_production (env_setting (express env1)) = is_production (env_setting (express env2)).
Proof. intros H. apply eq_true_iff_eq. rewrite !production_setting. exact H. Qed.

Lemma test_agrees env1 env2 :
  (env1 !! "NODE_ENV" = Some "test" <-> env2 !! "NODE_ENV" = Some "test") ->
  is_test (env_setting (express env1)) = is_test (env_setting (express env2)).
Proof. intros H. apply eq_true_iff_eq. rewrite !test_setting. exact H. Qed.

(** C9, as amended.  Of two runs that differ only in [NODE_ENV], the port
    is the same, every response has the same status, and every response
    to a request that the JSON body parser passes on is the same, with
    nothing written to the error stream.  For a request that the parser
    rejects, [NODE_ENV] decides two things.  The default error page shows
    the stack trace of the error unless the value is [production]: the
    responses are the same when both runs or neither run has [NODE_ENV]
    equal to [production].  And the stack trace of the error is written to
    the standard error stream unless the value is [test]: what is written
    is the same when both runs or neither run has [NODE_ENV] equal to
    [test]. *)
Theorem node_env_influence (env1 env2 : JS.environment) :
  delete "NODE_ENV" env1 = delete "NODE_ENV" env2 ->
  PORT env1 = PORT env2 /\
  (forall req clk,
     status (handle (app env1) req clk) = status (handle (app env2) req clk)) /\
  (forall req clk, json req = next ->
     handle (app env1) req clk = handle (app env2) req clk /\
     stderr (app env1) req clk = [] /\ stderr (app env2) req clk = []) /\
  ((env1 !! "NODE_ENV" = Some "production" <-> env2 !! "NODE_ENV" = Some "production") ->
   forall req clk, handle (app env1) req clk = handle (app env2) req clk) /\
  ((env1 !! "NODE_ENV" = Some "test" <-> env2 !! "NODE_ENV" = Some "test") ->
   forall req clk, stderr (app env1) req clk = stderr (app env2) req clk) /\
  (forall req clk e, json req = next_err e ->
     stderr (app env1) req clk
     = if decide (env1 !! "NODE_ENV" = Some "test") then [] else [ErrorStack e]).
Proof.
  intros Hd. split; [|split; [|split; [|split; [|split]]]].
  - unfold PORT, resolve_port, JS.env_get.
    rewrite <- (lookup_delete_ne env1 "NODE_ENV" "PORT") by discriminate.
    rewrite <- (lookup_delete_ne env2 "NODE_ENV" "PORT") by discriminate.
    rewrite Hd. reflexivity.
  - intros req clk. destruct (json req) as [|e] eqn:Hj.
    + rewrite !(handle_passed _ req clk Hj). reflexivity.
    + rewrite !(handle_rejected _ req clk e Hj). reflexivity.
  - intros req clk Hj. rewrite !(handle_passed _ req clk Hj), !(stderr_passed _ req clk Hj).
    auto.
  - intros Hp req clk. destruct (json req) as [|e] eqn:Hj.
    + rewrite !(handle_passed _ req clk Hj). reflexivity.
    + rewrite !(handle_rejected _ req clk e Hj). unfold final_error.
      rewrite (production_agrees env1 env2 Hp). reflexivity.
  - intros Ht req clk. destruct (json req) as [|e] eqn:Hj.
    + rewrite !(stderr_passed _ req clk Hj). reflexivity.
    + rewrite !(stderr_rejected _ req clk e Hj). unfold logerror.
      rewrite (test_agrees env1 env2 Ht). reflexivity.
  - intros req clk e Hj. rewrite (stderr_rejected _ req clk e Hj). unfold logerror.
    destruct (decide (env1 !! "NODE_ENV" = Some "test")) as [E|E].
    + apply test_setting in E. rewrite E. reflexivity.
    + destruct (is_test (env_setting (express env1))) eqn:Ht; [|reflexivity].
      apply test_setting in Ht. contradiction.
Qed.

Lemma node_env_influence_witness :
  handle (app {["NODE_ENV" := "staging"]}) (plain GET "/health") at_start
  = handle (app ∅) (plain GET "/health") at_start.
Proof.
  assert (Hd : delete "NODE_ENV" ({["NODE_ENV" := "staging"]} : JS.environment)
               = delete "NODE_ENV" ∅).
  { rewrite delete_singleton_eq, delete_empty. reflexivity. }
  exact (proj1 (proj1 (proj2 (proj2 (node_env_influence _ _ Hd))) (plain GET "/health")
                  at_start eq_refl)).
Defined.

(** C9 as stated fails: on the registered path [/], a request with a
    malformed JSON body gets the bare status message when [NODE_ENV] is
    [production] and the stack trace of the error when it is unset; and
    the stack trace is written to the error stream when [NODE_ENV] is
    unset, and not when it is [test]. *)
Lemma node_env_changes_error_page :
  delete "NODE_ENV" ({["NODE_ENV" := "production"]} : JS.environment) = delete "NODE_ENV" ∅ /\
  content (handle (app {["NODE_ENV" := "production"]}) (with_json GET "/" "{") at_start)
    = ErrorPage (StatusMessage "Bad Request") /\
  content (handle (app ∅) (with_json GET "/" "{") at_start)
    = ErrorPage (ErrorStack entity_parse_failed) /\
  stderr (app ∅) (with_json GET "/" "{") at_start = [ErrorStack entity_parse_failed] /\
  stderr (app {["NODE_ENV" := "test"]}) (with_json GET "/" "{") at_start = [].
Proof.
  split; [rewrite delete_singleton_eq, delete_empty; reflexivity|].
  repeat split.
Qed.

(** C10.  When [PORT] is set to a falsy string, which is the empty string
    and no other, the port is the default, as it is when [PORT] is
    unset. *)
Theorem empty_port_falls_back (default : Z) (env : JS.environment) (s : string) :
  env !! "PORT" = Some s ->
  JS.ToBoolean (JS.Str s) = false ->
  s = EmptyString /\
  resolve_port default env = JS.Num default /\
  resolve_port default env = resolve_port default (delete "PORT" env).
Proof.
  intros Hs Hf. split; [apply truthy_string; exact Hf|].
  unfold resolve_port, JS.env_get. rewrite Hs, lookup_delete_eq.
  rewrite (or_falsy _ _ Hf). split; reflexivity.
Qed.

Lemma empty_port_falls_back_witness :
  PORT (<["PORT" := EmptyString]> ∅) = JS.Num 9001 /\
  PORT (<["PORT" := EmptyString]> ∅) = PORT (delete "PORT" (<["PORT" := EmptyString]> ∅)).
Proof.
  exact (proj2 (empty_port_falls_back 9001 (<["PORT" := EmptyString]> ∅) EmptyString
                  eq_refl eq_refl)).
Defined.

End Claims.
(** ** Further properties of the service *)

Section More.

Import Express Index Observe.

(** The variants that lack a route pass its requests to the final
    handler. *)
Lemma missing_route (app : Application) req clk :
  json req = next ->
  stack app = use_json :: List.filter (fun l => match l with use_json => false | _ => true end)
                            (stack app) ->
  existsb (fun route => match_path route (path req)) (route_paths (stack app)) = false ->
  handle app req clk = not_found req.
Proof.
  intros Hj Hs Hmiss. unfold handle. rewrite Hs in *. cbn [walk]. rewrite Hj.
  cbn [route_paths flat_map List.app] in Hmiss. fold (route_paths) in Hmiss.
  set (routes := List.filter _ (stack app)) in *.
  assert (Hroutes : forall l, In l routes -> l <> use_json).
  { intros l Hin. apply filter_In in Hin. destruct Hin as [_ Hl]. destruct l; congruence. }
  clearbody routes. clear Hs.
  assert (Hw : walk routes [] req clk = done None []).
  { induction routes as [|l rest IH]; [reflexivity|].
    destruct l as [|route h]; [exfalso; apply (Hroutes use_json); [left|]; reflexivity|].
    cbn [route_paths flat_map List.app existsb] in Hmiss.
    apply orb_false_iff in Hmiss. destruct Hmiss as [Hm Hrest].
    cbn [walk]. rewrite Hm. apply IH; [exact Hrest|].
    intros l Hin. apply Hroutes. right. exact Hin. }
  rewrite Hw. unfold finish. destruct (method req); reflexivity.
Qed.

(** X1.  A GET request for [/test-docker-ecr-app-runner] that the body
    parser passes on is answered by [index.js] with status 200, the
    message [Sab sahi hai] and the timestamp of the system clock's
    reading, which denotes that reading, unless the request is conditional
    and validated, in which case it is answered with 304 and no body; the
    two sibling variants of the file do not have the route and answer
    404. *)
Theorem test_docker_response (env : JS.environment) (req : Request) (clk : Clock) :
  passes_to "/test-docker-ecr-app-runner" req ->
  - Date.maxTime <= now clk <= Date.maxTime ->
  let r := handle (app env) req clk in
  let obj := test_docker_ecr_app_runner req clk in
  (truthy (if_none_match req) = false -> validates req obj = false) /\
  (validates req obj = true ->
   status r = 304 /\ media_type r = None /\ content r = NoContent) /\
  (validates req obj = false ->
   status r = 200 /\
   media_type r = Some json_type /\
   reported_message r = Some "Sab sahi hai" /\
   reported_timestamp r = Some (Date.toISOString (now clk)) /\
   reported_instant r = Some (now clk) /\
   wire_body r =
     Some ("{" +:+ dq +:+ "message" +:+ dq +:+ ":" +:+ dq +:+ "Sab sahi hai" +:+ dq +:+ ","
           +:+ dq +:+ "timestamp" +:+ dq +:+ ":"
           +:+ Json.quoted (Date.toISOString (now clk)) +:+ "}")) /\
  status (handle (app_health_only env) req clk) = 404 /\
  status (handle (app_test_ci_only env) req clk) = 404.
Proof.
  intros Hreq Hnow r obj. subst r obj. rewrite (handle_test_docker env req clk Hreq).
  destruct Hreq as (Hm & Hp & Hj).
  destruct (res_json_get req (test_docker_ecr_app_runner req clk) Hm) as [H200 H304].
  split; [apply unvalidated|]. split; [|split; [|split]].
  - intros Hv. destruct (H304 Hv) as (Hs & Ht & Hc & _). auto.
  - intros Hv. destruct (H200 Hv) as (Hs & Ht & Hc & Hw).
    unfold reported_instant, reported_message, reported_timestamp.
    rewrite Hs, Ht, Hc, Hw.
    change (Json.field "message" (test_docker_ecr_app_runner req clk))
      with (Some (Json.JStr "Sab sahi hai")).
    change (Json.field "timestamp" (test_docker_ecr_app_runner req clk))
      with (Some (Json.JStr (Date.toISOString (now clk)))).
    cbn [mbind option_bind]. rewrite parseISO_toISOString by exact Hnow.
    do 5 (split; [reflexivity|]).
    unfold test_docker_ecr_app_runner. cbn [Json.stringify List.map fst snd].
    generalize (Json.quoted (Date.toISOString (now clk))). intros t. reflexivity.
  - rewrite (missing_route (app_health_only env) req clk Hj); [reflexivity..|].
    change (route_paths (stack (app_health_only env))) with ["/"; "/health"].
    rewrite Hp. reflexivity.
  - rewrite (missing_route (app_test_ci_only env) req clk Hj); [reflexivity..|].
    change (route_paths (stack (app_test_ci_only env))) with ["/"; "/test-ci"].
    rewrite Hp. reflexivity.
Qed.

Lemma test_docker_response_witness :
  passes_to "/test-docker-ecr-app-runner" (plain GET "/test-docker-ecr-app-runner") /\
  reported_instant
    (handle (app ∅) (plain GET "/test-docker-ecr-app-runner")
       {| uptime := 0; now := 1793687696789 |}) = Some 1793687696789.
Proof.
  assert (Hreq : passes_to "/test-docker-ecr-app-runner"
                   (plain GET "/test-docker-ecr-app-runner")) by (repeat split).
  split; [exact Hreq|].
  pose proof (test_docker_response ∅ _ {| uptime := 0; now := 1793687696789 |} Hreq
                ltac:(split; discriminate)) as (Hv & _ & H & _).
  exact (proj1 (proj2 (proj2 (proj2 (proj2 (H (Hv eq_refl))))))).
Defined.

(** X2.  Of two responses that report an uptime, when the second call
    read [process.uptime()] at least [k] seconds after the first, the
    second uptime is at least [k] more than the first. *)
Theorem uptime_grows (env : JS.environment) (req1 req2 : Request) (clk1 clk2 : Clock)
    (u1 u2 k : Z) :
  (uptime clk1 + inject_Z k <= uptime clk2)%Q ->
  reported_uptime (handle (app env) req1 clk1) = Some u1 ->
  reported_uptime (handle (app env) req2 clk2) = Some u2 ->
  u1 + k <= u2.
Proof.
  intros Hle H1 H2.
  apply reported_uptime_floor in H1. apply reported_uptime_floor in H2. subst u1 u2.
  unfold Math.floor. rewrite <- (Qfloor_Z (Qfloor (uptime clk1) + k)).
  apply Qfloor_resp_le. rewrite inject_Z_plus.
  eapply Qle_trans; [|exact Hle].
  apply Qplus_le_l. apply Qfloor_le.
Qed.

Lemma uptime_grows_witness :
  reported_uptime (handle (app ∅) (plain GET "/health") {| uptime := 1 # 2; now := 0 |})
    = Some 0 /\
  reported_uptime (handle (app ∅) (plain GET "/health") {| uptime := 5 # 2; now := 0 |})
    = Some 2 /\
  0 + 2 <= 2.
Proof.
  split; [reflexivity|]. split; [reflexivity|].
  apply (uptime_grows ∅ (plain GET "/health") (plain GET "/health")
           {| uptime := 1 # 2; now := 0 |} {| uptime := 5 # 2; now := 0 |} 0 2 2);
    [discriminate | reflexivity | reflexivity].
Defined.

(** X3.  A HEAD request is answered as the GET request with the same
    path, headers and body would be: same status, same media type, same
    [Allow] header, but without a body. *)
Theorem head_mirrors_get (env : JS.environment) (req : Request) (clk : Clock) :
  method req = HEAD ->
  let h := handle (app env) req clk in
  let g := handle (app env) (as_method GET req) clk in
  status h = status g /\ media_type h = media_type g /\ allow h = allow g /\
  content h = NoContent /\ wire_body h = Some EmptyString.
Proof.
  intros Hm h g.
  assert (H : status h = status g /\ media_type h = media_type g /\ allow h = allow g /\
              content h = NoContent).
  { subst h g. destruct (json req) as [|e] eqn:Hj.
    - assert (Hj' : json (as_method GET req) = next) by exact Hj.
      rewrite (handle_passed env req clk Hj), (handle_passed env _ clk Hj').
      change (method (as_method GET req)) with GET.
      change (path (as_method GET req)) with (path req).
      rewrite Hm. cbn [handles_method].
      assert (Hres : forall obj,
        status (res_json req obj) = status (res_json (as_method GET req) obj) /\
        media_type (res_json req obj) = media_type (res_json (as_method GET req) obj) /\
        allow (res_json req obj) = allow (res_json (as_method GET req) obj) /\
        content (res_json req obj) = NoContent).
      { intros obj.
        rewrite !res_json_status, !res_json_media_type, !res_json_allow, res_json_content.
        unfold req_fresh. change (method (as_method GET req)) with GET. rewrite Hm.
        cbn [handles_method andb Method_eqb].
        change (fresh (as_method GET req) (Etag.wetag (Json.stringify obj)))
          with (fresh req (Etag.wetag (Json.stringify obj))).
        rewrite orb_true_r. auto. }
      destruct (match_path "/" (path req)); [apply Hres|].
      destruct (match_path "/health" (path req)); [apply Hres|].
      destruct (match_path "/test-ci" (path req)); [apply Hres|].
      destruct (match_path "/test-docker-ecr-app-runner" (path req)); [apply Hres|].
      unfold not_found. cbn [status media_type allow content]. rewrite Hm. auto.
    - assert (Hj' : json (as_method GET req) = next_err e) by exact Hj.
      rewrite (handle_rejected env req clk e Hj), (handle_rejected env _ clk e Hj').
      unfold final_error. cbn [status media_type allow content]. rewrite Hm. auto. }
  destruct H as (Hs & Ht & Ha & Hc). repeat split; try assumption.
  unfold wire_body. rewrite Hc. reflexivity.
Qed.

Lemma head_mirrors_get_witness :
  status (handle (app ∅) (plain HEAD "/health") at_start) = 200 /\
  content (handle (app ∅) (plain HEAD "/health") at_start) = NoContent /\
  status (handle (app ∅) (with_json HEAD "/nowhere" "{") at_start) = 400.
Proof.
  pose proof (head_mirrors_get ∅ (plain HEAD "/health") at_start eq_refl)
    as (Hs & _ & _ & Hc & _).
  pose proof (head_mirrors_get ∅ (with_json HEAD "/nowhere" "{") at_start eq_refl)
    as (Hs' & _).
  split; [rewrite Hs; reflexivity|]. split; [exact Hc|]. rewrite Hs'. reflexivity.
Defined.

(** X4.  An OPTIONS request that the body parser passes on is answered,
    on a path that reaches a route, with status 200 and the methods
    [GET,HEAD] both in the [Allow] header and as the body; on any other
    path it is answered as not found. *)
Theorem options_lists_methods (env : JS.environment) (req : Request) (clk : Clock) :
  method req = OPTIONS ->
  json req = next ->
  handle (app env) req clk =
  if registered (path req) then send_options ["GET"; "HEAD"] else not_found req.
Proof.
  intros Hm Hj. rewrite (handle_passed env req clk Hj), Hm. reflexivity.
Qed.

Lemma options_lists_methods_witness :
  allow (handle (app ∅) (plain OPTIONS "/test-ci") at_start) = Some "GET,HEAD" /\
  wire_body (handle (app ∅) (plain OPTIONS "/test-ci") at_start) = Some "GET,HEAD" /\
  status (handle (app ∅) (plain OPTIONS "/elsewhere") at_start) = 404.
Proof.
  rewrite (options_lists_methods ∅ (plain OPTIONS "/test-ci") at_start eq_refl eq_refl).
  rewrite (options_lists_methods ∅ (plain OPTIONS "/elsewhere") at_start eq_refl eq_refl).
  repeat split.
Defined.

Lemma append_slash_is_slash s : s +:+ "/" = "/" <-> s = EmptyString.
Proof.
  split; [|intros ->; reflexivity].
  destruct s as [|c s]; [reflexivity|]. cbn. intros H. injection H as _ H.
  destruct s; discriminate H.
Qed.

Lemma match_root p :
  match_path "/" p = true <-> to_lower p = EmptyString \/ to_lower p = "/".
Proof.
  unfold match_path. change (to_lower "/") with "/".
  change (ends_with_slash "/") with true. cbv iota.
  rewrite orb_true_iff, !String.eqb_eq, append_slash_is_slash. tauto.
Qed.

Lemma match_health p :
  match_path "/health" p = true <-> to_lower p = "/health" \/ to_lower p = "/health/".
Proof.
  unfold match_path. change (to_lower "/health") with "/health".
  change (ends_with_slash "/health") with false. cbv iota.
  rewrite orb_true_iff, !String.eqb_eq. reflexivity.
Qed.

Lemma match_test_ci p :
  match_path "/test-ci" p = true <-> to_lower p = "/test-ci" \/ to_lower p = "/test-ci/".
Proof.
  unfold match_path. change (to_lower "/test-ci") with "/test-ci".
  change (ends_with_slash "/test-ci") with false. cbv iota.
  rewrite orb_true_iff, !String.eqb_eq. reflexivity.
Qed.

Lemma match_test_docker p :
  match_path "/test-docker-ecr-app-runner" p = true <->
  to_lower p = "/test-docker-ecr-app-runner" \/ to_lower p = "/test-docker-ecr-app-runner/".
Proof.
  unfold match_path.
  change (to_lower "/test-docker-ecr-app-runner") with "/test-docker-ecr-app-runner".
  change (ends_with_slash "/test-docker-ecr-app-runner") with false. cbv iota.
  rewrite orb_true_iff, !String.eqb_eq. reflexivity.
Qed.



Lemma match_path_lower route p1 p2 :
  to_lower p1 = to_lower p2 -> match_path route p1 = match_path route p2.
Proof. intros H. unfold match_path. rewrite H. reflexivity. Qed.

(** X6.  Request paths are compared without regard to case: two requests
    that differ only in the case of the letters of the path get responses
    with the same status, media type and [Allow] header, and the same
    response altogether unless both are the not-found page, which quotes
    the path. *)
Theorem path_case_is_ignored (env : JS.environment) (req : Request) (p' : string)
    (clk : Clock) :
  to_lower p' = to_lower (path req) ->
  let r := handle (app env) req clk in
  let r' := handle (app env) (to_path p' req) clk in
  status r' = status r /\ media_type r' = media_type r /\ allow r' = allow r /\
  (r' = r \/ (r = not_found req /\ r' = not_found (to_path p' req))).
Proof.
  intros Hp r r'. subst r r'. destruct (json req) as [|e] eqn:Hj.
  - assert (Hj' : json (to_path p' req) = next) by exact Hj.
    rewrite (handle_passed env req clk Hj), (handle_passed env _ clk Hj').
    unfold registered, routes. cbn [existsb].
    change (method (to_path p' req)) with (method req).
    change (path (to_path p' req)) with p'.
    rewrite !(match_path_lower _ p' (path req) Hp).
    assert (Hres : forall obj, res_json (to_path p' req) obj = res_json req obj)
      by reflexivity.
    destruct (handles_method (method req)).
    + destruct (match_path "/" (path req));
        [repeat split; left; apply Hres|].
      destruct (match_path "/health" (path req));
        [repeat split; left; apply Hres|].
      destruct (match_path "/test-ci" (path req));
        [repeat split; left; apply Hres|].
      destruct (match_path "/test-docker-ecr-app-runner" (path req));
        [repeat split; left; apply Hres|].
      repeat split. right. split; reflexivity.
    + destruct (Method_eqb (method req) OPTIONS
                && (match_path "/" (path req) || (match_path "/health" (path req)
                    || (match_path "/test-ci" (path req)
                        || (match_path "/test-docker-ecr-app-runner" (path req) || false))))).
      * repeat split. left. reflexivity.
      * repeat split. right. split; reflexivity.
  - assert (Hj' : json (to_path p' req) = next_err e) by exact Hj.
    rewrite (handle_rejected env req clk e Hj), (handle_rejected env _ clk e Hj').
    repeat split. left. reflexivity.
Qed.

Lemma path_case_is_ignored_witness :
  handle (app ∅) (plain GET "/HeAlTh") {| uptime := 7 # 2; now := 0 |}
  = handle (app ∅) (plain GET "/health") {| uptime := 7 # 2; now := 0 |}.
Proof.
  destruct (path_case_is_ignored ∅ (plain GET "/health") "/HeAlTh"
              {| uptime := 7 # 2; now := 0 |} eq_refl) as (_ & _ & _ & [H | [H _]]).
  - exact H.
  - discriminate H.
Defined.

(** X7.  Only the response of a route to GET or HEAD is JSON: the media
    type is [application/json] exactly when the body parser passes the
    request on, the path reaches a route, the method is GET or HEAD and
    the status is not 304, in which case there is no media type; the
    not-found page, the error page and the OPTIONS reply are HTML. *)
Theorem media_type_of_response (env : JS.environment) (req : Request) (clk : Clock) :
  media_type (handle (app env) req clk) =
  if passes req && registered (path req) && handles_method (method req)
  then (if status (handle (app env) req clk) =? 304 then None else Some json_type)
  else Some html_type.
Proof.
  unfold passes. destruct (json req) as [|e] eqn:Hj.
  - rewrite (handle_passed env req clk Hj). unfold registered, routes. cbn [existsb andb].
    assert (Hres : forall obj,
      media_type (res_json req obj)
      = if status (res_json req obj) =? 304 then None else Some json_type).
    { intros obj. rewrite res_json_status, res_json_media_type.
      destruct (req_fresh req (Etag.wetag (Json.stringify obj))); reflexivity. }
    destruct (handles_method (method req)).
    + rewrite andb_true_r.
      destruct (match_path "/" (path req)); [apply Hres|].
      destruct (match_path "/health" (path req)); [apply Hres|].
      destruct (match_path "/test-ci" (path req)); [apply Hres|].
      destruct (match_path "/test-docker-ecr-app-runner" (path req)); [apply Hres|].
      reflexivity.
    + rewrite andb_false_r.
      destruct (Method_eqb (method req) OPTIONS && _); reflexivity.
  - rewrite (handle_rejected env req clk e Hj). reflexivity.
Qed.

(** The routes that a path reaches exclude each other. *)
Lemma smoke_paths_miss p :
  match_path "/test-ci" p = true \/ match_path "/test-docker-ecr-app-runner" p = true ->
  match_path "/" p = false /\ match_path "/health" p = false.
Proof.
  rewrite match_test_ci, match_test_docker. intros H.
  split; apply not_true_is_false; rewrite ?match_root, ?match_health;
    intros [E|E]; destruct H as [[H|H]|[H|H]]; rewrite E in H; discriminate H.
Qed.

Lemma health_paths_miss p :
  match_path "/health" p = true \/ match_path "/test-docker-ecr-app-runner" p = true ->
  match_path "/" p = false /\ match_path "/test-ci" p = false.
Proof.
  rewrite match_health, match_test_docker. intros H.
  split; apply not_true_is_false; rewrite ?match_root, ?match_test_ci;
    intros [E|E]; destruct H as [[H|H]|[H|H]]; rewrite E in H; discriminate H.
Qed.

(** X8.  The variant of the file that registers only [/] and [/health]
    answers every request whose path reaches neither smoke-test route
    exactly as [index.js] does, and answers the requests for those two
    routes that pass the body parser with 404. *)
Theorem health_only_variant (env : JS.environment) (req : Request) (clk : Clock) :
  (match_path "/test-ci" (path req) = false ->
   match_path "/test-docker-ecr-app-runner" (path req) = false ->
   handle (app_health_only env) req clk = handle (app env) req clk) /\
  (json req = next ->
   match_path "/test-ci" (path req) = true \/
   match_path "/test-docker-ecr-app-runner" (path req) = true ->
   status (handle (app_health_only env) req clk) = 404).
Proof.
  split.
  - intros H1 H2. unfold handle, app, app_health_only, app_get, app_use, express.
    cbn [stack env_setting List.app walk]. rewrite H1, H2. reflexivity.
  - intros Hj H. destruct (smoke_paths_miss _ H) as [H1 H2].
    rewrite (missing_route (app_health_only env) req clk Hj); [reflexivity..|].
    change (route_paths (stack (app_health_only env))) with ["/"; "/health"].
    cbn [existsb]. rewrite H1, H2. reflexivity.
Qed.

Lemma health_only_variant_witness :
  handle (app_health_only ∅) (plain GET "/health") at_start
    = handle (app ∅) (plain GET "/health") at_start /\
  status (handle (app_health_only ∅) (plain GET "/test-ci") at_start) = 404.
Proof.
  split.
  - exact (proj1 (health_only_variant ∅ (plain GET "/health") at_start) eq_refl eq_refl).
  - exact (proj2 (health_only_variant ∅ (plain GET "/test-ci") at_start) eq_refl
             (or_introl eq_refl)).
Defined.

(** X9.  The variant of the file that registers only [/] and [/test-ci]
    answers every request whose path reaches neither [/health] nor
    [/test-docker-ecr-app-runner] exactly as [index.js] does, and answers
    the requests for those two routes that pass the body parser with
    404. *)
Theorem test_ci_only_variant (env : JS.environment) (req : Request) (clk : Clock) :
  (match_path "/health" (path req) = false ->
   match_path "/test-docker-ecr-app-runner" (path req) = false ->
   handle (app_test_ci_only env) req clk = handle (app env) req clk) /\
  (json req = next ->
   match_path "/health" (path req) = true \/
   match_path "/test-docker-ecr-app-runner" (path req) = true ->
   status (handle (app_test_ci_only env) req clk) = 404).
Proof.
  split.
  - intros H1 H2. unfold handle, app, app_test_ci_only, app_get, app_use, express.
    cbn [stack env_setting List.app walk]. rewrite H1, H2. reflexivity.
  - intros Hj H. destruct (health_paths_miss _ H) as [H1 H2].
    rewrite (missing_route (app_test_ci_only env) req clk Hj); [reflexivity..|].
    change (route_paths (stack (app_test_ci_only env))) with ["/"; "/test-ci"].
    cbn [existsb]. rewrite H1, H2. reflexivity.
Qed.

Lemma test_ci_only_variant_witness :
  handle (app_test_ci_only ∅) (plain GET "/test-ci") at_start
    = handle (app ∅) (plain GET "/test-ci") at_start /\
  status (handle (app_test_ci_only ∅) (plain GET "/health") at_start) = 404.
Proof.
  split.
  - exact (proj1 (test_ci_only_variant ∅ (plain GET "/test-ci") at_start) eq_refl eq_refl).
  - exact (proj2 (test_ci_only_variant ∅ (plain GET "/health") at_start) eq_refl
             (or_introl eq_refl)).
Defined.

Lemma label_is_setting env :
  JS.ToString (JS.or (JS.env_get env "NODE_ENV") (JS.Str "development"))
  = environment_label env.
Proof.
  unfold environment_label, JS.env_get.
  destruct (env !! "NODE_ENV") as [[|c s]|]; reflexivity.
Qed.

(** X10.  After a successful bind the start-up log of [index.js] has two
    lines: the port, and after [Environment:] the value of [NODE_ENV], or
    [development] when [NODE_ENV] is unset or empty.  The label says
    [production] exactly when the application hides stack traces on its
    error pages. *)
Theorem startup_log (env : JS.environment) (os : nat -> Node.ListenResult) :
  os 0%nat = Node.bound ->
  Node.log_lines (fst (main env os)) =
    ["Server is running on port " +:+ JS.ToString (PORT env);
     "Environment: " +:+ environment_label env] /\
  (env !! "NODE_ENV" = None \/ env !! "NODE_ENV" = Some EmptyString ->
   environment_label env = "development") /\
  (forall c s, env !! "NODE_ENV" = Some (String c s) -> environment_label env = String c s) /\
  (environment_label env = "production" <->
   is_production (env_setting (app env)) = true).
Proof.
  intros Hb. split; [|split; [|split]].
  - unfold main, Node.app_listen. rewrite Hb.
    change (Node.emit [("listening", ?cb)] "listening") with (Some (cb ++ [])%list).
    unfold on_listening. cbn [fst List.app Node.log_lines flat_map].
    rewrite label_is_setting. reflexivity.
  - unfold environment_label. intros [-> | ->]; reflexivity.
  - unfold environment_label. intros c s ->. reflexivity.
  - change (env_setting (app env)) with (env_setting (express env)).
    rewrite production_setting. unfold environment_label.
    destruct (env !! "NODE_ENV") as [[|c s]|]; split; intros H;
      try discriminate H; congruence.
Qed.

Lemma startup_log_witness :
  Node.log_lines (fst (main {["NODE_ENV" := EmptyString]} (fun _ => Node.bound)))
  = ["Server is running on port 9001"; "Environment: development"] /\
  Node.log_lines (fst (main (<["PORT" := "8080"]> {["NODE_ENV" := "staging"]})
                         (fun _ => Node.bound)))
  = ["Server is running on port 8080"; "Environment: staging"].
Proof.
  split.
  - exact (proj1 (startup_log {["NODE_ENV" := EmptyString]} (fun _ => Node.bound) eq_refl)).
  - exact (proj1 (startup_log (<["PORT" := "8080"]> {["NODE_ENV" := "staging"]})
                    (fun _ => Node.bound) eq_refl)).
Defined.

(** X11.  The TypeScript variant starts as [index.js] does, except for
    its default port: with [PORT] unset it logs port 3000, with [PORT] set
    to a non-empty string its effects are those of [index.js], and a
    refused bind ends it with exit code 1 after one attempt, with no log
    line and no request served. *)
Theorem ts_variant_startup (env : JS.environment) (os : nat -> Node.ListenResult) :
  (env !! "PORT" = None -> os 0%nat = Node.bound ->
   Node.log_lines (fst (main_ts env os)) =
     ["Server is running on port 3000"; "Environment: " +:+ environment_label env]) /\
  (forall c s, env !! "PORT" = Some (String c s) -> fst (main_ts env os) = fst (main env os)) /\
  (forall code, os 0%nat = Node.refused code ->
     main_ts env os = ([Node.Listen (PORT_ts env); Node.Uncaught code; Node.Exit 1],
                       Node.Terminated 1) /\
     forall req clk, Node.serve (snd (main_ts env os)) req clk = None).
Proof.
  split; [|split].
  - intros Hp Hb. unfold main_ts, Node.app_listen. rewrite Hb.
    change (Node.emit [("listening", ?cb)] "listening") with (Some (cb ++ [])%list).
    unfold on_listening, PORT_ts, resolve_port, JS.env_get. rewrite Hp.
    cbn [fst List.app Node.log_lines flat_map JS.or JS.ToBoolean].
    fold (JS.env_get env "NODE_ENV"). rewrite label_is_setting. reflexivity.
  - intros c s Hp.
    assert (E : PORT_ts env = PORT env).
    { unfold PORT_ts, PORT, resolve_port, JS.env_get. rewrite Hp. reflexivity. }
    unfold main_ts, main, Node.app_listen. rewrite E.
    destruct (os 0%nat); reflexivity.
  - intros code H. unfold main_ts, Node.app_listen. rewrite H.
    change (Node.emit _ "error") with (@None (list Node.Effect)).
    split; reflexivity.
Qed.

Lemma ts_variant_startup_witness :
  Node.log_lines (fst (main_ts ∅ (fun _ => Node.bound)))
  = ["Server is running on port 3000"; "Environment: development"] /\
  snd (main_ts ∅ busy_then_free) = Node.Terminated 1.
Proof.
  split.
  - exact (proj1 (ts_variant_startup ∅ (fun _ => Node.bound)) eq_refl eq_refl).
  - pose proof (proj2 (proj2 (ts_variant_startup ∅ busy_then_free)) "EADDRINUSE" eq_refl)
      as (H & _).
    rewrite H. reflexivity.
Defined.

(** X12.  The health check of the Dockerfile reports a container as
    healthy (exit code 0) whenever its probe reaches the serving process,
    whatever the environment and the clocks, for [index.js] and for its
    variants alike; it reports exit code 1 when the process has
    terminated or when the answer has any status other than 200. *)
Theorem healthcheck_of_service (env : JS.environment) (os : nat -> Node.ListenResult)
    (clk : Clock) :
  (os 0%nat = Node.bound ->
   Container.healthcheck (Node.serve (snd (main env os)) Container.probe clk) = 0 /\
   Container.healthcheck (Node.serve (snd (main_ts env os)) Container.probe clk) = 0 /\
   Container.healthcheck (Some (handle (app_test_ci_only env) Container.probe clk)) = 0) /\
  (forall code, os 0%nat = Node.refused code ->
   Container.healthcheck (Node.serve (snd (main env os)) Container.probe clk) = 1) /\
  (forall res, status res = 200 \/ Container.healthcheck (Some res) = 1).
Proof.
  split; [|split].
  - intros Hb. unfold main, main_ts, Node.app_listen. rewrite Hb.
    repeat split.
  - intros code H. unfold main, Node.app_listen. rewrite H. reflexivity.
  - intros res. unfold Container.healthcheck.
    destruct (status res =? 200) eqn:E; [left; apply Z.eqb_eq; exact E | right; reflexivity].
Qed.

Lemma healthcheck_of_service_witness :
  Container.healthcheck
    (Node.serve (snd (main {["NODE_ENV" := "production"]} (fun _ => Node.bound)))
       Container.probe at_start) = 0 /\
  Container.healthcheck (Node.serve (snd (main ∅ busy_then_free)) Container.probe at_start) = 1.
Proof.
  split.
  - exact (proj1 (proj1 (healthcheck_of_service {["NODE_ENV" := "production"]}
                           (fun _ => Node.bound) at_start) eq_refl)).
  - exact (proj1 (proj2 (healthcheck_of_service ∅ busy_then_free at_start))
             "EADDRINUSE" eq_refl).
Defined.

End More.
(** ** Response bodies are well-formed JSON *)

Section WellformedJson.

Import Json Wellformed.
Local Open Scope list_scope.

Lemma value_nested_ind (P : value -> Prop) :
  (forall n, P (JNum n)) ->
  (forall s, P (JStr s)) ->
  (forall fields, Forall (fun kv => P (snd kv)) fields -> P (JObj fields)) ->
  forall v, P v.
Proof.
  intros Hnum Hstr Hobj. fix IH 1. intros [n|s|fields].
  - apply Hnum.
  - apply Hstr.
  - apply Hobj. induction fields as [|kv rest IHf]; constructor.
    + apply IH.
    + exact IHf.
Qed.

Lemma chars_app a b : chars (a +:+ b) = (chars a ++ chars b)%list.
Proof.
  unfold chars. induction a as [|c a IH]; [reflexivity|].
  change (String c a +:+ b) with (String c (a +:+ b)).
  cbn [list_ascii_of_string List.app]. f_equal. exact IH.
Qed.

(** An escaped character is one step of a string literal. *)
Lemma scan_escape_char c tail :
  scan_string (chars (escape_char c) ++ tail) = scan_string tail.
Proof. destruct c as [[] [] [] [] [] [] [] []]; reflexivity. Qed.

Lemma scan_escape s : forall tail,
  scan_string (chars (escape s) ++ tail) = scan_string tail.
Proof.
  induction s as [|c s IH]; intros tail; [reflexivity|].
  cbn [escape]. rewrite chars_app, <- app_assoc, scan_escape_char. apply IH.
Qed.

(** A quoted string is recognised as a string literal. *)
Lemma scan_quoted s rest :
  chars (quoted s) ++ rest = quote :: (chars (escape s) ++ quote :: rest) /\
  scan_string (chars (escape s) ++ quote :: rest) = Some rest.
Proof.
  split.
  - unfold quoted. change (chars (String quote ?t)) with (quote :: chars t).
    rewrite chars_app, <- app_comm_cons, <- app_assoc. reflexivity.
  - rewrite scan_escape. cbn [scan_string]. rewrite Ascii.eqb_refl. reflexivity.
Qed.

Lemma follows_ends rest :
  follows rest = true ->
  skip_digits rest = rest /\ scan_fraction rest = Some rest /\ scan_exponent rest = Some rest.
Proof.
  destruct rest as [|c rest]; [repeat split|].
  cbn [follows]. intros H. apply orb_true_iff in H.
  destruct H as [H|H]; apply Ascii.eqb_eq in H; subst c; repeat split.
Qed.

Lemma skip_digits_uint d rest :
  follows rest = true ->
  skip_digits (chars (NilEmpty.string_of_uint d) ++ rest) = rest.
Proof.
  intros H. induction d; cbn; try exact IHd. apply (follows_ends rest H).
Qed.

Lemma to_uint_head p : forall d, Pos.to_uint p <> Decimal.D0 d.
Proof.
  intros d E.
  assert (Hn : Decimal.unorm (Pos.to_uint p) = Pos.to_uint p).
  { rewrite <- DecimalN.Unsigned.to_of.
    change (N.of_uint (Pos.to_uint p)) with (Pos.of_uint (Pos.to_uint p)).
    rewrite DecimalPos.Unsigned.of_to. reflexivity. }
  unfold Decimal.unorm in Hn.
  pose proof (DecimalFacts.nzhead_nonzero (Pos.to_uint p)) as Hz.
  destruct (Decimal.nzhead (Pos.to_uint p)) eqn:Hh.
  - rewrite E in Hn. injection Hn as Hn. subst d.
    exact (DecimalPos.Unsigned.to_uint_nonzero p E).
  - exact (Hz _ eq_refl).
  - rewrite E in Hn. discriminate Hn.
  - rewrite E in Hn. discriminate Hn.
  - rewrite E in Hn. discriminate Hn.
  - rewrite E in Hn. discriminate Hn.
  - rewrite E in Hn. discriminate Hn.
  - rewrite E in Hn. discriminate Hn.
  - rewrite E in Hn. discriminate Hn.
  - rewrite E in Hn. discriminate Hn.
  - rewrite E in Hn. discriminate Hn.
Qed.

Lemma scan_number_digit c tail :
  is_digit c = true -> Ascii.eqb c "0" = false ->
  scan_number (c :: tail) = scan_fraction (skip_digits tail) ≫= scan_exponent /\
  scan_number ("-"%char :: c :: tail) = scan_fraction (skip_digits tail) ≫= scan_exponent.
Proof.
  intros Hd Hz. unfold scan_number.
  change (Ascii.eqb "-" "-") with true.
  destruct (Ascii.eqb c "-") eqn:E.
  - apply Ascii.eqb_eq in E. subst c. discriminate Hd.
  - cbv zeta iota. rewrite Hz, Hd. split; reflexivity.
Qed.

(** The digits of a positive number are recognised as a number. *)
Lemma scan_positive p rest :
  follows rest = true ->
  scan_number (chars (NilEmpty.string_of_uint (Pos.to_uint p)) ++ rest) = Some rest /\
  scan_number ("-"%char :: chars (NilEmpty.string_of_uint (Pos.to_uint p)) ++ rest)
    = Some rest.
Proof.
  intros H. pose proof (to_uint_head p) as Hz.
  pose proof (DecimalPos.Unsigned.to_uint_nonnil p) as Hn.
  destruct (follows_ends rest H) as (_ & Hf & He).
  destruct (Pos.to_uint p) as [|d|d|d|d|d|d|d|d|d|d];
    [congruence | exfalso; exact (Hz d eq_refl) | ..];
    cbn [NilEmpty.string_of_uint];
    change (chars (String ?c ?t)) with (c :: chars t);
    rewrite <- app_comm_cons;
    (split;
     [lazymatch goal with
      | |- scan_number (?c :: ?t) = _ =>
          rewrite (proj1 (scan_number_digit c t eq_refl eq_refl))
      end
     |lazymatch goal with
      | |- scan_number (_ :: ?c :: ?t) = _ =>
          rewrite (proj2 (scan_number_digit c t eq_refl eq_refl))
      end];
     rewrite (skip_digits_uint d rest H), Hf; exact He).
Qed.

Lemma scan_decimal n rest :
  follows rest = true ->
  scan_number (chars (JS.decimal n) ++ rest) = Some rest.
Proof.
  intros H. unfold JS.decimal. destruct n as [|p|p].
  - destruct (follows_ends rest H) as (_ & Hf & He). cbn. rewrite Hf. exact He.
  - cbn [Z.to_int NilZero.string_of_int NilZero.string_of_uint].
    pose proof (DecimalPos.Unsigned.to_uint_nonnil p) as Hn.
    destruct (scan_positive p rest H) as [Hp _].
    destruct (Pos.to_uint p); [congruence | exact Hp ..].
  - cbn [Z.to_int NilZero.string_of_int NilZero.string_of_uint].
    pose proof (DecimalPos.Unsigned.to_uint_nonnil p) as Hn.
    destruct (scan_positive p rest H) as [_ Hp].
    destruct (Pos.to_uint p); [congruence | exact Hp ..].
Qed.

Lemma token_here c rest : is_ws c = false -> token c (c :: rest) = Some rest.
Proof.
  intros H. unfold token. cbn [skip_ws]. rewrite H, Ascii.eqb_refl. reflexivity.
Qed.

Lemma stringify_object fields :
  stringify (JObj fields) = "{" +:+ String.concat "," (List.map member fields) +:+ "}".
Proof. reflexivity. Qed.

(** One member, up to what follows its value. *)
Lemma scan_member_value k v tail :
  chars (member (k, v)) ++ tail
  = quote :: (chars (escape k) ++ quote :: ":"%char :: (chars (stringify v) ++ tail)).
Proof.
  unfold member. cbn [fst snd].
  rewrite chars_app, <- app_assoc. rewrite (proj1 (scan_quoted k _)).
  change (chars (":" +:+ stringify v)) with (":"%char :: chars (stringify v)).
  reflexivity.
Qed.

Lemma scan_members fields :
  Forall (fun kv => recognised (snd kv)) fields ->
  forall kv0, recognised (snd kv0) -> forall rest,
  exists fuel,
    scan fuel Members
      (chars (String.concat "," (List.map member (kv0 :: fields))) ++ "}"%char :: rest)
    = Some rest.
Proof.
  induction 1 as [|kv1 fields Hkv1 Hfields IH]; intros [k v] Hv rest; cbn [snd] in Hv.
  - cbn [List.map String.concat].
    destruct (Hv ("}"%char :: rest) eq_refl) as [fv Hfv].
    exists (S (levels Value (chars (stringify v) ++ "}"%char :: rest))).
    rewrite scan_member_value. cbn [scan].
    rewrite token_here by reflexivity.
    rewrite (proj2 (scan_quoted k _)).
    rewrite token_here by reflexivity.
    rewrite (scan_enough _ _ _ _ Hfv) by lia.
    rewrite token_here by reflexivity.
    change (token "," ("}"%char :: rest)) with (@None (list ascii)). reflexivity.
  - change (String.concat "," (List.map member ((k, v) :: kv1 :: fields)))
      with (member (k, v) +:+ "," +:+ String.concat "," (List.map member (kv1 :: fields))).
    rewrite chars_app, <- app_assoc.
    change (chars ("," +:+ ?t)) with (","%char :: chars t).
    rewrite <- app_comm_cons.
    set (later := chars (String.concat "," (List.map member (kv1 :: fields)))
                  ++ "}"%char :: rest).
    destruct (IH kv1 Hkv1 rest) as [fm Hfm]. fold later in Hfm.
    destruct (Hv (","%char :: later) eq_refl) as [fv Hfv].
    exists (S (Nat.max (levels Value (chars (stringify v) ++ ","%char :: later))
                       (levels Members later))).
    rewrite scan_member_value. cbn [scan].
    rewrite token_here by reflexivity.
    rewrite (proj2 (scan_quoted k _)).
    rewrite token_here by reflexivity.
    rewrite (scan_enough _ _ _ _ Hfv) by lia.
    rewrite token_here by reflexivity.
    apply (scan_enough _ _ _ _ Hfm). lia.
Qed.

(** Every text that [stringify] writes is recognised as a value. *)
Lemma stringify_recognised v : recognised v.
Proof.
  induction v as [n|s|fields IH] using value_nested_ind; intros rest Hrest.
  - exists 1%nat. cbn [stringify scan].
    assert (Hn := scan_decimal n rest Hrest).
    destruct (chars (JS.decimal n) ++ rest) as [|c tail] eqn:E; [discriminate Hn|].
    assert (Hd : is_digit c = true \/ c = "-"%char).
    { unfold scan_number in Hn. destruct (Ascii.eqb c "-") eqn:Em;
        [right; apply Ascii.eqb_eq; exact Em | left].
      destruct (Ascii.eqb_spec c "0") as [->|_]; [reflexivity|].
      destruct (is_digit c); [reflexivity | discriminate Hn]. }
    assert (Hw : skip_ws (c :: tail) = c :: tail).
    { destruct Hd as [Hd| ->]; [|reflexivity].
      cbn [skip_ws]. destruct c as [[] [] [] [] [] [] [] []]; try discriminate Hd; reflexivity. }
    rewrite Hw.
    destruct Hd as [Hd| ->]; [|exact Hn].
    destruct c as [[] [] [] [] [] [] [] []]; try discriminate Hd; exact Hn.
  - exists 1%nat. cbn [stringify scan].
    rewrite (proj1 (scan_quoted s rest)). cbn [skip_ws].
    change (is_ws quote) with false. cbv iota.
    change (Ascii.eqb quote "{") with false. change (Ascii.eqb quote "[") with false.
    rewrite Ascii.eqb_refl. cbv iota. apply (proj2 (scan_quoted s rest)).
  - rewrite stringify_object.
    change (chars ("{" +:+ ?t)) with ("{"%char :: chars t).
    rewrite chars_app, <- app_comm_cons, <- app_assoc.
    change (chars "}" ++ rest) with ("}"%char :: rest).
    destruct fields as [|kv0 fields].
    + exists 1%nat. reflexivity.
    + inversion IH as [|? ? Hkv0 Hrestf]; subst.
      destruct (scan_members fields Hrestf kv0 Hkv0 rest) as [fm Hfm].
      exists (S fm). cbn [scan skip_ws].
      change (is_ws "{") with false. cbv iota.
      rewrite Ascii.eqb_refl. cbv iota.
      assert (Hq : exists tail,
                 chars (String.concat "," (List.map member (kv0 :: fields)))
                 ++ "}"%char :: rest = quote :: tail).
      { destruct kv0 as [k v]. destruct fields as [|kv1 fields].
        - cbn [List.map String.concat]. rewrite scan_member_value. eauto.
        - change (String.concat "," (List.map member ((k, v) :: kv1 :: fields)))
            with (member (k, v) +:+ "," +:+
                  String.concat "," (List.map member (kv1 :: fields))).
          rewrite chars_app, <- app_assoc, scan_member_value. eauto. }
      destruct Hq as [tail Hq]. rewrite Hq in *.
      change (token "}" (quote :: tail)) with (@None (list ascii)). exact Hfm.
Qed.

(** The text of a value parses. *)
Lemma stringify_parses v : parses (stringify v) = true.
Proof.
  apply parses_spec.
  destruct (stringify_recognised v [] eq_refl) as [fuel H].
  exists fuel, []. rewrite app_nil_r in H. split; [exact H | reflexivity].
Qed.

Lemma strict_first_object fields :
  Express.strict_first (stringify (JObj fields)) = true.
Proof.
  rewrite stringify_object. unfold Express.strict_first.
  change (list_ascii_of_string ("{" +:+ ?t)) with ("{"%char :: list_ascii_of_string t).
  reflexivity.
Qed.

End WellformedJson.

Section Bodies.

Import Express Index Observe.

(** X13.  Every JSON body the service sends is well formed: a response
    whose content is a JSON text has status 200 and the JSON media type,
    and its text is accepted by [JSON.parse] and by the strict check of
    the service's own body parser; a GET request answered with 200 always
    gets such a body. *)
Theorem bodies_are_json (env : JS.environment) (req : Request) (clk : Clock) :
  (forall obj, content (handle (app env) req clk) = JsonText obj ->
     status (handle (app env) req clk) = 200 /\
     media_type (handle (app env) req clk) = Some json_type /\
     wire_body (handle (app env) req clk) = Some (Json.stringify obj) /\
     Json.parses (Json.stringify obj) = true /\
     strict_first (Json.stringify obj) = true) /\
  (method req = GET -> status (handle (app env) req clk) = 200 ->
   exists obj, content (handle (app env) req clk) = JsonText obj).
Proof.
  split.
  - intros obj. unfold wire_body. intros Hc. rewrite Hc.
    destruct (handle_text env req clk obj Hc) as (_ & Hobj & Hh).
    rewrite Hh in Hc |- *.
    rewrite res_json_status, res_json_media_type. rewrite res_json_content in Hc.
    destruct (req_fresh req (Etag.wetag (Json.stringify obj))); [discriminate Hc|].
    do 3 (split; [reflexivity|]).
    assert (Hf : exists fields, obj = Json.JObj fields)
      by (destruct Hobj as [-> | [-> | [-> | ->]]]; eexists; reflexivity).
    destruct Hf as (fields & ->).
    split; [apply stringify_parses | apply strict_first_object].
  - intros Hm. destruct (json req) as [|e] eqn:Hj.
    + rewrite (handle_passed env req clk Hj), Hm. cbn [handles_method].
      assert (Hres : forall obj, status (res_json req obj) = 200 ->
                                 exists obj', content (res_json req obj) = JsonText obj').
      { intros obj. rewrite res_json_status, res_json_content, Hm.
        destruct (req_fresh req (Etag.wetag (Json.stringify obj))); [discriminate|].
        intros _. exists obj. reflexivity. }
      destruct (match_path "/" (path req)); [apply Hres|].
      destruct (match_path "/health" (path req)); [apply Hres|].
      destruct (match_path "/test-ci" (path req)); [apply Hres|].
      destruct (match_path "/test-docker-ecr-app-runner" (path req)); [apply Hres|].
      discriminate.
    + rewrite (handle_rejected env req clk e Hj). destruct e; discriminate.
Qed.

Lemma bodies_are_json_witness :
  Json.parses
    ("{" +:+ dq +:+ "status" +:+ dq +:+ ":" +:+ dq +:+ "ok" +:+ dq +:+ ","
     +:+ dq +:+ "uptime" +:+ dq +:+ ":3}") = true.
Proof.
  exact (proj1 (proj2 (proj2 (proj2
           (proj1 (bodies_are_json ∅ (plain GET "/health")
                     {| uptime := 7 # 2; now := 0 |}) _ eq_refl))))).
Defined.

End Bodies.

(** ** Timestamps sort as the instants they denote *)

Section SortedTimestamps.

Import Date Chrono.
Local Open Scope list_scope.

(** X14.  For the instants of the years 0000 to 9999, the timestamps that
    [toISOString] writes have 24 characters and compare as strings
    exactly as the instants compare as numbers: they sort
    chronologically, and different instants have different
    timestamps. *)
Theorem timestamps_sort (t1 t2 : Z) :
  minFourDigits <= t1 <= maxFourDigits ->
  minFourDigits <= t2 <= maxFourDigits ->
  String.compare (toISOString t1) (toISOString t2) = (t1 ?= t2) /\
  String.length (toISOString t1) = 24%nat /\
  (toISOString t1 = toISOString t2 -> t1 = t2).
Proof.
  intros H1 H2.
  pose proof (four_digit_year t1 H1) as Hy1.
  pose proof (compare_timestamps t1 t2 H1 H2) as Hc.
  split; [exact Hc|]. split.
  - unfold toISOString, YearFromTime, year_digits in *.
    destruct (civil_from_days (Day t1)) as [[y m] d]. cbn [fst] in Hy1.
    rewrite (proj2 (andb_true_iff _ _)) by (split; apply Z.leb_le; lia).
    rewrite string_length_chars.
    repeat (rewrite length_app, pad_length; cbn [List.length]). reflexivity.
  - intros E. rewrite E in Hc. apply Z.compare_eq_iff. rewrite <- Hc.
    clear. induction (toISOString t2) as [|c s IH]; [reflexivity|].
    cbn [String.compare]. unfold Ascii.compare. rewrite N.compare_refl. exact IH.
Qed.

Lemma timestamps_sort_witness :
  String.compare (toISOString 1793687696789) (toISOString 1793687696790) = Lt /\
  String.length (toISOString 0) = 24%nat.
Proof.
  split.
  - exact (proj1 (timestamps_sort 1793687696789 1793687696790
                    ltac:(split; discriminate) ltac:(split; discriminate))).
  - exact (proj1 (proj2 (timestamps_sort 0 0
                    ltac:(split; discriminate) ltac:(split; discriminate)))).
Defined.

End SortedTimestamps.
